(** * Ready Trader Go auto-traders: dynamic_spread.py and rolling_regression.py

    A shallow embedding of the two [AutoTrader] classes and of the
    [throttler] decorator they share, with the properties of the
    quoting/risk engine proved over it.

    Conventions of the embedding.
    - Python [int] is [Z]; [//] on integers is [Z.div] (floor division)
      and [%] is [Z.modulo].
    - Clock readings ([time.monotonic()], [time.time()]) and every [float]
      are rationals [Q], with exact arithmetic in place of binary64
      rounding.  A handler that reads the clock takes the reading as an
      argument.
    - The numeric kernels that leave the rationals ([np.std], [**] with a
      fractional exponent) or belong to numpy ([np.polyfit]) are fields of
      the class [Numerics]; the handlers are written against the class and
      the trading invariants are proved for every instance.
    - [self.bids] and [self.asks] are [gset Z]; the deques are lists, oldest
      entry first.
    - A handler returns the new state and the gateway calls it made, in call
      order. *)

From Stdlib Require Import ZArith QArith Qround Qabs Lqa Lia List Bool Sorted.
From stdpp Require Import base decidable list gmap.
Import ListNotations.

Local Open Scope Z_scope.

(** ** Bounded deques *)

(** [deque(maxlen=n).append(x)]: a full deque drops its oldest entry. *)
Definition deque_append {A : Type} (maxlen : nat) (d : list A) (x : A) : list A :=
  if (length d <? maxlen)%nat then d ++ [x] else tail d ++ [x].

(** [deque.remove(x)] inside [try ... except ValueError: pass]: the first
    occurrence is removed, an absent value leaves the deque as it is. *)
Fixpoint deque_remove (x : Z) (d : list Z) : list Z :=
  match d with
  | [] => []
  | y :: d' => if Z.eqb y x then d' else y :: deque_remove x d'
  end.

(** ** The throttler decorator *)

Module Throttler.

Definition max_calls : nat := 47.
Definition interval : Q := 1%Q.

Definition Qlt_bool (x y : Q) : bool := negb (Qle_bool y x).

(** The test of [wrapper]: [len(call_times) == max_calls and
    now - call_times[0] < interval]. *)
Definition saturated (call_times : list Q) (now : Q) : bool :=
  (length call_times =? max_calls)%nat
  && Qlt_bool (now - hd 0%Q call_times)%Q interval.

(** What [wrapper] does to [call_times]: [None] when the call is
    rejected, the deque with [now] recorded otherwise. *)
Definition record_call (call_times : list Q) (now : Q) : option (list Q) :=
  if saturated call_times now then None
  else Some (deque_append max_calls call_times now).

(** [wrapper] around a function [func] of a world [W] that holds the
    closure's [call_times] (read by [get], written by [set]). *)
Definition throttler {W R : Type}
    (get : W -> list Q) (set : list Q -> W -> W)
    (func : W -> W * R) (now : Q) (w : W) : W * option R :=
  match record_call (get w) now with
  | None => (w, None)
  | Some call_times' =>
      let '(w', r) := func (set call_times' w) in (w', Some r)
  end.

(** A sequence of calls seen by one limiter, in the order they are made:
    [(call_times, accepted)] after the calls, [accepted] being the
    readings of the accepted calls, oldest first. *)
Fixpoint calls (call_times accepted : list Q) (nows : list Q)
    : list Q * list Q :=
  match nows with
  | [] => (call_times, accepted)
  | now :: rest =>
      match record_call call_times now with
      | None => calls call_times accepted rest
      | Some call_times' => calls call_times' (accepted ++ [now]) rest
      end
  end.

(** Accepted calls of a fresh limiter. *)
Definition accepted_calls (nows : list Q) : list Q := snd (calls [] [] nows).

(** The trailing window of length [interval] that ends at [t]: the
    readings [a] with [t - a < interval] and [a <= t]. *)
Definition in_window (t a : Q) : bool :=
  Qlt_bool (t - a)%Q interval && Qle_bool a t.

Definition accepted_in_window (t : Q) (accepted : list Q) : nat :=
  length (List.filter (in_window t) accepted).

(** [time.monotonic()] never goes back. *)
Fixpoint monotonic (nows : list Q) : Prop :=
  match nows with
  | [] => True
  | t :: rest => (forall u, In u rest -> (t <= u)%Q) /\ monotonic rest
  end.

(** Accepted readings [max_calls] places apart are at least [interval]
    apart. *)
Definition spaced (accepted : list Q) : Prop :=
  forall (i : nat) (a b : Q),
    accepted !! i = Some a ->
    accepted !! (i + max_calls)%nat = Some b ->
    (a + interval <= b)%Q.

(** What [calls] keeps true: the deque is the last [max_calls] accepted
    readings. *)
Definition limiter_inv (call_times acc : list Q) : Prop :=
  call_times = drop (length acc - max_calls) acc /\ monotonic acc /\ spaced acc.

End Throttler.

(** ** The gateway: enumerations, constants and calls *)

(** The gateway library's enumerations.  [Side.BID] and [Side.ASK] are its
    aliases of [Side.BUY] and [Side.SELL]. *)
Inductive Side : Type := SELL | BUY.
Definition ASK : Side := SELL.
Definition BID : Side := BUY.

Inductive Instrument : Type := FUTURE | ETF.

#[global] Instance Instrument_eq_dec : EqDecision Instrument.
Proof. solve_decision. Defined.

Inductive Lifespan : Type := FILL_AND_KILL | GOOD_FOR_DAY.

(** The venue's price limits, imported from the gateway library. *)
Class Venue : Type := { MINIMUM_BID : Z; MAXIMUM_ASK : Z }.

(** A callback handed to [event_loop.call_later]. *)
Inductive Callback : Type :=
| cb_check_hedge
| cb_cancel_order (client_order_id : Z).

(** The calls a handler makes on the gateway and on the event loop. *)
Inductive Action : Type :=
| send_insert_order (client_order_id : Z) (side : Side) (price volume : Z)
    (lifespan : Lifespan)
| send_cancel_order (client_order_id : Z)
| send_hedge_order (client_order_id : Z) (side : Side) (price volume : Z)
| call_later (delay : Z) (callback : Callback).

(** The numeric kernels of numpy and of the float power operator, over
    the rationals. *)
Class Numerics : Type := {
  np_std : list Q -> Q;
  np_polyfit_slope : list Q -> list Q -> Q;
  float_pow : Q -> Q -> Q
}.

Definition LOT_SIZE : Z := 10.
Definition POSITION_LIMIT : Z := 100.
Definition TICK_SIZE_IN_CENTS : Z := 100.

Definition MIN_BID_NEAREST_TICK `{Venue} : Z :=
  (MINIMUM_BID + TICK_SIZE_IN_CENTS) / TICK_SIZE_IN_CENTS * TICK_SIZE_IN_CENTS.
Definition MAX_ASK_NEAREST_TICK `{Venue} : Z :=
  MAXIMUM_ASK / TICK_SIZE_IN_CENTS * TICK_SIZE_IN_CENTS.

Definition HEDGE_BOUNDARY : Z := 10.
Definition HEDGE_TIME_LIMIT : Q := 58%Q.

Definition MAKER_FEE : Q := (1 # 10000)%Q.
Definition TAKER_FEE : Q := (2 # 10000)%Q.

(** [adjust_price]: [int(price // TICK_SIZE_IN_CENTS) * TICK_SIZE_IN_CENTS],
    [//] being floor division of a float or of an integer. *)
Definition adjust_price (price : Q) : Z :=
  Qfloor (price / inject_Z TICK_SIZE_IN_CENTS)%Q * TICK_SIZE_IN_CENTS.

(** [np.mean] of a non-empty array. *)
Definition np_mean (a : list Q) : Q :=
  (fold_right Qplus 0 a / inject_Z (Z.of_nat (length a)))%Q.

(** ** The state and the handlers both traders share *)

Module Core.

(** The fields of [self] that both classes declare. *)
Record Trader : Type := {
  order_ids : Z;            (* the value [next(self.order_ids)] returns *)
  bids : gset Z;
  asks : gset Z;
  position : Z;
  hedge_balance : Z;
  hedge_time : option Q;
  bidq : list Z;
  askq : list Z;
  call_times : list Q       (* the deque of [send_throttled]'s throttler *)
}.

(** [__init__]. *)
Definition init : Trader := {|
  order_ids := 1; bids := ∅; asks := ∅; position := 0; hedge_balance := 0;
  hedge_time := None; bidq := []; askq := []; call_times := []
|}.

Definition init_actions : list Action := [call_later 50 cb_check_hedge].

(** How a call that can exhaust the interpreter's stack ends. *)
Inductive Outcome : Type := Returned | RecursionError.

Definition set_order_ids (n : Z) (s : Trader) : Trader :=
  {| order_ids := n; bids := bids s; asks := asks s; position := position s;
     hedge_balance := hedge_balance s; hedge_time := hedge_time s;
     bidq := bidq s; askq := askq s; call_times := call_times s |}.

Definition set_bid_side (q : list Z) (b : gset Z) (s : Trader) : Trader :=
  {| order_ids := order_ids s; bids := b; asks := asks s;
     position := position s; hedge_balance := hedge_balance s;
     hedge_time := hedge_time s; bidq := q; askq := askq s;
     call_times := call_times s |}.

Definition set_ask_side (q : list Z) (a : gset Z) (s : Trader) : Trader :=
  {| order_ids := order_ids s; bids := bids s; asks := a;
     position := position s; hedge_balance := hedge_balance s;
     hedge_time := hedge_time s; bidq := bidq s; askq := q;
     call_times := call_times s |}.

Definition set_hedge (p hb : Z) (ht : option Q) (s : Trader) : Trader :=
  {| order_ids := order_ids s; bids := bids s; asks := asks s;
     position := p; hedge_balance := hb; hedge_time := ht;
     bidq := bidq s; askq := askq s; call_times := call_times s |}.

(** [client_order_id in self.bids or client_order_id in self.bidq]. *)
Definition on_bid_side (s : Trader) (client_order_id : Z) : bool :=
  bool_decide (client_order_id ∈ bids s)
  || bool_decide (client_order_id ∈ bidq s).

Definition on_ask_side (s : Trader) (client_order_id : Z) : bool :=
  bool_decide (client_order_id ∈ asks s)
  || bool_decide (client_order_id ∈ askq s).

(** The bookkeeping of [send_throttled], the same lines in both classes:
    [None] is the early [return] taken when the side's queue already holds
    4 ids, otherwise the id is appended to the queue and added to the
    set. *)
Definition track_order (client_order_id : Z) (side : Side) (s : Trader)
    : option Trader :=
  match side with
  | BUY =>
      if (4 <=? length (bidq s))%nat then None
      else Some (set_bid_side (bidq s ++ [client_order_id])
                   ({[client_order_id]} ∪ bids s) s)
  | SELL =>
      if (4 <=? length (askq s))%nat then None
      else Some (set_ask_side (askq s ++ [client_order_id])
                   ({[client_order_id]} ∪ asks s) s)
  end.

(** The eviction step of the quoting cycle:
    [if len(self.bidq) >= 4: bid = self.bidq.popleft(); self.send_cancel_order(bid)]
    and the same for the ask queue. *)
Definition evict_bid (s : Trader) : Trader * list Action :=
  if (4 <=? length (bidq s))%nat then
    match bidq s with
    | bid :: q => (set_bid_side q (bids s) s, [send_cancel_order bid])
    | [] => (s, [])
    end
  else (s, []).

Definition evict_ask (s : Trader) : Trader * list Action :=
  if (4 <=? length (askq s))%nat then
    match askq s with
    | ask :: q => (set_ask_side q (asks s) s, [send_cancel_order ask])
    | [] => (s, [])
    end
  else (s, []).

(** [check_hedge], called at clock reading [now]. *)
Definition check_hedge `{Venue} (now : Q) (s : Trader) : Trader * list Action :=
  match hedge_time s with
  | Some t =>
      if Throttler.Qlt_bool HEDGE_TIME_LIMIT (now - t)%Q
         && ((HEDGE_BOUNDARY <? hedge_balance s)
             || (hedge_balance s <? - HEDGE_BOUNDARY))
      then
        if 0 <? hedge_balance s then
          (set_hedge (position s) HEDGE_BOUNDARY None
             (set_order_ids (order_ids s + 1) s),
           [send_hedge_order (order_ids s) BID MAX_ASK_NEAREST_TICK
              (Z.abs (hedge_balance s) - HEDGE_BOUNDARY);
            call_later 1 cb_check_hedge])
        else
          (set_hedge (position s) (- HEDGE_BOUNDARY) None
             (set_order_ids (order_ids s + 1) s),
           [send_hedge_order (order_ids s) ASK MIN_BID_NEAREST_TICK
              (Z.abs (hedge_balance s) - HEDGE_BOUNDARY);
            call_later 1 cb_check_hedge])
      else (s, [call_later 1 cb_check_hedge])
  | None => (s, [call_later 1 cb_check_hedge])
  end.

(** [on_order_filled_message], called at clock reading [now]. *)
Definition on_order_filled_message (now : Q) (client_order_id price volume : Z)
    (s : Trader) : Trader :=
  let pre := hedge_balance s in
  let '(position', hedge_balance') :=
    if on_bid_side s client_order_id then
      (position s + volume, hedge_balance s - volume)
    else if on_ask_side s client_order_id then
      (position s - volume, hedge_balance s + volume)
    else (position s, hedge_balance s) in
  let hedge_time' :=
    if (- HEDGE_BOUNDARY <=? hedge_balance') && (hedge_balance' <=? HEDGE_BOUNDARY)
    then None
    else if ((0 <? pre) && (hedge_balance' <? 0))
            || ((pre <? 0) && (0 <? hedge_balance'))
    then Some now
    else if ((HEDGE_BOUNDARY <? hedge_balance')
             || (hedge_balance' <? - HEDGE_BOUNDARY))
            && bool_decide (hedge_time s = None)
    then Some now
    else hedge_time s in
  set_hedge position' hedge_balance' hedge_time' s.

(** [on_order_status_message]. *)
Definition on_order_status_message
    (client_order_id fill_volume remaining_volume fees : Z) (s : Trader)
    : Trader :=
  if remaining_volume =? 0 then
    if on_bid_side s client_order_id then
      set_bid_side (deque_remove client_order_id (bidq s))
        (bids s ∖ {[client_order_id]}) s
    else if on_ask_side s client_order_id then
      set_ask_side (deque_remove client_order_id (askq s))
        (asks s ∖ {[client_order_id]}) s
    else s
  else s.

(** [on_error_message]; the log line is left out. *)
Definition on_error_message (client_order_id : Z) (s : Trader) : Trader :=
  if negb (client_order_id =? 0)
     && (bool_decide (client_order_id ∈ bids s)
         || bool_decide (client_order_id ∈ asks s))
  then on_order_status_message client_order_id 0 0 0 s
  else s.

Definition set_call_times (c : list Q) (s : Trader) : Trader :=
  {| order_ids := order_ids s; bids := bids s; asks := asks s;
     position := position s; hedge_balance := hedge_balance s;
     hedge_time := hedge_time s; bidq := bidq s; askq := askq s;
     call_times := c |}.

(** The part of the quoting cycle after the prices are known, the same
    in both classes: exposure, eviction and the two sends.  [send] is the
    class's [send_throttled]; [t_bid] and [t_ask] are what
    [time.monotonic()] returns to the two wrapper calls. *)
Definition quote
    (send : Q -> Z -> Side -> Z -> Z -> Trader -> Trader * list Action)
    (new_bid_price new_ask_price : Z) (t_bid t_ask : Q) (s : Trader)
    : Trader * list Action :=
  let exposure_long := Z.of_nat (length (bidq s)) * LOT_SIZE in
  let exposure_short := Z.of_nat (length (askq s)) * LOT_SIZE in
  let remaining_long := Z.max 0 (POSITION_LIMIT - position s - exposure_long) in
  let remaining_short := Z.max 0 (POSITION_LIMIT + position s - exposure_short) in
  let '(s1, cancels_bid) := evict_bid s in
  let '(s2, cancels_ask) := evict_ask s1 in
  let '(s3, sent_bid) :=
    if negb (new_bid_price =? 0) && (0 <? remaining_long) then
      let bid_volume := Z.min LOT_SIZE remaining_long in
      let bid_id := order_ids s2 in
      send t_bid bid_id BUY new_bid_price bid_volume
        (set_order_ids (bid_id + 1) s2)
    else (s2, []) in
  let '(s4, sent_ask) :=
    if negb (new_ask_price =? 0) && (0 <? remaining_short) then
      let ask_volume := Z.min LOT_SIZE remaining_short in
      let ask_id := order_ids s3 in
      send t_ask ask_id SELL new_ask_price ask_volume
        (set_order_ids (ask_id + 1) s3)
    else (s3, []) in
  (s4, cancels_bid ++ cancels_ask ++ sent_bid ++ sent_ask).

(** *** What the handlers keep true *)

(** The hedge timer runs exactly when the imbalance is outside the
    boundary. *)
Definition timer_matches (s : Trader) : Prop :=
  hedge_time s <> None
  <-> (HEDGE_BOUNDARY < hedge_balance s \/ hedge_balance s < - HEDGE_BOUNDARY).

(** The order books of the tracker, every id below the bound [n]: the
    queues hold at most 4 ids each, in the order the ids were drawn, and
    are contained in their sets, which are disjoint. *)
Definition tracked (n : Z) (s : Trader) : Prop :=
  (length (bidq s) <= 4)%nat /\ (length (askq s) <= 4)%nat
  /\ (forall id, id ∈ bidq s -> id ∈ bids s)
  /\ (forall id, id ∈ askq s -> id ∈ asks s)
  /\ (forall id, id ∈ bids s -> id < n)
  /\ (forall id, id ∈ asks s -> id < n)
  /\ bids s ## asks s
  /\ StronglySorted Z.lt (bidq s) /\ StronglySorted Z.lt (askq s).

Definition consistent (s : Trader) : Prop :=
  timer_matches s /\ tracked (order_ids s) s.

(** A [send_throttled] that is given a fresh id keeps the state
    consistent. *)
Definition sound_send
    (send : Q -> Z -> Side -> Z -> Z -> Trader -> Trader * list Action) : Prop :=
  forall now id side price volume s,
    timer_matches s -> tracked id s -> order_ids s = id + 1 ->
    consistent (fst (send now id side price volume s)).

(** What a [send_throttled] may do to the books: append to the queues,
    add to the sets, and nothing at all on a side whose queue holds 4
    ids. *)
Definition orderly_send
    (send : Q -> Z -> Side -> Z -> Z -> Trader -> Trader * list Action) : Prop :=
  forall now id side price volume s,
    let r := send now id side price volume s in
    (exists tb, bidq (fst r) = bidq s ++ tb)
    /\ (exists ta, askq (fst r) = askq s ++ ta)
    /\ bids s ⊆ bids (fst r) /\ asks s ⊆ asks (fst r)
    /\ (side = BUY -> (4 <= length (bidq s))%nat ->
        bidq (fst r) = bidq s /\ bids (fst r) = bids s /\ snd r = [])
    /\ (side = SELL -> (4 <= length (askq s))%nat ->
        askq (fst r) = askq s /\ asks (fst r) = asks s /\ snd r = []).

(** The price an action passes to the gateway, if it passes one. *)
Definition action_price (a : Action) : option Z :=
  match a with
  | send_insert_order _ _ price _ _ => Some price
  | send_hedge_order _ _ price _ => Some price
  | _ => None
  end.

(** A [send_throttled] passes on no price but the one it is given. *)
Definition priced_send
    (send : Q -> Z -> Side -> Z -> Z -> Trader -> Trader * list Action) : Prop :=
  forall now id side price volume s x p,
    In x (snd (send now id side price volume s)) ->
    action_price x = Some p -> p = price.

(** The client order id an action hands to the gateway, if it places an
    order. *)
Definition order_id (a : Action) : option Z :=
  match a with
  | send_insert_order id _ _ _ _ => Some id
  | send_hedge_order id _ _ _ => Some id
  | _ => None
  end.

(** A [send_throttled] places no order but the one it is asked for, and
    leaves the id counter alone. *)
Definition plain_send
    (send : Q -> Z -> Side -> Z -> Z -> Trader -> Trader * list Action) : Prop :=
  forall now id side price volume s,
    (omap order_id (snd (send now id side price volume s)) = []
     \/ omap order_id (snd (send now id side price volume s)) = [id])
    /\ (forall x, In x (snd (send now id side price volume s)) ->
                  x = send_insert_order id side price volume GOOD_FOR_DAY
                  \/ order_id x = None)
    /\ order_ids (fst (send now id side price volume s)) = order_ids s.

(** The ids [ids], in the order they were used, were drawn from a
    counter that went from [n] to [n']. *)
Definition drawn_from (n : Z) (ids : list Z) (n' : Z) : Prop :=
  StronglySorted Z.lt ids /\ (forall id, In id ids -> n <= id < n') /\ n <= n'.

(** [a] is a [send_insert_order]. *)
Definition is_insert (a : Action) : bool :=
  match a with send_insert_order _ _ _ _ _ => true | _ => false end.

(** The [send_hedge_order] calls among [acts]. *)
Definition hedge_orders (acts : list Action) : list Action :=
  List.filter (fun a => match a with send_hedge_order _ _ _ _ => true
                                | _ => false end) acts.

End Core.

(** ** dynamic_spread.py: the volatility-adaptive trader *)

Module DynamicSpread.

Definition AVG_WINDOW : nat := 50.
Definition ORDER_THRESHOLD : Z := 50.
Definition MAX_POSITION_FACTOR : Q := 2%Q.
Definition SENSITIVITY_FACTOR : Q := (2 # 100)%Q.
Definition REBALANCING_THRESHOLD : Z := 80.

Record State : Type := {
  trader : Core.Trader;
  recent_prices : list Z;
  cancel_call_times : list Q   (* the deque of [cancel_order]'s throttler *)
}.

Definition init : State :=
  {| trader := Core.init; recent_prices := []; cancel_call_times := [] |}.

(** [send_throttled], its wrapper called at clock reading [now]. *)
Definition send_throttled (now : Q) (client_order_id : Z) (side : Side)
    (price volume : Z) (s : Core.Trader) : Core.Trader * list Action :=
  let '(s', r) :=
    Throttler.throttler Core.call_times Core.set_call_times
      (fun s0 =>
         match Core.track_order client_order_id side s0 with
         | None => (s0, [])
         | Some s1 =>
             (s1, [send_insert_order client_order_id side price volume
                     GOOD_FOR_DAY;
                   call_later 10 (cb_cancel_order client_order_id)])
         end)
      now s in
  (s', default [] r).

(** [cancel_order]: the decorated method whose body calls the decorated
    method again.  [clock] lists what [time.monotonic()] returns to the
    successive wrapper calls; the interpreter's stack allows no more nested
    calls than it has readings.  The result is the limiter's deque, the
    gateway calls made, and how the outermost call ended. *)
Fixpoint cancel_order (clock : list Q) (client_order_id : Z)
    (call_times : list Q) : list Q * (list Action * Core.Outcome) :=
  match clock with
  | [] => (call_times, ([], Core.RecursionError))
  | now :: clock' =>
      let '(call_times', r) :=
        Throttler.throttler (fun c => c) (fun c _ => c)
          (fun c => cancel_order clock' client_order_id c)
          now call_times in
      (call_times', default ([], Core.Returned) r)
  end.

(** [calculate_position_factor]. *)
Definition calculate_position_factor `{Numerics} (position : Z) : Q :=
  (1 + (MAX_POSITION_FACTOR - 1)
       * float_pow (inject_Z (Z.abs position) / inject_Z POSITION_LIMIT)
           SENSITIVITY_FACTOR)%Q.

(** The prices of one quoting cycle, from [base_spread_percentage] to
    the rebalancing override. *)
Definition quote_prices `{Numerics} (position mid_price : Z)
    (price_volatility : Q) : Z * Z :=
  let base_spread_percentage := ((1 # 1000) + (TAKER_FEE - MAKER_FEE))%Q in
  let spread_percentage :=
    (base_spread_percentage
     + (1 # 2) * (price_volatility / inject_Z mid_price))%Q in
  let position_factor := calculate_position_factor position in
  let m := inject_Z mid_price in
  let '(new_bid_price, new_ask_price) :=
    if ORDER_THRESHOLD <? position then
      (adjust_price (m * (1 - spread_percentage * position_factor))%Q,
       adjust_price (m * (1 + spread_percentage))%Q)
    else if position <? - ORDER_THRESHOLD then
      (adjust_price (m * (1 - spread_percentage))%Q,
       adjust_price (m * (1 + spread_percentage * position_factor))%Q)
    else
      (adjust_price (m * (1 - spread_percentage))%Q,
       adjust_price (m * (1 + spread_percentage))%Q) in
  if REBALANCING_THRESHOLD <=? position then
    (new_bid_price,
     adjust_price (inject_Z new_ask_price
                   - inject_Z (new_ask_price - new_bid_price) * (1 # 2))%Q)
  else if position <=? - REBALANCING_THRESHOLD then
    (adjust_price (inject_Z new_bid_price
                   + inject_Z (new_ask_price - new_bid_price) * (1 # 2))%Q,
     new_ask_price)
  else (new_bid_price, new_ask_price).

(** [on_order_book_update_message]; [ask_prices[0]] and [bid_prices[0]]
    are read with [nth 0 _ 0], the gateway always filling the lists. *)
Definition on_order_book_update_message `{Numerics} (instrument : Instrument)
    (ask_prices bid_prices : list Z) (t_bid t_ask : Q) (st : State)
    : State * list Action :=
  let bid0 := nth 0 bid_prices 0 in
  let ask0 := nth 0 ask_prices 0 in
  if bool_decide (instrument = FUTURE) && (0 <? bid0) && (0 <? ask0) then
    let mid_price := (bid0 + ask0) / 2 in
    let recent := deque_append AVG_WINDOW (recent_prices st) mid_price in
    let price_volatility := np_std (map inject_Z recent) in
    let '(new_bid_price, new_ask_price) :=
      quote_prices (Core.position (trader st)) mid_price price_volatility in
    let '(s', acts) :=
      Core.quote send_throttled new_bid_price new_ask_price t_bid t_ask
        (trader st) in
    ({| trader := s'; recent_prices := recent;
        cancel_call_times := cancel_call_times st |}, acts)
  else (st, []).

Definition with_trader (s : Core.Trader) (st : State) : State :=
  {| trader := s; recent_prices := recent_prices st;
     cancel_call_times := cancel_call_times st |}.

(** The callbacks the event loop delivers. *)
Inductive Event : Type :=
| OrderBookUpdate (instrument : Instrument) (ask_prices bid_prices : list Z)
    (t_bid t_ask : Q)
| OrderFilled (now : Q) (client_order_id price volume : Z)
| OrderStatus (client_order_id fill_volume remaining_volume fees : Z)
| ErrorMessage (client_order_id : Z)
| HedgeFilled (client_order_id price volume : Z)
| TradeTicks (instrument : Instrument)
| CheckHedge (now : Q)
| CancelTimer (clock : list Q) (client_order_id : Z).

Definition step `{Venue} `{Numerics} (st : State) (e : Event)
    : State * list Action :=
  match e with
  | OrderBookUpdate i a b t_bid t_ask =>
      on_order_book_update_message i a b t_bid t_ask st
  | OrderFilled now id price volume =>
      (with_trader (Core.on_order_filled_message now id price volume
                      (trader st)) st, [])
  | OrderStatus id fill remaining fees =>
      (with_trader (Core.on_order_status_message id fill remaining fees
                      (trader st)) st, [])
  | ErrorMessage id => (with_trader (Core.on_error_message id (trader st)) st, [])
  | HedgeFilled _ _ _ => (st, [])
  | TradeTicks _ => (st, [])
  | CheckHedge now =>
      let '(s', acts) := Core.check_hedge now (trader st) in
      (with_trader s' st, acts)
  | CancelTimer clock id =>
      let '(c', (acts, _)) := cancel_order clock id (cancel_call_times st) in
      ({| trader := trader st; recent_prices := recent_prices st;
          cancel_call_times := c' |}, acts)
  end.

(** The state and the gateway calls after a sequence of callbacks. *)
Fixpoint run `{Venue} `{Numerics} (st : State) (es : list Event)
    : State * list Action :=
  match es with
  | [] => (st, [])
  | e :: es' =>
      let '(st1, acts1) := step st e in
      let '(st2, acts2) := run st1 es' in
      (st2, acts1 ++ acts2)
  end.

Definition reachable `{Venue} `{Numerics} (st : State) : Prop :=
  exists es, fst (run init es) = st.

End DynamicSpread.

(** ** rolling_regression.py: the hedge-ratio trader *)

Module RollingRegression.

Definition AVG_WINDOW : nat := 10.
Definition HEDGE_RATIO_LOOKBACK : nat := 10.
Definition CONSERVATIVE_SPREAD : Q := (2 # 1000)%Q.
Definition NORMAL_SPREAD : Q := (1 # 1000)%Q.

Record State : Type := {
  trader : Core.Trader;
  etf_prices : list Z;
  fut_prices : list Z
}.

Definition init : State :=
  {| trader := Core.init; etf_prices := []; fut_prices := [] |}.

(** [send_throttled], its wrapper called at clock reading [now]. *)
Definition send_throttled (now : Q) (client_order_id : Z) (side : Side)
    (price volume : Z) (s : Core.Trader) : Core.Trader * list Action :=
  let '(s', r) :=
    Throttler.throttler Core.call_times Core.set_call_times
      (fun s0 =>
         match Core.track_order client_order_id side s0 with
         | None => (s0, [])
         | Some s1 =>
             (s1, [send_insert_order client_order_id side price volume
                     GOOD_FOR_DAY])
         end)
      now s in
  (s', default [] r).

(** [calculate_hedge_ratio]: [np.polyfit(etf, fut, deg=1)[0]]. *)
Definition calculate_hedge_ratio `{Numerics} (etf fut : list Z) : option Q :=
  if (length etf <? HEDGE_RATIO_LOOKBACK)%nat
     || (length fut <? HEDGE_RATIO_LOOKBACK)%nat
  then None
  else Some (np_polyfit_slope (map inject_Z etf) (map inject_Z fut)).

(** [np.array(self.etf_prices) - hedge_ratio * np.array(self.fut_prices)],
    on the two windows of equal length the caller has. *)
Definition spread_series (hedge_ratio : Q) (etf fut : list Z) : list Q :=
  map (fun '(e, f) => (inject_Z e - hedge_ratio * inject_Z f)%Q)
    (combine etf fut).

(** [len(spread) > 0 and spread[-1] > np.mean(spread) + np.std(spread)]. *)
Definition above_band `{Numerics} (spread : list Q) : bool :=
  (0 <? length spread)%nat
  && Throttler.Qlt_bool (np_mean spread + np_std spread)%Q (List.last spread 0%Q).

(** [len(spread) > 0 and spread[-1] < np.mean(spread) - np.std(spread)]. *)
Definition below_band `{Numerics} (spread : list Q) : bool :=
  (0 <? length spread)%nat
  && Throttler.Qlt_bool (List.last spread 0%Q) (np_mean spread - np_std spread)%Q.

(** The prices of one quoting cycle, both passes of [adjust_price]. *)
Definition quote_prices `{Numerics} (mid_price : Z) (spread : list Q) : Z * Z :=
  let m := inject_Z mid_price in
  let '(new_bid_price, new_ask_price) :=
    if above_band spread then
      (adjust_price (m * (1 - NORMAL_SPREAD))%Q,
       adjust_price (m * (1 + CONSERVATIVE_SPREAD))%Q)
    else if below_band spread then
      (adjust_price (m * (1 - CONSERVATIVE_SPREAD))%Q,
       adjust_price (m * (1 + NORMAL_SPREAD))%Q)
    else
      (adjust_price (m * (1 - NORMAL_SPREAD))%Q,
       adjust_price (m * (1 + NORMAL_SPREAD))%Q) in
  (adjust_price (inject_Z new_bid_price), adjust_price (inject_Z new_ask_price)).

(** [on_order_book_update_message]; [ask_prices[0]] and [bid_prices[0]]
    are read with [nth 0 _ 0], the gateway always filling the lists. *)
Definition on_order_book_update_message `{Numerics} (instrument : Instrument)
    (ask_prices bid_prices : list Z) (t_bid t_ask : Q) (st : State)
    : State * list Action :=
  let bid0 := nth 0 bid_prices 0 in
  let ask0 := nth 0 ask_prices 0 in
  if (bid0 <=? 0) && (ask0 <=? 0) then (st, [])
  else
    let etf :=
      match instrument with
      | ETF => deque_append AVG_WINDOW (etf_prices st) ((bid0 + ask0) / 2)
      | FUTURE => etf_prices st
      end in
    let fut :=
      match instrument with
      | ETF => fut_prices st
      | FUTURE => deque_append AVG_WINDOW (fut_prices st) ((bid0 + ask0) / 2)
      end in
    let st1 := {| trader := trader st; etf_prices := etf; fut_prices := fut |} in
    match instrument, calculate_hedge_ratio etf fut with
    | FUTURE, Some hedge_ratio =>
        if (0 <? length etf)%nat && (0 <? length fut)%nat then
          let mid_price := (bid0 + ask0) / 2 in
          let spread := spread_series hedge_ratio etf fut in
          let '(new_bid_price, new_ask_price) := quote_prices mid_price spread in
          let '(s', acts) :=
            Core.quote send_throttled new_bid_price new_ask_price t_bid t_ask
              (trader st) in
          ({| trader := s'; etf_prices := etf; fut_prices := fut |}, acts)
        else (st1, [])
    | _, _ => (st1, [])
    end.

Definition with_trader (s : Core.Trader) (st : State) : State :=
  {| trader := s; etf_prices := etf_prices st; fut_prices := fut_prices st |}.

(** The callbacks the event loop delivers. *)
Inductive Event : Type :=
| OrderBookUpdate (instrument : Instrument) (ask_prices bid_prices : list Z)
    (t_bid t_ask : Q)
| OrderFilled (now : Q) (client_order_id price volume : Z)
| OrderStatus (client_order_id fill_volume remaining_volume fees : Z)
| ErrorMessage (client_order_id : Z)
| HedgeFilled (client_order_id price volume : Z)
| TradeTicks (instrument : Instrument)
| CheckHedge (now : Q).

Definition step `{Venue} `{Numerics} (st : State) (e : Event)
    : State * list Action :=
  match e with
  | OrderBookUpdate i a b t_bid t_ask =>
      on_order_book_update_message i a b t_bid t_ask st
  | OrderFilled now id price volume =>
      (with_trader (Core.on_order_filled_message now id price volume
                      (trader st)) st, [])
  | OrderStatus id fill remaining fees =>
      (with_trader (Core.on_order_status_message id fill remaining fees
                      (trader st)) st, [])
  | ErrorMessage id => (with_trader (Core.on_error_message id (trader st)) st, [])
  | HedgeFilled _ _ _ => (st, [])
  | TradeTicks _ => (st, [])
  | CheckHedge now =>
      let '(s', acts) := Core.check_hedge now (trader st) in
      (with_trader s' st, acts)
  end.

(** The state and the gateway calls after a sequence of callbacks. *)
Fixpoint run `{Venue} `{Numerics} (st : State) (es : list Event)
    : State * list Action :=
  match es with
  | [] => (st, [])
  | e :: es' =>
      let '(st1, acts1) := step st e in
      let '(st2, acts2) := run st1 es' in
      (st2, acts1 ++ acts2)
  end.

Definition reachable `{Venue} `{Numerics} (st : State) : Prop :=
  exists es, fst (run init es) = st.

End RollingRegression.

(** The shared fields of a state that one of the two traders can reach. *)
Definition reachable_trader `{Venue} `{Numerics} (s : Core.Trader) : Prop :=
  (exists st, DynamicSpread.reachable st /\ DynamicSpread.trader st = s)
  \/ (exists st, RollingRegression.reachable st
                /\ RollingRegression.trader st = s).

(** ** Reference values for the parameters *)

Module Reference.

(** The limits the gateway library declares: [MINIMUM_BID = 1] and
    [MAXIMUM_ASK = 2 ** 31 - 1]. *)
Definition venue : Venue :=
  {| MINIMUM_BID := 1; MAXIMUM_ASK := 2147483647 |}.

Definition Qsum (a : list Q) : Q := fold_right Qplus 0%Q a.

(** Population variance, as [np.std] squares it, in lowest terms. *)
Definition variance (a : list Q) : Q :=
  let m := Qred (np_mean a) in
  Qred (np_mean (map (fun x => Qred ((x - m) * (x - m))%Q) a)).

(** Square root rounded down to six decimals; exact on a square of an
    integer. *)
Definition sqrt_down (q : Q) : Q :=
  (inject_Z (Z.sqrt (Qfloor (q * inject_Z (10 ^ 12)))) / inject_Z (10 ^ 6))%Q.

Definition std (a : list Q) : Q := sqrt_down (variance a).

(** Slope of the least-squares line of [y] on [x]: the closed form
    [(n Σxy - Σx Σy) / (n Σxx - Σx Σx)], in lowest terms. *)
Definition least_squares_slope (x y : list Q) : Q :=
  let n := inject_Z (Z.of_nat (length x)) in
  let sxy := Qsum (map (fun '(a, b) => (a * b)%Q) (combine x y)) in
  let sxx := Qsum (map (fun a => (a * a)%Q) x) in
  Qred ((n * sxy - Qsum x * Qsum y) / (n * sxx - Qsum x * Qsum x))%Q.

(** Sum of the squared residuals of the line [slope * x + intercept]. *)
Definition residual (slope intercept : Q) (x y : list Q) : Q :=
  Qsum (map (fun '(a, b) =>
               ((b - (slope * a + intercept)) * (b - (slope * a + intercept)))%Q)
          (combine x y)).

(** [x ** y] at the two bases where it is rational for every positive
    exponent: [0 ** y = 0] and [1 ** y = 1]. *)
Definition pow_endpoints (x y : Q) : Q := x.

Definition numerics : Numerics :=
  {| np_std := std; np_polyfit_slope := least_squares_slope;
     float_pow := pow_endpoints |}.

(** Five book updates of the future at a steady price: five quoting
    cycles of the volatility trader. *)
Definition dynamic_five_cycles : list DynamicSpread.Event :=
  repeat (DynamicSpread.OrderBookUpdate FUTURE [10000] [10000] 0%Q 0%Q) 5.

(** Ten book updates of the ETF at rising prices, then fourteen of the
    future at twice those prices: the regression trader quotes from the
    tenth future update on, five cycles in all. *)
Definition regression_five_cycles : list RollingRegression.Event :=
  map (fun p => RollingRegression.OrderBookUpdate ETF [p] [p] 0%Q 0%Q)
    (map (fun i => 10000 + 100 * i) (seqZ 0 10))
  ++ map (fun p => RollingRegression.OrderBookUpdate FUTURE [p] [p] 0%Q 0%Q)
       (map (fun i => 20000 + 200 * i) (seqZ 0 14)).

End Reference.

(** * Properties *)

(** ** The rate limiter *)

Section ThrottlerFacts.

Import Throttler.

Lemma Qlt_bool_true (x y : Q) : Qlt_bool x y = true <-> (x < y)%Q.
Proof.
  unfold Qlt_bool. rewrite negb_true_iff, <- not_true_iff_false, Qle_bool_iff.
  split; [apply Qnot_le_lt | apply Qlt_not_le].
Qed.

Lemma Qlt_bool_false (x y : Q) : Qlt_bool x y = false <-> (y <= x)%Q.
Proof.
  unfold Qlt_bool. rewrite negb_false_iff. apply Qle_bool_iff.
Qed.

Lemma monotonic_app (acc : list Q) (now : Q) :
  monotonic acc -> (forall a, In a acc -> (a <= now)%Q) ->
  monotonic (acc ++ [now]).
Proof.
  induction acc as [|a acc IH]; simpl; intros Hm Hle.
  - split; [intros u []|exact I].
  - destruct Hm as [Ha Hm]. split.
    + intros u Hu. apply in_app_or in Hu as [Hu|[<-|[]]]; auto.
    + apply IH; auto.
Qed.

Lemma monotonic_lookup (acc : list Q) (i j : nat) (a b : Q) :
  monotonic acc -> (i <= j)%nat -> acc !! i = Some a -> acc !! j = Some b ->
  (a <= b)%Q.
Proof.
  revert i j. induction acc as [|x acc IH]; intros i j Hm Hij Hi Hj.
  - discriminate.
  - destruct Hm as [Hx Hm]. destruct i as [|i], j as [|j]; simpl in *.
    + injection Hi as <-. injection Hj as <-. apply Qle_refl.
    + injection Hi as <-. apply Hx.
      apply list_elem_of_In, list_elem_of_lookup. eauto.
    + lia.
    + eapply (IH i j); eauto. lia.
Qed.

Lemma spaced_tail (a : Q) (acc : list Q) : spaced (a :: acc) -> spaced acc.
Proof. intros H i x y Hx Hy. apply (H (S i) x y); assumption. Qed.

Lemma filter_none {A : Type} (f : A -> bool) (l : list A) :
  (forall x, In x l -> f x = false) -> List.filter f l = [].
Proof.
  induction l as [|x l IH]; simpl; intros H; [reflexivity|].
  rewrite (H x) by auto. apply IH. auto.
Qed.

Lemma filter_length_bound {A : Type} (f : A -> bool) (l : list A) :
  (length (List.filter f l) <= length l)%nat.
Proof.
  induction l as [|x l IH]; simpl; [lia|]. destruct (f x); simpl; lia.
Qed.

(** In a monotonic, spaced list no window holds more than [max_calls]
    entries. *)
Lemma window_bound (t : Q) (acc : list Q) :
  monotonic acc -> spaced acc ->
  (accepted_in_window t acc <= max_calls)%nat.
Proof.
  unfold accepted_in_window.
  induction acc as [|a acc IH]; intros Hm Hs; [simpl; lia|].
  destruct (in_window t a) eqn:Hw.
  - rewrite <- (take_drop max_calls (a :: acc)), List.filter_app, length_app.
    rewrite (filter_none _ (drop max_calls (a :: acc))).
    + pose proof (filter_length_bound (in_window t) (take max_calls (a :: acc))).
      rewrite length_take in H. change (length (@nil Q)) with 0%nat. lia.
    + intros b Hb. apply list_elem_of_In, list_elem_of_lookup in Hb as [j Hj].
      rewrite lookup_drop in Hj.
      assert (exists c, (a :: acc) !! j = Some c) as [c Hc].
      { apply lookup_lt_is_Some. apply lookup_lt_Some in Hj. lia. }
      assert (a <= c)%Q as Hac.
      { eapply (monotonic_lookup (a :: acc) 0 j); eauto. lia. }
      assert (c + interval <= b)%Q as Hcb.
      { apply (Hs j c b Hc). rewrite Nat.add_comm. exact Hj. }
      unfold in_window in *. apply andb_true_iff in Hw as [Hw _].
      apply Qlt_bool_true in Hw.
      apply andb_false_iff. right. apply not_true_iff_false.
      rewrite Qle_bool_iff. unfold interval in *. intros Hbt. lra.
  - simpl. rewrite Hw. apply IH; [apply Hm|eapply spaced_tail; eauto].
Qed.

Lemma record_call_inv (call_times acc call_times' : list Q) (now : Q) :
  limiter_inv call_times acc ->
  (forall a, In a acc -> (a <= now)%Q) ->
  record_call call_times now = Some call_times' ->
  limiter_inv call_times' (acc ++ [now]).
Proof.
  intros (Hct & Hm & Hs) Hle Hrec. unfold record_call in Hrec.
  destruct (saturated call_times now) eqn:Hsat; [discriminate|].
  injection Hrec as <-.
  assert (length call_times = Nat.min (length acc) max_calls) as Hlen.
  { rewrite Hct, length_drop. lia. }
  assert (0 < max_calls)%nat as Hpos by (unfold max_calls; lia).
  split; [|split].
  - unfold deque_append. rewrite length_app. simpl length.
    destruct (length call_times <? max_calls)%nat eqn:Hlt.
    + apply Nat.ltb_lt in Hlt.
      replace (length acc + 1 - max_calls)%nat with 0%nat by lia.
      rewrite Hct. replace (length acc - max_calls)%nat with 0%nat by lia.
      reflexivity.
    + apply Nat.ltb_ge in Hlt.
      rewrite drop_app_le by lia. f_equal.
      rewrite Hct.
      replace (length acc + 1 - max_calls)%nat
        with (length acc - max_calls + 1)%nat by lia.
      rewrite <- drop_drop. generalize (drop (length acc - max_calls) acc).
      intros [|x l]; reflexivity.
  - apply monotonic_app; assumption.
  - intros i a b Ha Hb.
    destruct (decide (i + max_calls < length acc)%nat) as [Hi|Hi].
    + rewrite lookup_app_l in Ha by lia. rewrite lookup_app_l in Hb by lia.
      eapply Hs; eauto.
    + assert (i + max_calls = length acc)%nat as Hi'.
      { apply lookup_lt_Some in Hb. rewrite length_app in Hb. simpl in Hb. lia. }
      rewrite Hi' in Hb. rewrite lookup_app_r in Hb by lia.
      rewrite Nat.sub_diag in Hb. injection Hb as <-.
      rewrite lookup_app_l in Ha by lia.
      assert (call_times !! 0%nat = Some a) as H0.
      { rewrite Hct, lookup_drop. rewrite <- Ha. f_equal. lia. }
      unfold saturated in Hsat. apply andb_false_iff in Hsat as [Hsat|Hsat].
      * apply Nat.eqb_neq in Hsat. lia.
      * apply Qlt_bool_false in Hsat.
        destruct call_times as [|c ct]; [discriminate|].
        injection H0 as ->. simpl in Hsat. unfold interval in *. lra.
Qed.

Lemma calls_inv (nows call_times acc : list Q) :
  limiter_inv call_times acc ->
  monotonic nows ->
  (forall a u, In a acc -> In u nows -> (a <= u)%Q) ->
  limiter_inv (fst (calls call_times acc nows)) (snd (calls call_times acc nows)).
Proof.
  revert call_times acc.
  induction nows as [|now rest IH]; intros call_times acc Hinv Hm Hle;
    [exact Hinv|].
  simpl. destruct Hm as [Hnow Hm].
  destruct (record_call call_times now) as [call_times'|] eqn:Hrec.
  - apply IH; [|assumption|].
    + eapply record_call_inv; eauto. intros a Ha. apply Hle; simpl; auto.
    + intros a u Ha Hu. apply in_app_or in Ha as [Ha|[<-|[]]].
      * apply Hle; simpl; auto.
      * apply Hnow, Hu.
  - apply IH; [assumption|assumption|].
    intros a u Ha Hu. apply Hle; simpl; auto.
Qed.

End ThrottlerFacts.

Lemma monotonic_repeat (x : Q) (n : nat) : Throttler.monotonic (repeat x n).
Proof.
  induction n as [|n IH]; simpl; [exact I|]. split; [|exact IH].
  intros u Hu. apply repeat_spec in Hu as ->. apply Qle_refl.
Qed.

(** C2. Of any sequence of calls made through one limiter at
    non-decreasing clock readings, at most 47 accepted calls fall in the
    trailing window [(t - 1, t]] of any instant [t].  A rejected call
    (the deque holds 47 readings and the oldest is less than one second
    old) leaves the deque as it was and does not run the wrapped function:
    the wrapper returns the world unchanged, [send_throttled] of either
    trader returns its state unchanged with no gateway call, and so does
    [cancel_order]. *)
Theorem throttler_rate_limit :
  (forall (nows : list Q) (t : Q),
      Throttler.monotonic nows ->
      (Throttler.accepted_in_window t (Throttler.accepted_calls nows) <= 47)%nat)
  /\ (forall (call_times accepted rest : list Q) (now : Q),
         Throttler.record_call call_times now = None ->
         Throttler.calls call_times accepted (now :: rest)
         = Throttler.calls call_times accepted rest)
  /\ (forall (W R : Type) (get : W -> list Q) (set : list Q -> W -> W)
             (func : W -> W * R) (now : Q) (w : W),
         Throttler.record_call (get w) now = None ->
         Throttler.throttler get set func now w = (w, None))
  /\ (forall (now : Q) (id : Z) (side : Side) (price volume : Z)
             (s : Core.Trader),
         Throttler.record_call (Core.call_times s) now = None ->
         DynamicSpread.send_throttled now id side price volume s = (s, [])
         /\ RollingRegression.send_throttled now id side price volume s = (s, []))
  /\ (forall (now : Q) (clock : list Q) (id : Z) (call_times : list Q),
         Throttler.record_call call_times now = None ->
         DynamicSpread.cancel_order (now :: clock) id call_times
         = (call_times, ([], Core.Returned))).
Proof.
  split; [|split; [|split; [|split]]].
  - intros nows t Hm. unfold Throttler.accepted_calls.
    assert (Throttler.limiter_inv [] []) as H0.
    { split; [reflexivity|split; [exact I|]]. intros i a b Ha. discriminate. }
    destruct (calls_inv nows [] [] H0 Hm) as (_ & Hmono & Hsp).
    { intros a u []. }
    apply window_bound; assumption.
  - intros call_times accepted rest now H. simpl. rewrite H. reflexivity.
  - intros W R get set func now w H. unfold Throttler.throttler.
    rewrite H. reflexivity.
  - intros now id side price volume s H.
    unfold DynamicSpread.send_throttled, RollingRegression.send_throttled,
      Throttler.throttler.
    rewrite H. split; reflexivity.
  - intros now clock id call_times H. simpl. unfold Throttler.throttler.
    rewrite H. reflexivity.
Qed.

(** Forty-eight calls at one instant: the bound is met, and reached. *)
Lemma throttler_rate_limit_witness :
  Throttler.monotonic (repeat 0%Q 48)
  /\ (Throttler.accepted_in_window 0 (Throttler.accepted_calls (repeat 0%Q 48))
      <= 47)%nat
  /\ Throttler.accepted_in_window 0 (Throttler.accepted_calls (repeat 0%Q 48))
     = 47%nat.
Proof.
  split; [apply monotonic_repeat|split].
  - apply (proj1 throttler_rate_limit (repeat 0%Q 48) 0%Q).
    apply monotonic_repeat.
  - vm_compute. reflexivity.
Defined.

(** ** The shared handlers keep the state consistent *)

Ltac zbool :=
  repeat match goal with
  | |- context [Z.ltb ?a ?b] => destruct (Z.ltb_spec a b)
  | |- context [Z.leb ?a ?b] => destruct (Z.leb_spec a b)
  | |- context [Z.eqb ?a ?b] => destruct (Z.eqb_spec a b)
  | H : context [Z.ltb ?a ?b] |- _ => destruct (Z.ltb_spec a b)
  | H : context [Z.leb ?a ?b] |- _ => destruct (Z.leb_spec a b)
  | H : context [Z.eqb ?a ?b] |- _ => destruct (Z.eqb_spec a b)
  end.

Section CoreFacts.

Import Core.

Lemma tracked_fields (n : Z) (s s' : Trader) :
  bids s' = bids s -> asks s' = asks s -> bidq s' = bidq s ->
  askq s' = askq s -> tracked n s -> tracked n s'.
Proof. unfold tracked. intros -> -> -> ->. exact id. Qed.

Lemma tracked_bound (n m : Z) (s : Trader) :
  n <= m -> tracked n s -> tracked m s.
Proof.
  unfold tracked. intros Hnm (Hb & Ha & Hqb & Hqa & Hlb & Hla & Hd & Hsb & Hsa).
  repeat split; try assumption.
  - intros id Hid. specialize (Hlb id Hid). lia.
  - intros id Hid. specialize (Hla id Hid). lia.
Qed.

(** *** Fills *)

Lemma filled_timer_matches (now : Q) (id price volume : Z) (s : Trader) :
  timer_matches (on_order_filled_message now id price volume s).
Proof.
  unfold timer_matches, on_order_filled_message, HEDGE_BOUNDARY.
  destruct (on_bid_side s id); [|destruct (on_ask_side s id)]; simpl;
    destruct (hedge_time s) as [t|] eqn:Ht; simpl; zbool; simpl;
    split; intros; try congruence; try lia; try (right; lia); try (left; lia).
Qed.

Lemma filled_consistent (now : Q) (id price volume : Z) (s : Trader) :
  consistent s -> consistent (on_order_filled_message now id price volume s).
Proof.
  intros [_ Ht]. split; [apply filled_timer_matches|].
  revert Ht. unfold on_order_filled_message.
  destruct (on_bid_side s id); [|destruct (on_ask_side s id)];
    apply tracked_fields; reflexivity.
Qed.

(** *** The hedge check *)

Lemma check_hedge_consistent `{Venue} (now : Q) (s : Trader) :
  consistent s -> consistent (fst (check_hedge now s)).
Proof.
  intros [Hm Ht]. unfold check_hedge.
  destruct (hedge_time s) as [t|] eqn:Htime; [|split; assumption].
  destruct (Throttler.Qlt_bool HEDGE_TIME_LIMIT (now - t)
            && ((HEDGE_BOUNDARY <? hedge_balance s)
                || (hedge_balance s <? - HEDGE_BOUNDARY))) eqn:Hfire;
    [|split; assumption].
  destruct (0 <? hedge_balance s); simpl; split.
  - unfold timer_matches, HEDGE_BOUNDARY. simpl. split; [congruence|lia].
  - eapply tracked_bound; [|eapply tracked_fields; [..|exact Ht]; reflexivity].
    simpl. lia.
  - unfold timer_matches, HEDGE_BOUNDARY. simpl. split; [congruence|lia].
  - eapply tracked_bound; [|eapply tracked_fields; [..|exact Ht]; reflexivity].
    simpl. lia.
Qed.

(** *** Removal from a queue *)

Lemma deque_remove_elem (x id : Z) (q : list Z) :
  x ∈ deque_remove id q -> x ∈ q.
Proof.
  induction q as [|y q IH]; simpl; [trivial|].
  destruct (Z.eqb_spec y id); intros Hx.
  - by right.
  - apply elem_of_cons in Hx as [->|Hx]; [by left|right; auto].
Qed.

Lemma deque_remove_length (id : Z) (q : list Z) :
  (length (deque_remove id q) <= length q)%nat.
Proof.
  induction q as [|y q IH]; simpl; [lia|].
  destruct (Z.eqb y id); simpl; lia.
Qed.

Lemma deque_remove_sorted (id : Z) (q : list Z) :
  StronglySorted Z.lt q -> StronglySorted Z.lt (deque_remove id q).
Proof.
  induction q as [|y q IH]; simpl; intros Hs; [constructor|].
  apply StronglySorted_inv in Hs as [Hs Hy].
  destruct (Z.eqb y id); [assumption|].
  constructor; [auto|].
  rewrite Forall_forall in *. intros x Hx.
  apply Hy. eapply deque_remove_elem. exact Hx.
Qed.

Lemma deque_remove_gone (id : Z) (q : list Z) :
  StronglySorted Z.lt q -> id ∉ deque_remove id q.
Proof.
  induction q as [|y q IH]; simpl; intros Hs; [apply not_elem_of_nil|].
  apply StronglySorted_inv in Hs as [Hs Hy].
  destruct (Z.eqb_spec y id) as [->|Hne].
  - intros Hin. rewrite Forall_forall in Hy.
    apply Hy in Hin. lia.
  - intros Hin. apply elem_of_cons in Hin as [Heq|Hin]; [congruence|].
    by apply IH.
Qed.

(** *** Status and error callbacks *)

Lemma status_consistent (id fill remaining fees : Z) (s : Trader) :
  consistent s -> consistent (on_order_status_message id fill remaining fees s).
Proof.
  intros [Hm Ht]. unfold on_order_status_message.
  destruct (remaining =? 0); [|split; assumption].
  destruct Ht as (Hb & Ha & Hqb & Hqa & Hlb & Hla & Hd & Hsb & Hsa).
  destruct (on_bid_side s id); [|destruct (on_ask_side s id)];
    [| |split; [exact Hm|repeat split; assumption]]; (split; [exact Hm|]);
    unfold tracked; simpl; repeat split; try assumption.
  - pose proof (deque_remove_length id (bidq s)). lia.
  - intros x Hx. apply elem_of_difference. split.
    + apply Hqb. eapply deque_remove_elem; eauto.
    + intros Hx'. apply elem_of_singleton in Hx' as ->.
      by apply (deque_remove_gone id (bidq s)).
  - intros x Hx. apply elem_of_difference in Hx as [Hx _]. by apply Hlb.
  - apply elem_of_disjoint. intros x Hx Hx'.
    apply elem_of_difference in Hx as [Hx _].
    exact (proj1 (elem_of_disjoint _ _) Hd x Hx Hx').
  - by apply deque_remove_sorted.
  - pose proof (deque_remove_length id (askq s)). lia.
  - intros x Hx. apply elem_of_difference. split.
    + apply Hqa. eapply deque_remove_elem; eauto.
    + intros Hx'. apply elem_of_singleton in Hx' as ->.
      by apply (deque_remove_gone id (askq s)).
  - intros x Hx. apply elem_of_difference in Hx as [Hx _]. by apply Hla.
  - apply elem_of_disjoint. intros x Hx Hx'.
    apply elem_of_difference in Hx' as [Hx' _].
    exact (proj1 (elem_of_disjoint _ _) Hd x Hx Hx').
  - by apply deque_remove_sorted.
Qed.

Lemma error_consistent (id : Z) (s : Trader) :
  consistent s -> consistent (on_error_message id s).
Proof.
  intros Hc. unfold on_error_message.
  destruct (negb (id =? 0)
            && (bool_decide (id ∈ bids s) || bool_decide (id ∈ asks s)));
    [by apply status_consistent|assumption].
Qed.


(** *** Eviction and submission *)

Lemma evict_bid_consistent (s : Trader) :
  consistent s -> consistent (fst (evict_bid s)).
Proof.
  intros [Hm Ht]. unfold evict_bid.
  destruct (4 <=? length (bidq s))%nat; [|split; assumption].
  destruct (bidq s) as [|b q] eqn:Hq; [split; assumption|].
  split; [exact Hm|].
  destruct Ht as (Hb & Ha & Hqb & Hqa & Hlb & Hla & Hd & Hsb & Hsa).
  rewrite Hq in *. unfold tracked; simpl. repeat split; try assumption.
  - simpl in Hb. lia.
  - intros x Hx. apply Hqb. by right.
  - by apply StronglySorted_inv in Hsb as [? _].
Qed.

Lemma evict_ask_consistent (s : Trader) :
  consistent s -> consistent (fst (evict_ask s)).
Proof.
  intros [Hm Ht]. unfold evict_ask.
  destruct (4 <=? length (askq s))%nat; [|split; assumption].
  destruct (askq s) as [|a q] eqn:Hq; [split; assumption|].
  split; [exact Hm|].
  destruct Ht as (Hb & Ha & Hqb & Hqa & Hlb & Hla & Hd & Hsb & Hsa).
  rewrite Hq in *. unfold tracked; simpl. repeat split; try assumption.
  - simpl in Ha. lia.
  - intros x Hx. apply Hqa. by right.
  - by apply StronglySorted_inv in Hsa as [? _].
Qed.

Lemma sorted_snoc (q : list Z) (id : Z) :
  StronglySorted Z.lt q -> (forall x, x ∈ q -> x < id) ->
  StronglySorted Z.lt (q ++ [id]).
Proof.
  induction q as [|y q IH]; simpl; intros Hs Hlt.
  - repeat constructor.
  - apply StronglySorted_inv in Hs as [Hs Hy]. constructor.
    + apply IH; [assumption|]. intros x Hx. apply Hlt. by right.
    + apply Forall_app. split; [assumption|].
      constructor; [|constructor]. apply Hlt. by left.
Qed.

Lemma track_order_tracked (id : Z) (side : Side) (s s' : Trader) :
  tracked id s -> track_order id side s = Some s' ->
  tracked (id + 1) s'
  /\ order_ids s' = order_ids s /\ hedge_balance s' = hedge_balance s
  /\ hedge_time s' = hedge_time s.
Proof.
  intros (Hb & Ha & Hqb & Hqa & Hlb & Hla & Hd & Hsb & Hsa).
  unfold track_order. destruct side.
  - destruct (Nat.leb_spec 4 (length (askq s))); [discriminate|].
    intros [= <-]. split; [|auto]. unfold tracked; simpl.
    repeat split; try assumption.
    + rewrite length_app. simpl. lia.
    + intros x Hx. apply elem_of_app in Hx as [Hx|Hx].
      * apply elem_of_union_r. by apply Hqa.
      * apply elem_of_union_l. apply list_elem_of_singleton in Hx as ->.
        by apply elem_of_singleton.
    + intros x Hx. specialize (Hlb x Hx). lia.
    + intros x Hx. apply elem_of_union in Hx as [Hx|Hx].
      * apply elem_of_singleton in Hx as ->. lia.
      * specialize (Hla x Hx). lia.
    + apply elem_of_disjoint. intros x Hx Hx'.
      apply elem_of_union in Hx' as [Hx'|Hx'].
      * apply elem_of_singleton in Hx' as ->. specialize (Hlb id Hx). lia.
      * exact (proj1 (elem_of_disjoint _ _) Hd x Hx Hx').
    + apply sorted_snoc; [assumption|]. intros x Hx. apply Hla. by apply Hqa.
  - destruct (Nat.leb_spec 4 (length (bidq s))); [discriminate|].
    intros [= <-]. split; [|auto]. unfold tracked; simpl.
    repeat split; try assumption.
    + rewrite length_app. simpl. lia.
    + intros x Hx. apply elem_of_app in Hx as [Hx|Hx].
      * apply elem_of_union_r. by apply Hqb.
      * apply elem_of_union_l. apply list_elem_of_singleton in Hx as ->.
        by apply elem_of_singleton.
    + intros x Hx. apply elem_of_union in Hx as [Hx|Hx].
      * apply elem_of_singleton in Hx as ->. lia.
      * specialize (Hlb x Hx). lia.
    + intros x Hx. specialize (Hla x Hx). lia.
    + apply elem_of_disjoint. intros x Hx Hx'.
      apply elem_of_union in Hx as [Hx|Hx].
      * apply elem_of_singleton in Hx as ->. specialize (Hla id Hx'). lia.
      * exact (proj1 (elem_of_disjoint _ _) Hd x Hx Hx').
    + apply sorted_snoc; [assumption|]. intros x Hx. apply Hlb. by apply Hqb.
Qed.

Lemma quote_consistent send (new_bid_price new_ask_price : Z) (t_bid t_ask : Q)
    (s : Trader) :
  sound_send send -> consistent s ->
  consistent (fst (quote send new_bid_price new_ask_price t_bid t_ask s)).
Proof.
  intros Hsend Hs. unfold quote.
  pose proof (evict_bid_consistent s Hs) as H1.
  destruct (evict_bid s) as [s1 c1]. simpl in H1.
  pose proof (evict_ask_consistent s1 H1) as H2.
  destruct (evict_ask s1) as [s2 c2]. simpl in H2.
  match goal with
  | |- context [if ?c then send ?t ?i ?sd ?p ?v ?s0 else _] =>
      assert (consistent (fst (if c then send t i sd p v s0 else (s2, []))))
        as H3;
      [destruct c; [|exact H2]|
       destruct (if c then send t i sd p v s0 else (s2, [])) as [s3 c3]]
  end.
  { destruct H2 as [Hm Ht]. apply Hsend; [exact Hm| |reflexivity].
    revert Ht. apply tracked_fields; reflexivity. }
  simpl in H3.
  match goal with
  | |- context [if ?c then send ?t ?i ?sd ?p ?v ?s0 else _] =>
      assert (consistent (fst (if c then send t i sd p v s0 else (s3, []))))
        as H4;
      [destruct c; [|exact H3]|
       destruct (if c then send t i sd p v s0 else (s3, [])) as [s4 c4]]
  end.
  { destruct H3 as [Hm Ht]. apply Hsend; [exact Hm| |reflexivity].
    revert Ht. apply tracked_fields; reflexivity. }
  exact H4.
Qed.

Lemma throttled_send_sound
    (body : Z -> Side -> Z -> Z -> Trader -> list Action) :
  sound_send (fun now id side price volume s =>
    let '(s', r) :=
      Throttler.throttler call_times set_call_times
        (fun s0 => match track_order id side s0 with
                   | None => (s0, [])
                   | Some s1 => (s1, body id side price volume s1)
                   end) now s in
    (s', default [] r)).
Proof.
  intros now id side price volume s Hm Ht Hid.
  unfold Throttler.throttler.
  destruct (Throttler.record_call (call_times s) now) as [c|].
  - destruct (track_order id side (set_call_times c s)) as [s1|] eqn:Htrack;
      simpl.
    + apply track_order_tracked in Htrack as (Ht1 & Hi1 & Hb1 & Htm1).
      * split.
        -- unfold timer_matches in *. rewrite Hb1, Htm1. exact Hm.
        -- rewrite Hi1. simpl. rewrite Hid. exact Ht1.
      * revert Ht. apply tracked_fields; reflexivity.
    + split; [exact Hm|]. simpl. rewrite Hid.
      apply (tracked_bound id); [lia|].
      revert Ht. apply tracked_fields; reflexivity.
  - simpl. split; [exact Hm|]. rewrite Hid.
    apply (tracked_bound id); [lia|exact Ht].
Qed.

End CoreFacts.

(** ** Every reachable state is consistent *)

Section Reachability.

Context `{Venue} `{Numerics}.

Lemma dynamic_send_sound : Core.sound_send DynamicSpread.send_throttled.
Proof.
  exact (throttled_send_sound
           (fun id side price volume _ =>
              [send_insert_order id side price volume GOOD_FOR_DAY;
               call_later 10 (cb_cancel_order id)])).
Qed.

Lemma regression_send_sound : Core.sound_send RollingRegression.send_throttled.
Proof.
  exact (throttled_send_sound
           (fun id side price volume _ =>
              [send_insert_order id side price volume GOOD_FOR_DAY])).
Qed.

(** A book update leaves the shared fields alone and calls nothing, or
    runs the quoting cycle on them. *)
Lemma dynamic_book_update_cases (i : Instrument) (a b : list Z)
    (t_bid t_ask : Q) (st : DynamicSpread.State) :
  let r := DynamicSpread.on_order_book_update_message i a b t_bid t_ask st in
  (DynamicSpread.trader (fst r) = DynamicSpread.trader st /\ snd r = [])
  \/ exists new_bid_price new_ask_price,
       (DynamicSpread.trader (fst r), snd r)
       = Core.quote DynamicSpread.send_throttled new_bid_price new_ask_price
           t_bid t_ask (DynamicSpread.trader st).
Proof.
  unfold DynamicSpread.on_order_book_update_message.
  destruct (bool_decide (i = FUTURE) && (0 <? nth 0 b 0) && (0 <? nth 0 a 0));
    [|left; split; reflexivity].
  right.
  destruct (DynamicSpread.quote_prices _ _ _) as [nb na].
  exists nb, na.
  destruct (Core.quote _ _ _ _ _ _) as [s' acts]. reflexivity.
Qed.

Lemma regression_book_update_cases (i : Instrument) (a b : list Z)
    (t_bid t_ask : Q) (st : RollingRegression.State) :
  let r := RollingRegression.on_order_book_update_message i a b t_bid t_ask st in
  (RollingRegression.trader (fst r) = RollingRegression.trader st /\ snd r = [])
  \/ exists new_bid_price new_ask_price,
       (RollingRegression.trader (fst r), snd r)
       = Core.quote RollingRegression.send_throttled new_bid_price
           new_ask_price t_bid t_ask (RollingRegression.trader st).
Proof.
  unfold RollingRegression.on_order_book_update_message.
  destruct ((nth 0 b 0 <=? 0) && (nth 0 a 0 <=? 0));
    [left; split; reflexivity|].
  destruct i; [|left; split; reflexivity].
  destruct (RollingRegression.calculate_hedge_ratio _ _) as [h|];
    [|left; split; reflexivity].
  destruct (_ && _); [|left; split; reflexivity].
  right.
  destruct (RollingRegression.quote_prices _ _) as [nb na].
  exists nb, na.
  destruct (Core.quote _ _ _ _ _ _) as [s' acts]. reflexivity.
Qed.

Lemma dynamic_step_consistent (st : DynamicSpread.State)
    (e : DynamicSpread.Event) :
  Core.consistent (DynamicSpread.trader st) ->
  Core.consistent (DynamicSpread.trader (fst (DynamicSpread.step st e))).
Proof.
  intros Hc. destruct e as [i a b tb ta|now id p v|id f r fees|id| | |now|clock id];
    simpl; try assumption.
  - destruct (dynamic_book_update_cases i a b tb ta st) as [[-> _]|(nb & na & Hq)];
      [assumption|].
    replace (DynamicSpread.trader _) with
      (fst (Core.quote DynamicSpread.send_throttled nb na tb ta
              (DynamicSpread.trader st))) by (rewrite <- Hq; reflexivity).
    apply quote_consistent; [apply dynamic_send_sound|assumption].
  - by apply filled_consistent.
  - by apply status_consistent.
  - by apply error_consistent.
  - pose proof (check_hedge_consistent now _ Hc) as Hh.
    destruct (Core.check_hedge now (DynamicSpread.trader st)). exact Hh.
  - destruct (DynamicSpread.cancel_order clock id _) as [c [acts o]]. exact Hc.
Qed.

Lemma regression_step_consistent (st : RollingRegression.State)
    (e : RollingRegression.Event) :
  Core.consistent (RollingRegression.trader st) ->
  Core.consistent (RollingRegression.trader (fst (RollingRegression.step st e))).
Proof.
  intros Hc. destruct e as [i a b tb ta|now id p v|id f r fees|id| | |now];
    simpl; try assumption.
  - destruct (regression_book_update_cases i a b tb ta st)
      as [[-> _]|(nb & na & Hq)]; [assumption|].
    replace (RollingRegression.trader _) with
      (fst (Core.quote RollingRegression.send_throttled nb na tb ta
              (RollingRegression.trader st))) by (rewrite <- Hq; reflexivity).
    apply quote_consistent; [apply regression_send_sound|assumption].
  - by apply filled_consistent.
  - by apply status_consistent.
  - by apply error_consistent.
  - pose proof (check_hedge_consistent now _ Hc) as Hh.
    destruct (Core.check_hedge now (RollingRegression.trader st)). exact Hh.
Qed.

Lemma init_consistent : Core.consistent Core.init.
Proof.
  split.
  - unfold Core.timer_matches, HEDGE_BOUNDARY. simpl. split; [congruence|lia].
  - unfold Core.tracked. simpl. repeat split; try lia; try constructor;
      try (intros id Hid; by apply not_elem_of_nil in Hid);
      try (intros id Hid; by apply not_elem_of_empty in Hid).
Qed.

Lemma dynamic_run_consistent (es : list DynamicSpread.Event)
    (st : DynamicSpread.State) :
  Core.consistent (DynamicSpread.trader st) ->
  Core.consistent (DynamicSpread.trader (fst (DynamicSpread.run st es))).
Proof.
  revert st. induction es as [|e es IH]; intros st Hc; [exact Hc|].
  simpl. pose proof (dynamic_step_consistent st e Hc) as H1.
  destruct (DynamicSpread.step st e) as [st1 a1]. simpl in H1.
  specialize (IH st1 H1).
  destruct (DynamicSpread.run st1 es) as [st2 a2]. exact IH.
Qed.

Lemma regression_run_consistent (es : list RollingRegression.Event)
    (st : RollingRegression.State) :
  Core.consistent (RollingRegression.trader st) ->
  Core.consistent (RollingRegression.trader (fst (RollingRegression.run st es))).
Proof.
  revert st. induction es as [|e es IH]; intros st Hc; [exact Hc|].
  simpl. pose proof (regression_step_consistent st e Hc) as H1.
  destruct (RollingRegression.step st e) as [st1 a1]. simpl in H1.
  specialize (IH st1 H1).
  destruct (RollingRegression.run st1 es) as [st2 a2]. exact IH.
Qed.

Lemma dynamic_reachable_consistent (st : DynamicSpread.State) :
  DynamicSpread.reachable st -> Core.consistent (DynamicSpread.trader st).
Proof.
  intros [es <-]. apply dynamic_run_consistent, init_consistent.
Qed.

Lemma regression_reachable_consistent (st : RollingRegression.State) :
  RollingRegression.reachable st ->
  Core.consistent (RollingRegression.trader st).
Proof.
  intros [es <-]. apply regression_run_consistent, init_consistent.
Qed.

End Reachability.

Lemma reachable_trader_consistent `{Venue} `{Numerics} (s : Core.Trader) :
  reachable_trader s -> Core.consistent s.
Proof.
  intros [(st & Hr & <-)|(st & Hr & <-)];
    [by apply dynamic_reachable_consistent
    |by apply regression_reachable_consistent].
Qed.

(** ** The hedge controller *)

(** C1. A hedge check made when the timer is set, more than 58 time units
    after it was set, with the imbalance outside [-10, 10], sends exactly
    one hedge order of volume [|imbalance| - 10]: a buy at
    [MAX_ASK_NEAREST_TICK] and the imbalance set to 10 when the imbalance
    is positive, a sell at [MIN_BID_NEAREST_TICK] and the imbalance set to
    -10 when it is negative; the timer is cleared.  When one of the three
    conditions fails no hedge order is sent and the state is unchanged. *)
Theorem check_hedge_correction `{Venue} (now : Q) (s : Core.Trader) :
  let fires :=
    (exists t, Core.hedge_time s = Some t /\ (58 < now - t)%Q)
    /\ (10 < Core.hedge_balance s \/ Core.hedge_balance s < - 10) in
  let s' := fst (Core.check_hedge now s) in
  let acts := snd (Core.check_hedge now s) in
  (fires ->
     (0 < Core.hedge_balance s ->
        Core.hedge_orders acts
        = [send_hedge_order (Core.order_ids s) BUY MAX_ASK_NEAREST_TICK
             (Z.abs (Core.hedge_balance s) - 10)]
        /\ Core.hedge_balance s' = 10)
     /\ (Core.hedge_balance s < 0 ->
           Core.hedge_orders acts
           = [send_hedge_order (Core.order_ids s) SELL MIN_BID_NEAREST_TICK
                (Z.abs (Core.hedge_balance s) - 10)]
           /\ Core.hedge_balance s' = - 10)
     /\ Core.hedge_time s' = None)
  /\ (~ fires -> Core.hedge_orders acts = [] /\ s' = s).
Proof.
  cbv zeta. unfold Core.check_hedge.
  destruct (Core.hedge_time s) as [t|] eqn:Ht.
  - destruct (Throttler.Qlt_bool HEDGE_TIME_LIMIT (now - t)) eqn:Hlim.
    + apply Qlt_bool_true in Hlim.
      destruct ((HEDGE_BOUNDARY <? Core.hedge_balance s)
                || (Core.hedge_balance s <? - HEDGE_BOUNDARY)) eqn:Hout.
      * simpl andb. cbv iota. split.
        -- intros _. unfold HEDGE_BOUNDARY in *.
           destruct (Z.ltb_spec 0 (Core.hedge_balance s)); simpl;
             (split; [|split]); intros; try lia; try reflexivity;
             split; reflexivity.
        -- intros Hn. exfalso. apply Hn. split; [eauto|].
           unfold HEDGE_BOUNDARY in Hout. apply orb_true_iff in Hout.
           destruct Hout as [Ho|Ho]; apply Z.ltb_lt in Ho; lia.
      * simpl andb. cbv iota. split; [|intros _; split; reflexivity].
        intros [_ Ho]. exfalso. unfold HEDGE_BOUNDARY in Hout.
        apply orb_false_iff in Hout as [H1 H2].
        apply Z.ltb_ge in H1, H2. lia.
    + apply Qlt_bool_false in Hlim. simpl andb. cbv iota.
      split; [|intros _; split; reflexivity].
      intros [(t' & [= <-] & Hlt) _]. exfalso. unfold HEDGE_TIME_LIMIT in Hlim.
      lra.
  - split; [|intros _; split; reflexivity].
    intros [(t' & Hd & _) _]. discriminate.
Qed.

(** An imbalance of 15 armed at time 0 and checked at time 59. *)
Lemma check_hedge_correction_witness :
  let s := Core.set_hedge (-15) 15 (Some 0%Q) Core.init in
  Core.hedge_orders (snd (@Core.check_hedge Reference.venue 59%Q s))
  = [send_hedge_order 1 BUY 2147483600 5]
  /\ Core.hedge_balance (fst (@Core.check_hedge Reference.venue 59%Q s)) = 10
  /\ Core.hedge_time (fst (@Core.check_hedge Reference.venue 59%Q s)) = None.
Proof.
  cbv zeta.
  pose proof (@check_hedge_correction Reference.venue 59%Q
                (Core.set_hedge (-15) 15 (Some 0%Q) Core.init)) as [Hfire _].
  destruct Hfire as (Hpos & _ & Htime).
  - split.
    + exists 0%Q. split; [reflexivity|reflexivity].
    + left. reflexivity.
  - destruct Hpos as [Ho Hb]; [reflexivity|].
    split; [exact Ho|split; [exact Hb|exact Htime]].
Defined.

(** C7. In every state either trader reaches, the hedge timer is set
    exactly when the imbalance is outside [-10, 10].  A fill that leaves the
    imbalance inside clears the timer; one that leaves it outside sets the
    timer to the time of the fill when no timer was running or when the
    imbalance changed sign, and otherwise leaves the timer as it was. *)
Theorem hedge_timer_invariant `{Venue} `{Numerics} :
  (forall s : Core.Trader,
      reachable_trader s ->
      Core.hedge_time s <> None
      <-> (10 < Core.hedge_balance s \/ Core.hedge_balance s < - 10))
  /\ (forall (now : Q) (id price volume : Z) (s : Core.Trader),
         let s' := Core.on_order_filled_message now id price volume s in
         let pre := Core.hedge_balance s in
         let post := Core.hedge_balance s' in
         let outside := 10 < post \/ post < - 10 in
         let flipped := (0 < pre /\ post < 0) \/ (pre < 0 /\ 0 < post) in
         (- 10 <= post <= 10 -> Core.hedge_time s' = None)
         /\ (outside -> Core.hedge_time s = None ->
             Core.hedge_time s' = Some now)
         /\ (outside -> flipped -> Core.hedge_time s' = Some now)
         /\ (outside -> Core.hedge_time s <> None -> ~ flipped ->
             Core.hedge_time s' = Core.hedge_time s)).
Proof.
  split.
  - intros s Hr. apply reachable_trader_consistent in Hr as [Hm _]. exact Hm.
  - intros now id price volume s. cbv zeta.
    unfold Core.on_order_filled_message, HEDGE_BOUNDARY.
    destruct (Core.on_bid_side s id); [|destruct (Core.on_ask_side s id)];
      simpl; destruct (Core.hedge_time s) as [t|] eqn:Ht; simpl; zbool; simpl;
      repeat split; intros; try reflexivity; try congruence; try lia;
      exfalso; intuition lia.
Qed.

(** What a fill does to position, imbalance and timer in a consistent
    state. *)
Lemma filled_books (s : Core.Trader) (now : Q) (id price volume : Z) :
  Core.consistent s ->
  let s' := Core.on_order_filled_message now id price volume s in
  (id ∈ Core.bids s ->
     Core.position s' = Core.position s + volume
     /\ Core.hedge_balance s' = Core.hedge_balance s - volume)
  /\ (id ∈ Core.asks s ->
        Core.position s' = Core.position s - volume
        /\ Core.hedge_balance s' = Core.hedge_balance s + volume)
  /\ (id ∉ Core.bids s -> id ∉ Core.bidq s ->
      id ∉ Core.asks s -> id ∉ Core.askq s ->
        Core.position s' = Core.position s
        /\ Core.hedge_balance s' = Core.hedge_balance s
        /\ Core.hedge_time s' = Core.hedge_time s).
Proof.
  intros [Hm Ht].
  destruct Ht as (_ & _ & Hqb & Hqa & _ & _ & Hd & _ & _).
  cbv zeta. unfold Core.on_order_filled_message, Core.on_bid_side,
    Core.on_ask_side.
  split; [|split].
  - intros Hb. rewrite (bool_decide_eq_true_2 _ Hb). simpl. auto.
  - intros Ha.
    assert (id ∉ Core.bids s) as Hnb.
    { intros Hb. exact (proj1 (elem_of_disjoint _ _) Hd id Hb Ha). }
    assert (id ∉ Core.bidq s) as Hnq by (intros Hq; apply Hnb, Hqb, Hq).
    rewrite (bool_decide_eq_false_2 _ Hnb), (bool_decide_eq_false_2 _ Hnq),
      (bool_decide_eq_true_2 _ Ha).
    simpl. auto.
  - intros Hnb Hnbq Hna Hnaq.
    rewrite (bool_decide_eq_false_2 _ Hnb), (bool_decide_eq_false_2 _ Hnbq),
      (bool_decide_eq_false_2 _ Hna), (bool_decide_eq_false_2 _ Hnaq).
    simpl. split; [reflexivity|split; [reflexivity|]].
    unfold Core.timer_matches, HEDGE_BOUNDARY in *.
    destruct (Core.hedge_time s) as [t|] eqn:Htime; simpl; zbool; simpl;
      try reflexivity; exfalso; try lia;
      first
        [ assert (10 < Core.hedge_balance s \/ Core.hedge_balance s < - 10)
            by (apply Hm; congruence); lia
        | assert (@None Q <> None) by (apply Hm; lia); congruence ].
Qed.

(** C6. A fill in a state either trader reaches: for an id recorded on
    the bid side the position grows and the imbalance shrinks by the fill
    volume; for an id recorded on the ask side the position shrinks and the
    imbalance grows by it; for an id in no set and no queue, position,
    imbalance and timer stay as they were. *)
Theorem fill_attribution `{Venue} `{Numerics} (s : Core.Trader) (now : Q)
    (id price volume : Z) :
  reachable_trader s ->
  let s' := Core.on_order_filled_message now id price volume s in
  (id ∈ Core.bids s ->
     Core.position s' = Core.position s + volume
     /\ Core.hedge_balance s' = Core.hedge_balance s - volume)
  /\ (id ∈ Core.asks s ->
        Core.position s' = Core.position s - volume
        /\ Core.hedge_balance s' = Core.hedge_balance s + volume)
  /\ (id ∉ Core.bids s -> id ∉ Core.bidq s ->
      id ∉ Core.asks s -> id ∉ Core.askq s ->
        Core.position s' = Core.position s
        /\ Core.hedge_balance s' = Core.hedge_balance s
        /\ Core.hedge_time s' = Core.hedge_time s).
Proof.
  intros Hr. apply filled_books. by apply reachable_trader_consistent.
Qed.

(** The bid of the first quoting cycle is filled. *)
Lemma fill_attribution_witness :
  let es := [DynamicSpread.OrderBookUpdate FUTURE [10000] [10000] 0%Q 0%Q] in
  let s := DynamicSpread.trader
             (fst (@DynamicSpread.run Reference.venue Reference.numerics
                     DynamicSpread.init es)) in
  let s' := Core.on_order_filled_message 5%Q 1 9900 10 s in
  1 ∈ Core.bids s
  /\ Core.position s' = Core.position s + 10
  /\ Core.hedge_balance s' = Core.hedge_balance s - 10.
Proof.
  cbv zeta.
  assert (1 ∈ Core.bids
            (DynamicSpread.trader
               (fst (@DynamicSpread.run Reference.venue Reference.numerics
                       DynamicSpread.init
                       [DynamicSpread.OrderBookUpdate FUTURE [10000] [10000]
                          0%Q 0%Q])))) as Hin.
  { refine (bool_decide_unpack _ _). vm_compute. exact I. }
  split; [exact Hin|].
  refine (proj1 (@fill_attribution Reference.venue Reference.numerics _ 5%Q 1
                   9900 10 _) Hin).
  left. eexists. split; [eexists; reflexivity|reflexivity].
Defined.

(** The state after that fill is reachable, and its timer is unset. *)
Lemma hedge_timer_invariant_witness :
  let es := [DynamicSpread.OrderBookUpdate FUTURE [10000] [10000] 0%Q 0%Q;
             DynamicSpread.OrderFilled 5%Q 1 9900 10] in
  let s := DynamicSpread.trader
             (fst (@DynamicSpread.run Reference.venue Reference.numerics
                     DynamicSpread.init es)) in
  Core.hedge_time s <> None
  <-> (10 < Core.hedge_balance s \/ Core.hedge_balance s < - 10).
Proof.
  cbv zeta.
  refine (proj1 (@hedge_timer_invariant Reference.venue Reference.numerics) _ _).
  left. eexists. split; [eexists; reflexivity|reflexivity].
Defined.

(** ** The order queues *)

Section QueueFacts.

Import Core.

Lemma throttled_send_orderly
    (body : Z -> Side -> Z -> Z -> Trader -> list Action) :
  orderly_send (fun now id side price volume s =>
    let '(s', r) :=
      Throttler.throttler call_times set_call_times
        (fun s0 => match track_order id side s0 with
                   | None => (s0, [])
                   | Some s1 => (s1, body id side price volume s1)
                   end) now s in
    (s', default [] r)).
Proof.
  intros now id side price volume s. cbv zeta.
  unfold Throttler.throttler.
  destruct (Throttler.record_call (call_times s) now) as [c|].
  - unfold track_order. destruct side.
    + change (askq (set_call_times c s)) with (askq s).
      destruct (Nat.leb_spec 4 (length (askq s))); simpl.
      * repeat split; try done; try (by exists []; rewrite app_nil_r).
      * repeat split; try done; try lia;
          try (by exists []; rewrite app_nil_r); try (by eexists).
        apply union_subseteq_r.
    + change (bidq (set_call_times c s)) with (bidq s).
      destruct (Nat.leb_spec 4 (length (bidq s))); simpl.
      * repeat split; try done; try (by exists []; rewrite app_nil_r).
      * repeat split; try done; try lia;
          try (by exists []; rewrite app_nil_r); try (by eexists).
        apply union_subseteq_r.
  - simpl. repeat split; try done; by exists []; rewrite app_nil_r.
Qed.

Lemma dynamic_send_orderly : orderly_send DynamicSpread.send_throttled.
Proof.
  exact (throttled_send_orderly
           (fun id side price volume _ =>
              [send_insert_order id side price volume GOOD_FOR_DAY;
               call_later 10 (cb_cancel_order id)])).
Qed.

Lemma regression_send_orderly : orderly_send RollingRegression.send_throttled.
Proof.
  exact (throttled_send_orderly
           (fun id side price volume _ =>
              [send_insert_order id side price volume GOOD_FOR_DAY])).
Qed.

Lemma evict_bid_spec (s : Trader) :
  askq (fst (evict_bid s)) = askq s
  /\ bids (fst (evict_bid s)) = bids s /\ asks (fst (evict_bid s)) = asks s
  /\ ((length (bidq s) < 4)%nat -> evict_bid s = (s, []))
  /\ ((4 <= length (bidq s))%nat ->
      exists b q, bidq s = b :: q /\ bidq (fst (evict_bid s)) = q
                  /\ snd (evict_bid s) = [send_cancel_order b]).
Proof.
  unfold evict_bid.
  destruct (Nat.leb_spec 4 (length (bidq s))) as [Hfull|Hfree].
  - destruct (bidq s) as [|b q] eqn:Hq; [simpl in Hfull; lia|].
    simpl. repeat split; [simpl in Hfull; lia|]. intros _. exists b, q. auto.
  - simpl. repeat split; lia.
Qed.

Lemma evict_ask_spec (s : Trader) :
  bidq (fst (evict_ask s)) = bidq s
  /\ bids (fst (evict_ask s)) = bids s /\ asks (fst (evict_ask s)) = asks s
  /\ ((length (askq s) < 4)%nat -> evict_ask s = (s, []))
  /\ ((4 <= length (askq s))%nat ->
      exists a q, askq s = a :: q /\ askq (fst (evict_ask s)) = q
                  /\ snd (evict_ask s) = [send_cancel_order a]).
Proof.
  unfold evict_ask.
  destruct (Nat.leb_spec 4 (length (askq s))) as [Hfull|Hfree].
  - destruct (askq s) as [|a q] eqn:Hq; [simpl in Hfull; lia|].
    simpl. repeat split; [simpl in Hfull; lia|]. intros _. exists a, q. auto.
  - simpl. repeat split; lia.
Qed.

Lemma evict_bid_no_insert (s : Trader) :
  Forall (fun x => is_insert x = false) (snd (evict_bid s)).
Proof.
  unfold evict_bid. destruct (4 <=? length (bidq s))%nat; [|constructor].
  destruct (bidq s); repeat constructor.
Qed.

(** The quoting cycle, seen from outside: the queues lose their head when
    they hold 4 ids and then only grow at the end, the sets only grow, and
    the cancels come first. *)
Lemma quote_spec send (nb na : Z) (t_bid t_ask : Q) (s : Trader) :
  orderly_send send ->
  let r := quote send nb na t_bid t_ask s in
  bids s ⊆ bids (fst r) /\ asks s ⊆ asks (fst r)
  /\ ((4 <= length (bidq s))%nat ->
      exists b q rest tail,
        bidq s = b :: q /\ snd r = send_cancel_order b :: rest
        /\ bidq (fst r) = q ++ tail)
  /\ ((4 <= length (askq s))%nat ->
      exists a q pre rest tail,
        askq s = a :: q /\ snd r = pre ++ send_cancel_order a :: rest
        /\ Forall (fun x => is_insert x = false) pre
        /\ askq (fst r) = q ++ tail).
Proof.
  intros Hsend. cbv zeta. unfold quote.
  destruct (evict_bid_spec s) as (Hba & Hbb & Hbas & _ & Hbfull).
  pose proof (evict_bid_no_insert s) as Hbni.
  destruct (evict_bid s) as [s1 c1]. simpl in *.
  destruct (evict_ask_spec s1) as (Hab & Habs & Haa & _ & Hafull).
  destruct (evict_ask s1) as [s2 c2]. simpl in *.
  match goal with
  | |- context [if ?c then send ?t ?i ?sd ?p ?v ?s0 else _] =>
      assert ((exists tb, bidq (fst (if c then send t i sd p v s0 else (s2, [])))
                          = bidq s2 ++ tb)
              /\ (exists ta, askq (fst (if c then send t i sd p v s0
                                        else (s2, []))) = askq s2 ++ ta)
              /\ bids s2 ⊆ bids (fst (if c then send t i sd p v s0 else (s2, [])))
              /\ asks s2 ⊆ asks (fst (if c then send t i sd p v s0 else (s2, []))))
        as (Hq3 & Hqa3 & Hb3 & Ha3);
      [destruct c|
       destruct (if c then send t i sd p v s0 else (s2, [])) as [s3 c3]]
  end.
  { destruct (Hsend t_bid (order_ids s2) BUY nb
                (Z.min LOT_SIZE (Z.max 0 (POSITION_LIMIT - position s
                   - Z.of_nat (length (bidq s)) * LOT_SIZE)))
                (set_order_ids (order_ids s2 + 1) s2))
      as (H1 & H2 & H3 & H4 & _). auto. }
  { simpl. repeat split; try done; by exists []; rewrite app_nil_r. }
  simpl in *.
  match goal with
  | |- context [if ?c then send ?t ?i ?sd ?p ?v ?s0 else _] =>
      assert ((exists tb, bidq (fst (if c then send t i sd p v s0 else (s3, [])))
                          = bidq s3 ++ tb)
              /\ (exists ta, askq (fst (if c then send t i sd p v s0
                                        else (s3, []))) = askq s3 ++ ta)
              /\ bids s3 ⊆ bids (fst (if c then send t i sd p v s0 else (s3, [])))
              /\ asks s3 ⊆ asks (fst (if c then send t i sd p v s0 else (s3, []))))
        as (Hq4 & Hqa4 & Hb4 & Ha4);
      [destruct c|
       destruct (if c then send t i sd p v s0 else (s3, [])) as [s4 c4]]
  end.
  { destruct (Hsend t_ask (order_ids s3) SELL na
                (Z.min LOT_SIZE (Z.max 0 (POSITION_LIMIT + position s
                   - Z.of_nat (length (askq s)) * LOT_SIZE)))
                (set_order_ids (order_ids s3 + 1) s3))
      as (H1 & H2 & H3 & H4 & _). auto. }
  { simpl. repeat split; try done; by exists []; rewrite app_nil_r. }
  simpl in *.
  destruct Hq3 as [tb3 Hq3], Hqa3 as [ta3 Hqa3], Hq4 as [tb4 Hq4],
    Hqa4 as [ta4 Hqa4].
  split; [|split; [|split]].
  - rewrite <- Hbb, <- Habs. etrans; eassumption.
  - rewrite <- Hbas, <- Haa. etrans; eassumption.
  - intros Hfull. destruct (Hbfull Hfull) as (b & q & Hs & Hs1 & Hc1).
    exists b, q, (c2 ++ c3 ++ c4), (tb3 ++ tb4). subst c1.
    split; [exact Hs|split; [reflexivity|]].
    rewrite Hq4, Hq3, Hab, Hs1, app_assoc. reflexivity.
  - intros Hfull. rewrite <- Hba in Hfull.
    destruct (Hafull Hfull) as (a & q & Hs & Hs2 & Hc2).
    exists a, q, c1, (c3 ++ c4), (ta3 ++ ta4). subst c2.
    split; [by rewrite <- Hba|split; [reflexivity|split; [exact Hbni|]]].
    rewrite Hqa4, Hqa3, Hs2, app_assoc. reflexivity.
Qed.

End QueueFacts.

Lemma sorted_head_least (b : Z) (q : list Z) :
  StronglySorted Z.lt (b :: q) -> forall x, x ∈ q -> b < x.
Proof.
  intros Hs x Hx. apply StronglySorted_inv in Hs as [_ Hb].
  rewrite Forall_forall in Hb. by apply Hb.
Qed.

Lemma send_is_orderly
    (send : Q -> Z -> Side -> Z -> Z -> Core.Trader -> Core.Trader * list Action) :
  send = DynamicSpread.send_throttled \/ send = RollingRegression.send_throttled ->
  Core.orderly_send send.
Proof.
  intros [->| ->]; [apply dynamic_send_orderly|apply regression_send_orderly].
Qed.

(** C9. In every state either trader reaches, each queue holds at most 4
    ids, and its head is its smallest id, the one drawn first.  A book
    update either leaves the books alone and calls nothing or runs the
    quoting cycle; in the cycle, a queue that holds 4 ids loses its head
    and the cancel of that id is sent before any order is inserted.
    [send_throttled] called on a side whose queue holds 4 ids appends
    nothing and inserts nothing. *)
Theorem queue_capacity `{Venue} `{Numerics} :
  (forall s : Core.Trader,
      reachable_trader s ->
      (length (Core.bidq s) <= 4)%nat /\ (length (Core.askq s) <= 4)%nat
      /\ (forall b q, Core.bidq s = b :: q -> forall x, x ∈ q -> b < x)
      /\ (forall a q, Core.askq s = a :: q -> forall x, x ∈ q -> a < x))
  /\ (forall (i : Instrument) (a b : list Z) (t_bid t_ask : Q)
             (st : DynamicSpread.State),
         let r := DynamicSpread.on_order_book_update_message i a b t_bid t_ask st in
         (DynamicSpread.trader (fst r) = DynamicSpread.trader st /\ snd r = [])
         \/ exists new_bid_price new_ask_price,
              (DynamicSpread.trader (fst r), snd r)
              = Core.quote DynamicSpread.send_throttled new_bid_price
                  new_ask_price t_bid t_ask (DynamicSpread.trader st))
  /\ (forall (i : Instrument) (a b : list Z) (t_bid t_ask : Q)
             (st : RollingRegression.State),
         let r := RollingRegression.on_order_book_update_message i a b t_bid
                    t_ask st in
         (RollingRegression.trader (fst r) = RollingRegression.trader st
          /\ snd r = [])
         \/ exists new_bid_price new_ask_price,
              (RollingRegression.trader (fst r), snd r)
              = Core.quote RollingRegression.send_throttled new_bid_price
                  new_ask_price t_bid t_ask (RollingRegression.trader st))
  /\ (forall send,
         send = DynamicSpread.send_throttled
         \/ send = RollingRegression.send_throttled ->
         forall (new_bid_price new_ask_price : Z) (t_bid t_ask : Q)
                (s : Core.Trader),
           let r := Core.quote send new_bid_price new_ask_price t_bid t_ask s in
           ((4 <= length (Core.bidq s))%nat ->
              exists b q rest tail,
                Core.bidq s = b :: q
                /\ snd r = send_cancel_order b :: rest
                /\ Core.bidq (fst r) = q ++ tail)
           /\ ((4 <= length (Core.askq s))%nat ->
                 exists a q pre rest tail,
                   Core.askq s = a :: q
                   /\ snd r = pre ++ send_cancel_order a :: rest
                   /\ Forall (fun x => Core.is_insert x = false) pre
                   /\ Core.askq (fst r) = q ++ tail))
  /\ (forall send,
         send = DynamicSpread.send_throttled
         \/ send = RollingRegression.send_throttled ->
         forall (now : Q) (id price volume : Z) (s : Core.Trader),
           ((4 <= length (Core.bidq s))%nat ->
              let r := send now id BUY price volume s in
              Core.bidq (fst r) = Core.bidq s /\ Core.bids (fst r) = Core.bids s
              /\ snd r = [])
           /\ ((4 <= length (Core.askq s))%nat ->
                 let r := send now id SELL price volume s in
                 Core.askq (fst r) = Core.askq s
                 /\ Core.asks (fst r) = Core.asks s /\ snd r = [])).
Proof.
  split; [|split; [|split; [|split]]].
  - intros s Hr. apply reachable_trader_consistent in Hr as [_ Ht].
    destruct Ht as (Hb & Ha & _ & _ & _ & _ & _ & Hsb & Hsa).
    split; [exact Hb|split; [exact Ha|split]].
    + intros b q Hq. rewrite Hq in Hsb. by apply sorted_head_least.
    + intros a q Hq. rewrite Hq in Hsa. by apply sorted_head_least.
  - apply dynamic_book_update_cases.
  - apply regression_book_update_cases.
  - intros send Hsend nb na t_bid t_ask s.
    destruct (quote_spec send nb na t_bid t_ask s (send_is_orderly send Hsend))
      as (_ & _ & Hb & Ha).
    split; assumption.
  - intros send Hsend now id price volume s.
    pose proof (send_is_orderly send Hsend) as Ho. split; intros Hfull.
    + destruct (Ho now id BUY price volume s) as (_ & _ & _ & _ & Hb & _).
      by apply Hb.
    + destruct (Ho now id SELL price volume s) as (_ & _ & _ & _ & _ & Ha).
      by apply Ha.
Qed.

(** Four quoting cycles of the volatility trader fill both queues. *)
Lemma queue_capacity_witness :
  let book := DynamicSpread.OrderBookUpdate FUTURE [10000] [10000] 0%Q 0%Q in
  let s := DynamicSpread.trader
             (fst (@DynamicSpread.run Reference.venue Reference.numerics
                     DynamicSpread.init [book; book; book; book])) in
  Core.bidq s = [1; 3; 5; 7]
  /\ (length (Core.bidq s) <= 4)%nat /\ (length (Core.askq s) <= 4)%nat.
Proof.
  cbv zeta. split; [vm_compute; reflexivity|].
  refine (let H := proj1 (@queue_capacity Reference.venue Reference.numerics)
                     _ _ in conj (proj1 H) (proj1 (proj2 H))).
  left. eexists. split; [eexists; reflexivity|reflexivity].
Defined.

Lemma status_keeps_others (id fill remaining fees x : Z) (s : Core.Trader) :
  (x ∈ Core.bids s ->
   x ∉ Core.bids (Core.on_order_status_message id fill remaining fees s) ->
   x = id /\ remaining = 0)
  /\ (x ∈ Core.asks s ->
      x ∉ Core.asks (Core.on_order_status_message id fill remaining fees s) ->
      x = id /\ remaining = 0).
Proof.
  unfold Core.on_order_status_message.
  destruct (Z.eqb_spec remaining 0) as [->|Hne]; [|split; intros; contradiction].
  destruct (Core.on_bid_side s id); [|destruct (Core.on_ask_side s id)];
    simpl; split; intros Hin Hout; try contradiction; split; try reflexivity;
    destruct (decide (x = id)) as [Heq|Hneq]; try assumption;
    exfalso; apply Hout; apply elem_of_difference; split; try assumption;
    by intros ?%elem_of_singleton.
Qed.

Lemma error_keeps_others (id x : Z) (s : Core.Trader) :
  (x ∈ Core.bids s -> x ∉ Core.bids (Core.on_error_message id s) -> x = id)
  /\ (x ∈ Core.asks s -> x ∉ Core.asks (Core.on_error_message id s) -> x = id).
Proof.
  unfold Core.on_error_message.
  destruct (negb (id =? 0) && _); [|split; intros; contradiction].
  destruct (status_keeps_others id 0 0 0 x s) as [Hb Ha].
  split; intros Hin Hout; [by apply Hb|by apply Ha].
Qed.

Lemma filled_keeps_sets (now : Q) (id price volume : Z) (s : Core.Trader) :
  Core.bids (Core.on_order_filled_message now id price volume s) = Core.bids s
  /\ Core.asks (Core.on_order_filled_message now id price volume s)
     = Core.asks s.
Proof.
  unfold Core.on_order_filled_message.
  destruct (Core.on_bid_side s id); [|destruct (Core.on_ask_side s id)];
    split; reflexivity.
Qed.

Lemma check_hedge_keeps_sets `{Venue} (now : Q) (s : Core.Trader) :
  Core.bids (fst (Core.check_hedge now s)) = Core.bids s
  /\ Core.asks (fst (Core.check_hedge now s)) = Core.asks s.
Proof.
  unfold Core.check_hedge. destruct (Core.hedge_time s); [|split; reflexivity].
  destruct (_ && _); [|split; reflexivity].
  destruct (0 <? Core.hedge_balance s); split; reflexivity.
Qed.

Lemma dynamic_leaves_set `{Venue} `{Numerics} (st : DynamicSpread.State)
    (e : DynamicSpread.Event) (x : Z) :
  let s := DynamicSpread.trader st in
  let s' := DynamicSpread.trader (fst (DynamicSpread.step st e)) in
  (x ∈ Core.bids s /\ x ∉ Core.bids s') \/ (x ∈ Core.asks s /\ x ∉ Core.asks s') ->
  (exists fill fees, e = DynamicSpread.OrderStatus x fill 0 fees)
  \/ e = DynamicSpread.ErrorMessage x.
Proof.
  cbv zeta.
  destruct e as [i a b tb ta|now id p v|id f r fees|id| | |now|clock id]; simpl.
  - destruct (dynamic_book_update_cases i a b tb ta st)
      as [[-> _]|(nb & na & Hq)]; [tauto|].
    apply (f_equal fst) in Hq. simpl in Hq. rewrite Hq.
    destruct (quote_spec DynamicSpread.send_throttled nb na tb ta
                (DynamicSpread.trader st) dynamic_send_orderly)
      as (Hb & Ha & _).
    intros [[Hin Hout]|[Hin Hout]]; exfalso; apply Hout; auto.
  - destruct (filled_keeps_sets now id p v (DynamicSpread.trader st)) as [-> ->].
    tauto.
  - destruct (status_keeps_others id f r fees x (DynamicSpread.trader st))
      as [Hb Ha].
    intros [[Hin Hout]|[Hin Hout]]; left; exists f, fees;
      [destruct (Hb Hin Hout) as [-> ->]|destruct (Ha Hin Hout) as [-> ->]];
      reflexivity.
  - destruct (error_keeps_others id x (DynamicSpread.trader st)) as [Hb Ha].
    intros [[Hin Hout]|[Hin Hout]]; right;
      [rewrite (Hb Hin Hout)|rewrite (Ha Hin Hout)]; reflexivity.
  - tauto.
  - tauto.
  - pose proof (check_hedge_keeps_sets now (DynamicSpread.trader st)) as [Hb Ha].
    destruct (Core.check_hedge now (DynamicSpread.trader st)) as [s1 acts].
    simpl in *. rewrite Hb, Ha. tauto.
  - destruct (DynamicSpread.cancel_order clock id _) as [c [acts o]]. simpl.
    tauto.
Qed.

Lemma regression_leaves_set `{Venue} `{Numerics} (st : RollingRegression.State)
    (e : RollingRegression.Event) (x : Z) :
  let s := RollingRegression.trader st in
  let s' := RollingRegression.trader (fst (RollingRegression.step st e)) in
  (x ∈ Core.bids s /\ x ∉ Core.bids s') \/ (x ∈ Core.asks s /\ x ∉ Core.asks s') ->
  (exists fill fees, e = RollingRegression.OrderStatus x fill 0 fees)
  \/ e = RollingRegression.ErrorMessage x.
Proof.
  cbv zeta.
  destruct e as [i a b tb ta|now id p v|id f r fees|id| | |now]; simpl.
  - destruct (regression_book_update_cases i a b tb ta st)
      as [[-> _]|(nb & na & Hq)]; [tauto|].
    apply (f_equal fst) in Hq. simpl in Hq. rewrite Hq.
    destruct (quote_spec RollingRegression.send_throttled nb na tb ta
                (RollingRegression.trader st) regression_send_orderly)
      as (Hb & Ha & _).
    intros [[Hin Hout]|[Hin Hout]]; exfalso; apply Hout; auto.
  - destruct (filled_keeps_sets now id p v (RollingRegression.trader st))
      as [-> ->].
    tauto.
  - destruct (status_keeps_others id f r fees x (RollingRegression.trader st))
      as [Hb Ha].
    intros [[Hin Hout]|[Hin Hout]]; left; exists f, fees;
      [destruct (Hb Hin Hout) as [-> ->]|destruct (Ha Hin Hout) as [-> ->]];
      reflexivity.
  - destruct (error_keeps_others id x (RollingRegression.trader st)) as [Hb Ha].
    intros [[Hin Hout]|[Hin Hout]]; right;
      [rewrite (Hb Hin Hout)|rewrite (Ha Hin Hout)]; reflexivity.
  - tauto.
  - tauto.
  - pose proof (check_hedge_keeps_sets now (RollingRegression.trader st))
      as [Hb Ha].
    destruct (Core.check_hedge now (RollingRegression.trader st)) as [s1 acts].
    simpl in *. rewrite Hb, Ha. tauto.
Qed.

(** C10. In every state either trader reaches, the ids of each queue are
    in the set of its side.  The converse fails: after five quoting cycles
    id 1 is in the bid set and no longer in the bid queue, for eviction
    takes the head off the queue and leaves the sets as they are.  A fill
    for such an id is still booked on its side.  An id leaves its set only
    in a status callback for it with remaining volume 0 or in an error
    callback for it. *)
Theorem queue_within_set `{Venue} `{Numerics} :
  (forall s : Core.Trader,
      reachable_trader s ->
      (forall id, id ∈ Core.bidq s -> id ∈ Core.bids s)
      /\ (forall id, id ∈ Core.askq s -> id ∈ Core.asks s))
  /\ (exists st,
         @DynamicSpread.reachable Reference.venue Reference.numerics st
         /\ 1 ∈ Core.bids (DynamicSpread.trader st)
         /\ 1 ∉ Core.bidq (DynamicSpread.trader st))
  /\ (exists st,
         @RollingRegression.reachable Reference.venue Reference.numerics st
         /\ 1 ∈ Core.bids (RollingRegression.trader st)
         /\ 1 ∉ Core.bidq (RollingRegression.trader st))
  /\ (forall s : Core.Trader,
         Core.bids (fst (Core.evict_bid s)) = Core.bids s
         /\ Core.asks (fst (Core.evict_ask s)) = Core.asks s
         /\ ((4 <= length (Core.bidq s))%nat ->
             Core.bidq (fst (Core.evict_bid s)) = tail (Core.bidq s))
         /\ ((4 <= length (Core.askq s))%nat ->
             Core.askq (fst (Core.evict_ask s)) = tail (Core.askq s)))
  /\ (forall (s : Core.Trader) (now : Q) (id price volume : Z),
         reachable_trader s ->
         let s' := Core.on_order_filled_message now id price volume s in
         (id ∈ Core.bids s -> id ∉ Core.bidq s ->
            Core.position s' = Core.position s + volume
            /\ Core.hedge_balance s' = Core.hedge_balance s - volume)
         /\ (id ∈ Core.asks s -> id ∉ Core.askq s ->
               Core.position s' = Core.position s - volume
               /\ Core.hedge_balance s' = Core.hedge_balance s + volume))
  /\ (forall (st : DynamicSpread.State) (e : DynamicSpread.Event) (id : Z),
         let s := DynamicSpread.trader st in
         let s' := DynamicSpread.trader (fst (DynamicSpread.step st e)) in
         (id ∈ Core.bids s /\ id ∉ Core.bids s')
         \/ (id ∈ Core.asks s /\ id ∉ Core.asks s') ->
         (exists fill fees, e = DynamicSpread.OrderStatus id fill 0 fees)
         \/ e = DynamicSpread.ErrorMessage id)
  /\ (forall (st : RollingRegression.State) (e : RollingRegression.Event)
             (id : Z),
         let s := RollingRegression.trader st in
         let s' := RollingRegression.trader (fst (RollingRegression.step st e)) in
         (id ∈ Core.bids s /\ id ∉ Core.bids s')
         \/ (id ∈ Core.asks s /\ id ∉ Core.asks s') ->
         (exists fill fees, e = RollingRegression.OrderStatus id fill 0 fees)
         \/ e = RollingRegression.ErrorMessage id).
Proof.
  split; [|split; [|split; [|split; [|split; [|split]]]]].
  - intros s Hr. apply reachable_trader_consistent in Hr as [_ Ht].
    destruct Ht as (_ & _ & Hqb & Hqa & _). split; assumption.
  - eexists. split; [exists Reference.dynamic_five_cycles; reflexivity|].
    split; refine (bool_decide_unpack _ _); vm_compute; exact I.
  - eexists. split; [exists Reference.regression_five_cycles; reflexivity|].
    split; refine (bool_decide_unpack _ _); vm_compute; exact I.
  - intros s.
    destruct (evict_bid_spec s) as (_ & Hb & _ & _ & Hfb).
    destruct (evict_ask_spec s) as (_ & _ & Ha & _ & Hfa).
    split; [exact Hb|split; [exact Ha|split]]; intros Hfull.
    + destruct (Hfb Hfull) as (b & q & -> & -> & _). reflexivity.
    + destruct (Hfa Hfull) as (a & q & -> & -> & _). reflexivity.
  - intros s now id price volume Hr. cbv zeta.
    apply reachable_trader_consistent in Hr.
    destruct (filled_books s now id price volume Hr) as (Hb & Ha & _).
    split; intros Hin _; [by apply Hb|by apply Ha].
  - apply dynamic_leaves_set.
  - apply regression_leaves_set.
Qed.

(** The state after the five cycles of the volatility trader. *)
Lemma queue_within_set_witness :
  let s := DynamicSpread.trader
             (fst (@DynamicSpread.run Reference.venue Reference.numerics
                     DynamicSpread.init Reference.dynamic_five_cycles)) in
  (forall id, id ∈ Core.bidq s -> id ∈ Core.bids s)
  /\ (forall id, id ∈ Core.askq s -> id ∈ Core.asks s).
Proof.
  cbv zeta.
  refine (proj1 (@queue_within_set Reference.venue Reference.numerics) _ _).
  left. eexists. split; [eexists; reflexivity|reflexivity].
Defined.

(** ** The guard on the top of the book *)

(** The volatility trader skips a book update whose best bid or best ask
    is not positive: no field changes and nothing is called. *)
Lemma dynamic_skips_bad_book `{Numerics} (i : Instrument) (a b : list Z)
    (t_bid t_ask : Q) (st : DynamicSpread.State) :
  nth 0 b 0 <= 0 \/ nth 0 a 0 <= 0 ->
  DynamicSpread.on_order_book_update_message i a b t_bid t_ask st = (st, []).
Proof.
  intros Hbad. unfold DynamicSpread.on_order_book_update_message.
  destruct (bool_decide (i = FUTURE)); simpl; [|reflexivity].
  destruct (Z.ltb_spec 0 (nth 0 b 0)); simpl; [|reflexivity].
  destruct (Z.ltb_spec 0 (nth 0 a 0)); simpl; [|reflexivity].
  lia.
Qed.

(** The regression trader skips only when both are not positive. *)
Lemma regression_skips_empty_book `{Numerics} (i : Instrument) (a b : list Z)
    (t_bid t_ask : Q) (st : RollingRegression.State) :
  nth 0 b 0 <= 0 /\ nth 0 a 0 <= 0 ->
  RollingRegression.on_order_book_update_message i a b t_bid t_ask st = (st, []).
Proof.
  intros [Hb Ha]. unfold RollingRegression.on_order_book_update_message.
  destruct (Z.leb_spec (nth 0 b 0) 0); [|lia].
  destruct (Z.leb_spec (nth 0 a 0) 0); [|lia].
  reflexivity.
Qed.

(** C3, on the regression trader.  A book update with best bid 0 and best
    ask 100 is not skipped: from the initial state an ETF update appends
    the mid-price 50 to the ETF window, and once the windows are full a
    future update with best bid 0 inserts two orders. *)
Theorem regression_one_sided_book :
  RollingRegression.etf_prices
    (fst (@RollingRegression.on_order_book_update_message Reference.numerics
            ETF [100] [0] 0%Q 0%Q RollingRegression.init))
  = [50]
  /\ (let st := fst (@RollingRegression.run Reference.venue Reference.numerics
                       RollingRegression.init
                       Reference.regression_five_cycles) in
      let r := @RollingRegression.on_order_book_update_message
                 Reference.numerics FUTURE [45600] [0] 0%Q 0%Q st in
      last (RollingRegression.fut_prices (fst r)) = Some 22800
      /\ snd r = [send_cancel_order 3; send_cancel_order 4;
                  send_insert_order 11 BUY 22700 10 GOOD_FOR_DAY;
                  send_insert_order 12 SELL 22800 10 GOOD_FOR_DAY]).
Proof.
  split; [reflexivity|]. cbv zeta. split; vm_compute; reflexivity.
Qed.

(** ** The cancel timer of the volatility trader *)

(** [cancel_order] calls nothing, whatever the clock and the deque. *)
Lemma cancel_order_silent (clock : list Q) (id : Z) (call_times : list Q) :
  fst (snd (DynamicSpread.cancel_order clock id call_times)) = [].
Proof.
  revert call_times. induction clock as [|now clock IH]; intros call_times;
    [reflexivity|].
  simpl. unfold Throttler.throttler.
  destruct (Throttler.record_call call_times now) as [c|]; [|reflexivity].
  specialize (IH c).
  destruct (DynamicSpread.cancel_order clock id c) as [c' [acts o]].
  exact IH.
Qed.

(** C5, on the code.  The first quoting cycle inserts order 1 and
    schedules [cancel_order 1]; when the timer fires, [cancel_order] calls
    its own wrapper until the limiter, 47 readings later, rejects the
    call: the deque is full, the call returns, and no [send_cancel_order]
    was made, for this clock as for any other. *)
Theorem cancel_order_never_cancels :
  (let r := @DynamicSpread.run Reference.venue Reference.numerics
              DynamicSpread.init
              [DynamicSpread.OrderBookUpdate FUTURE [10000] [10000] 0%Q 0%Q;
               DynamicSpread.CancelTimer (repeat 10%Q 48) 1] in
   snd r = [send_insert_order 1 BUY 9900 10 GOOD_FOR_DAY;
            call_later 10 (cb_cancel_order 1);
            send_insert_order 2 SELL 10000 10 GOOD_FOR_DAY;
            call_later 10 (cb_cancel_order 2)]
   /\ DynamicSpread.cancel_call_times (fst r) = repeat 10%Q 47)
  /\ DynamicSpread.cancel_order (repeat 10%Q 48) 1 []
     = (repeat 10%Q 47, ([], Core.Returned))
  /\ (forall (clock : list Q) (id : Z) (call_times : list Q),
         fst (snd (DynamicSpread.cancel_order clock id call_times)) = []).
Proof.
  split; [|split].
  - cbv zeta. split; vm_compute; reflexivity.
  - vm_compute. reflexivity.
  - apply cancel_order_silent.
Qed.

(** ** Prices *)

Section PriceFacts.

Lemma adjust_price_on_tick (p : Q) : adjust_price p mod 100 = 0.
Proof. unfold adjust_price, TICK_SIZE_IN_CENTS. apply Z.mod_mul. lia. Qed.

Lemma adjust_price_rounds_down (p : Q) :
  (inject_Z (adjust_price p) <= p)%Q
  /\ (p < inject_Z (adjust_price p) + 100)%Q.
Proof.
  unfold adjust_price, TICK_SIZE_IN_CENTS.
  set (x := (p / inject_Z 100)%Q).
  assert (p == x * 100)%Q as Hp by (unfold x; field).
  pose proof (Qfloor_le x) as Hle. pose proof (Qlt_floor x) as Hlt.
  rewrite inject_Z_plus in Hlt. rewrite inject_Z_mult.
  change (inject_Z 1) with 1%Q in Hlt. change (inject_Z 100) with 100%Q.
  split; lra.
Qed.

Lemma adjust_price_integer (n : Z) :
  adjust_price (inject_Z n) = n - n mod 100.
Proof.
  unfold adjust_price, TICK_SIZE_IN_CENTS, Qfloor, Qdiv, Qmult, Qinv, inject_Z.
  simpl. change (Z.pos (1 * 100)) with 100. rewrite Z.mul_1_r.
  pose proof (Z.div_mod n 100). lia.
Qed.

Lemma adjust_price_sign (p : Q) : (0 <= p)%Q <-> 0 <= adjust_price p.
Proof.
  destruct (adjust_price_rounds_down p) as [Hle Hlt].
  pose proof (adjust_price_on_tick p) as Htick.
  split; intros H.
  - destruct (Z.lt_ge_cases (adjust_price p) 0) as [Hneg|Hpos]; [|exact Hpos].
    exfalso.
    assert (adjust_price p <= -100) as Hlow.
    { apply Z.mod_divide in Htick as [k Hk]; lia. }
    assert (inject_Z (adjust_price p) <= inject_Z (-100))%Q as Hq
      by (rewrite <- Zle_Qle; exact Hlow).
    change (inject_Z (-100)) with (-100)%Q in Hq. lra.
  - assert (inject_Z 0 <= inject_Z (adjust_price p))%Q as Hq
      by (rewrite <- Zle_Qle; exact H).
    change (inject_Z 0) with 0%Q in Hq. lra.
Qed.

Context `{Venue} `{Numerics}.

Lemma dynamic_quote_prices_on_tick (position mid_price : Z) (vol : Q) :
  fst (DynamicSpread.quote_prices position mid_price vol) mod 100 = 0
  /\ snd (DynamicSpread.quote_prices position mid_price vol) mod 100 = 0.
Proof.
  unfold DynamicSpread.quote_prices.
  destruct (DynamicSpread.ORDER_THRESHOLD <? position);
    [|destruct (position <? - DynamicSpread.ORDER_THRESHOLD)];
    (destruct (DynamicSpread.REBALANCING_THRESHOLD <=? position);
     [|destruct (position <=? - DynamicSpread.REBALANCING_THRESHOLD)]);
    simpl; split; apply adjust_price_on_tick.
Qed.

Lemma regression_quote_prices_on_tick (mid_price : Z) (spread : list Q) :
  fst (RollingRegression.quote_prices mid_price spread) mod 100 = 0
  /\ snd (RollingRegression.quote_prices mid_price spread) mod 100 = 0.
Proof.
  unfold RollingRegression.quote_prices.
  destruct (RollingRegression.above_band spread);
    [|destruct (RollingRegression.below_band spread)];
    simpl; split; apply adjust_price_on_tick.
Qed.

Lemma throttled_send_priced :
  Core.priced_send DynamicSpread.send_throttled
  /\ Core.priced_send RollingRegression.send_throttled.
Proof.
  split; intros now id side price volume s x p;
    unfold DynamicSpread.send_throttled, RollingRegression.send_throttled,
      Throttler.throttler;
    (destruct (Throttler.record_call (Core.call_times s) now) as [c|];
     [|intros []]);
    (destruct (Core.track_order id side (Core.set_call_times c s));
     [|intros []]); simpl; intros Hin Hp;
    repeat (destruct Hin as [<-|Hin]; [simpl in Hp; congruence|]);
    destruct Hin.
Qed.

Lemma evict_no_price (s : Core.Trader) (x : Action) :
  In x (snd (Core.evict_bid s)) \/ In x (snd (Core.evict_ask s)) ->
  Core.action_price x = None.
Proof.
  unfold Core.evict_bid, Core.evict_ask.
  destruct (4 <=? length (Core.bidq s))%nat, (4 <=? length (Core.askq s))%nat,
    (Core.bidq s), (Core.askq s); simpl; intros [Hin|Hin];
    repeat (destruct Hin as [<-|Hin]; [reflexivity|]); destruct Hin.
Qed.

Lemma guarded_send_priced send (c : bool) (t : Q) (i : Z) (sd : Side)
    (pr v : Z) (s0 s2 : Core.Trader) (x : Action) (p : Z) :
  Core.priced_send send ->
  In x (snd (if c then send t i sd pr v s0 else (s2, []))) ->
  Core.action_price x = Some p -> c = true /\ p = pr.
Proof.
  intros Hsend. destruct c; [|intros []].
  intros Hin Hp. split; [reflexivity|]. eapply Hsend; eassumption.
Qed.

(** The prices a quoting cycle passes on are the two it was given, and
    not 0. *)
Lemma quote_prices_passed send (nb na : Z) (t_bid t_ask : Q) (s : Core.Trader)
    (x : Action) (p : Z) :
  Core.priced_send send ->
  In x (snd (Core.quote send nb na t_bid t_ask s)) ->
  Core.action_price x = Some p -> (p = nb \/ p = na) /\ p <> 0.
Proof.
  intros Hsend. unfold Core.quote.
  pose proof (fun y Hy => evict_no_price s y (or_introl Hy)) as Hc1.
  destruct (Core.evict_bid s) as [s1 c1].
  pose proof (fun y Hy => evict_no_price s1 y (or_intror Hy)) as Hc2.
  destruct (Core.evict_ask s1) as [s2 c2]. simpl in Hc1, Hc2.
  match goal with
  | |- context [if ?c then send ?t ?i ?sd ?pr ?v ?s0 else (s2, [])] =>
      pose proof (fun y q =>
                    guarded_send_priced send c t i sd pr v s0 s2 y q Hsend)
        as H3;
      destruct (if c then send t i sd pr v s0 else (s2, [])) as [s3 c3]
  end.
  match goal with
  | |- context [if ?c then send ?t ?i ?sd ?pr ?v ?s0 else (s3, [])] =>
      pose proof (fun y q =>
                    guarded_send_priced send c t i sd pr v s0 s3 y q Hsend)
        as H4;
      destruct (if c then send t i sd pr v s0 else (s3, [])) as [s4 c4]
  end.
  simpl in *. intros Hin Hp.
  apply in_app_or in Hin as [Hin|Hin];
    [rewrite (Hc1 x Hin) in Hp; discriminate|].
  apply in_app_or in Hin as [Hin|Hin];
    [rewrite (Hc2 x Hin) in Hp; discriminate|].
  apply in_app_or in Hin as [Hin|Hin].
  - destruct (H3 x p Hin Hp) as [Hc ->].
    apply andb_true_iff in Hc as [Hc _].
    apply negb_true_iff, Z.eqb_neq in Hc. auto.
  - destruct (H4 x p Hin Hp) as [Hc ->].
    apply andb_true_iff in Hc as [Hc _].
    apply negb_true_iff, Z.eqb_neq in Hc. auto.
Qed.

End PriceFacts.

Section GatewayPrices.

Context `{Venue} `{Numerics}.

Lemma check_hedge_prices (now : Q) (s : Core.Trader) (x : Action) (p : Z) :
  In x (snd (Core.check_hedge now s)) -> Core.action_price x = Some p ->
  p mod 100 = 0 /\ Core.is_insert x = false
  /\ (0 <= MINIMUM_BID -> 0 <= MAXIMUM_ASK -> 0 <= p).
Proof.
  unfold Core.check_hedge. destruct (Core.hedge_time s) as [t|].
  - destruct (_ && _).
    + destruct (0 <? Core.hedge_balance s); simpl;
        (intros [<-|[<-|[]]]; simpl; [|discriminate]); intros [= <-];
        unfold MAX_ASK_NEAREST_TICK, MIN_BID_NEAREST_TICK, TICK_SIZE_IN_CENTS;
        (split; [apply Z.mod_mul; lia|split; [reflexivity|]]);
        intros Hb Ha.
      * pose proof (Z.div_pos MAXIMUM_ASK 100 Ha). lia.
      * pose proof (Z.div_pos (MINIMUM_BID + 100) 100). lia.
    + simpl. intros [<-|[]]. discriminate.
  - simpl. intros [<-|[]]. discriminate.
Qed.

Lemma quote_action_prices send (nb na : Z) (t_bid t_ask : Q) (s : Core.Trader)
    (x : Action) (p : Z) :
  Core.priced_send send -> nb mod 100 = 0 -> na mod 100 = 0 ->
  In x (snd (Core.quote send nb na t_bid t_ask s)) ->
  Core.action_price x = Some p -> p mod 100 = 0 /\ p <> 0.
Proof.
  intros Hsend Hnb Hna Hin Hp.
  destruct (quote_prices_passed send nb na t_bid t_ask s x p Hsend Hin Hp)
    as [[-> | ->] Hne]; auto.
Qed.

Lemma dynamic_book_update_prices (i : Instrument) (a b : list Z)
    (t_bid t_ask : Q) (st : DynamicSpread.State) (x : Action) (p : Z) :
  In x (snd (DynamicSpread.on_order_book_update_message i a b t_bid t_ask st)) ->
  Core.action_price x = Some p -> p mod 100 = 0 /\ p <> 0.
Proof.
  unfold DynamicSpread.on_order_book_update_message.
  destruct (_ && _); [|intros []].
  match goal with
  | |- context [DynamicSpread.quote_prices ?pos ?mid ?vol] =>
      pose proof (dynamic_quote_prices_on_tick pos mid vol) as [Hb Ha];
      destruct (DynamicSpread.quote_prices pos mid vol) as [nb na]
  end.
  simpl in Hb, Ha.
  pose proof (quote_action_prices DynamicSpread.send_throttled nb na t_bid t_ask
                (DynamicSpread.trader st) x p (proj1 throttled_send_priced)
                Hb Ha) as Hq.
  destruct (Core.quote _ _ _ _ _ _) as [s' acts]. exact Hq.
Qed.

Lemma regression_book_update_prices (i : Instrument) (a b : list Z)
    (t_bid t_ask : Q) (st : RollingRegression.State) (x : Action) (p : Z) :
  In x (snd (RollingRegression.on_order_book_update_message i a b t_bid t_ask
               st)) ->
  Core.action_price x = Some p -> p mod 100 = 0 /\ p <> 0.
Proof.
  unfold RollingRegression.on_order_book_update_message.
  destruct (_ && _); [intros []|].
  destruct i; [|intros []].
  destruct (RollingRegression.calculate_hedge_ratio _ _) as [h|]; [|intros []].
  destruct (_ && _); [|intros []].
  match goal with
  | |- context [RollingRegression.quote_prices ?mid ?sp] =>
      pose proof (regression_quote_prices_on_tick mid sp) as [Hb Ha];
      destruct (RollingRegression.quote_prices mid sp) as [nb na]
  end.
  simpl in Hb, Ha.
  pose proof (quote_action_prices RollingRegression.send_throttled nb na t_bid
                t_ask (RollingRegression.trader st) x p
                (proj2 throttled_send_priced) Hb Ha) as Hq.
  destruct (Core.quote _ _ _ _ _ _) as [s' acts]. exact Hq.
Qed.

Lemma throttled_send_no_hedge (id0 : Z) (side0 : Side) (p0 v0 : Z) :
  (forall now id side price volume s,
      ~ In (send_hedge_order id0 side0 p0 v0)
          (snd (DynamicSpread.send_throttled now id side price volume s)))
  /\ (forall now id side price volume s,
         ~ In (send_hedge_order id0 side0 p0 v0)
             (snd (RollingRegression.send_throttled now id side price volume s))).
Proof.
  split; intros now id side price volume s;
    unfold DynamicSpread.send_throttled, RollingRegression.send_throttled,
      Throttler.throttler;
    (destruct (Throttler.record_call (Core.call_times s) now) as [c|];
     [|intros []]);
    (destruct (Core.track_order id side (Core.set_call_times c s));
     [|intros []]); simpl; intros Hin;
    repeat (destruct Hin as [Heq|Hin]; [discriminate|]); destruct Hin.
Qed.

Lemma quote_no_hedge send (nb na : Z) (t_bid t_ask : Q) (s : Core.Trader)
    (id0 : Z) (side0 : Side) (p0 v0 : Z) :
  (forall now id side price volume s',
      ~ In (send_hedge_order id0 side0 p0 v0)
          (snd (send now id side price volume s'))) ->
  ~ In (send_hedge_order id0 side0 p0 v0)
      (snd (Core.quote send nb na t_bid t_ask s)).
Proof.
  intros Hsend. unfold Core.quote.
  pose proof (fun y Hy => evict_no_price s y (or_introl Hy)) as Hc1.
  destruct (Core.evict_bid s) as [s1 c1].
  pose proof (fun y Hy => evict_no_price s1 y (or_intror Hy)) as Hc2.
  destruct (Core.evict_ask s1) as [s2 c2]. simpl in Hc1, Hc2.
  match goal with
  | |- context [if ?c then send ?t ?i ?sd ?pr ?v ?s0 else (s2, [])] =>
      assert (~ In (send_hedge_order id0 side0 p0 v0)
                (snd (if c then send t i sd pr v s0 else (s2, [])))) as H3
        by (destruct c; [apply Hsend|intros []]);
      destruct (if c then send t i sd pr v s0 else (s2, [])) as [s3 c3]
  end.
  match goal with
  | |- context [if ?c then send ?t ?i ?sd ?pr ?v ?s0 else (s3, [])] =>
      assert (~ In (send_hedge_order id0 side0 p0 v0)
                (snd (if c then send t i sd pr v s0 else (s3, [])))) as H4
        by (destruct c; [apply Hsend|intros []]);
      destruct (if c then send t i sd pr v s0 else (s3, [])) as [s4 c4]
  end.
  simpl in *. intros Hin.
  apply in_app_or in Hin as [Hin|Hin]; [specialize (Hc1 _ Hin); discriminate|].
  apply in_app_or in Hin as [Hin|Hin]; [specialize (Hc2 _ Hin); discriminate|].
  apply in_app_or in Hin as [Hin|Hin]; tauto.
Qed.

End GatewayPrices.

(** C8, as the code has it.  [adjust_price] rounds down to a multiple of
    100: its result is a multiple of 100 within 100 below its argument, it
    is [p - p mod 100] on every integer [p], and it is negative exactly
    when its argument is.  Every price either trader passes to
    [send_insert_order] or [send_hedge_order] is a multiple of 100; a price
    passed to [send_insert_order] is not 0, and one passed to
    [send_hedge_order] is not negative when the venue's limits are not. *)
Theorem gateway_prices_on_tick `{Venue} `{Numerics} :
  (forall p : Q,
      adjust_price p mod 100 = 0
      /\ (inject_Z (adjust_price p) <= p)%Q
      /\ (p < inject_Z (adjust_price p) + 100)%Q
      /\ ((0 <= p)%Q <-> 0 <= adjust_price p))
  /\ (forall p : Z, adjust_price (inject_Z p) = p - p mod 100)
  /\ (forall (st : DynamicSpread.State) (e : DynamicSpread.Event)
             (x : Action) (p : Z),
         In x (snd (DynamicSpread.step st e)) ->
         Core.action_price x = Some p ->
         p mod 100 = 0
         /\ (Core.is_insert x = true -> p <> 0)
         /\ (Core.is_insert x = false ->
             0 <= MINIMUM_BID -> 0 <= MAXIMUM_ASK -> 0 <= p))
  /\ (forall (st : RollingRegression.State) (e : RollingRegression.Event)
             (x : Action) (p : Z),
         In x (snd (RollingRegression.step st e)) ->
         Core.action_price x = Some p ->
         p mod 100 = 0
         /\ (Core.is_insert x = true -> p <> 0)
         /\ (Core.is_insert x = false ->
             0 <= MINIMUM_BID -> 0 <= MAXIMUM_ASK -> 0 <= p)).
Proof.
  split; [|split; [|split]].
  - intros p. destruct (adjust_price_rounds_down p) as [Hle Hlt].
    split; [apply adjust_price_on_tick|].
    split; [exact Hle|split; [exact Hlt|apply adjust_price_sign]].
  - apply adjust_price_integer.
  - intros st e x p.
    destruct e as [i a b tb ta|now id pr v|id f r fees|id| | |now|clock id];
      simpl; try (intros []).
    + intros Hin Hp.
      destruct (dynamic_book_update_prices i a b tb ta st x p Hin Hp)
        as [Ht Hne].
      split; [exact Ht|split; [intros _; exact Hne|]].
      destruct x; simpl in *; try discriminate.
      exfalso. clear Ht Hne Hp.
      destruct (dynamic_book_update_cases i a b tb ta st)
        as [[_ Hnil]|(nb & na & Hq)]; [rewrite Hnil in Hin; destruct Hin|].
      apply (f_equal snd) in Hq. simpl in Hq. rewrite Hq in Hin.
      revert Hin. apply quote_no_hedge.
      apply (proj1 (throttled_send_no_hedge _ _ _ _)).
    + pose proof (check_hedge_prices now (DynamicSpread.trader st) x p) as Hh.
      destruct (Core.check_hedge now (DynamicSpread.trader st)) as [s1 acts].
      simpl in *. intros Hin Hp. destruct (Hh Hin Hp) as (Ht & Hi & Hn).
      split; [exact Ht|split; [congruence|intros _; exact Hn]].
    + pose proof (cancel_order_silent clock id
                    (DynamicSpread.cancel_call_times st)) as Hs.
      destruct (DynamicSpread.cancel_order clock id _) as [c [acts o]].
      simpl in *. subst acts. intros [].
  - intros st e x p.
    destruct e as [i a b tb ta|now id pr v|id f r fees|id| | |now];
      simpl; try (intros []).
    + intros Hin Hp.
      destruct (regression_book_update_prices i a b tb ta st x p Hin Hp)
        as [Ht Hne].
      split; [exact Ht|split; [intros _; exact Hne|]].
      destruct x; simpl in *; try discriminate.
      exfalso. clear Ht Hne Hp.
      destruct (regression_book_update_cases i a b tb ta st)
        as [[_ Hnil]|(nb & na & Hq)]; [rewrite Hnil in Hin; destruct Hin|].
      apply (f_equal snd) in Hq. simpl in Hq. rewrite Hq in Hin.
      revert Hin. apply quote_no_hedge.
      apply (proj2 (throttled_send_no_hedge _ _ _ _)).
    + pose proof (check_hedge_prices now (RollingRegression.trader st) x p)
        as Hh.
      destruct (Core.check_hedge now (RollingRegression.trader st))
        as [s1 acts].
      simpl in *. intros Hin Hp. destruct (Hh Hin Hp) as (Ht & Hi & Hn).
      split; [exact Ht|split; [congruence|intros _; exact Hn]].
Qed.

(** The volatility trader after a book at 1000000 and a book at 100: the
    window [1000000; 100] has standard deviation 499950, the spread
    fraction is 0.0011 + 0.5 * 499950 / 100, and the bid of the second
    cycle goes out at a negative price. *)
Lemma negative_quote_price :
  (Reference.std [inject_Z 1000000; inject_Z 100] == inject_Z 499950)%Q
  /\ In (send_insert_order 3 BUY (-249900) 10 GOOD_FOR_DAY)
       (snd (@DynamicSpread.run Reference.venue Reference.numerics
               DynamicSpread.init
               [DynamicSpread.OrderBookUpdate FUTURE [1000000] [1000000]
                  0%Q 0%Q;
                DynamicSpread.OrderBookUpdate FUTURE [100] [100] 1%Q 1%Q])).
Proof.
  split; [vm_compute; reflexivity|].
  vm_compute. do 4 right. left. reflexivity.
Qed.

(** The same run: its negative bid is a multiple of 100 all the same, and
    with the venue's limits 1 and 2147483647 a hedge price is not
    negative. *)
Lemma gateway_prices_on_tick_witness :
  (-249900) mod 100 = 0
  /\ (0 <= @MINIMUM_BID Reference.venue -> 0 <= @MAXIMUM_ASK Reference.venue ->
      0 <= 2147483600).
Proof.
  pose proof (@gateway_prices_on_tick Reference.venue Reference.numerics)
    as (_ & _ & Hstep & _).
  split.
  - refine (proj1 (Hstep
      (fst (@DynamicSpread.step Reference.venue Reference.numerics
              DynamicSpread.init
              (DynamicSpread.OrderBookUpdate FUTURE [1000000] [1000000]
                 0%Q 0%Q)))
      (DynamicSpread.OrderBookUpdate FUTURE [100] [100] 1%Q 1%Q)
      (send_insert_order 3 BUY (-249900) 10 GOOD_FOR_DAY) (-249900) _ _)).
    + vm_compute. left. reflexivity.
    + reflexivity.
  - refine (proj2 (proj2 (Hstep
      (DynamicSpread.with_trader
         (Core.set_hedge (-15) 15 (Some 0%Q) Core.init) DynamicSpread.init)
      (DynamicSpread.CheckHedge 59%Q)
      (send_hedge_order 1 BUY 2147483600 5) 2147483600 _ _)) _).
    + vm_compute. left. reflexivity.
    + reflexivity.
    + reflexivity.
Defined.

(** ** The regression scenario *)

Section RegressionScenario.

Let etf : list Z := [100; 101; 102; 103; 104; 105; 106; 107; 108; 109].
Let fut : list Z := [200; 202; 204; 206; 208; 210; 212; 214; 216; 218].

(** With the reference kernels the scenario of C4 gives slope 2, and then
    a spread series of -3 times the ETF prices, whose last value -327 lies
    below the mean -313.5 less the standard deviation 8.6168...: the
    series is nowhere near 0 and the latest spread is not inside the
    band. *)
Lemma regression_scenario_spread :
  @RollingRegression.calculate_hedge_ratio Reference.numerics
    [100; 101; 102; 103; 104; 105; 106; 107; 108; 109]
    [200; 202; 204; 206; 208; 210; 212; 214; 216; 218]
  = Some 2%Q
  /\ map Qred (RollingRegression.spread_series 2
                 [100; 101; 102; 103; 104; 105; 106; 107; 108; 109]
                 [200; 202; 204; 206; 208; 210; 212; 214; 216; 218])
     = map inject_Z [-300; -303; -306; -309; -312; -315; -318; -321; -324; -327]
  /\ @RollingRegression.below_band Reference.numerics
       (RollingRegression.spread_series 2
          [100; 101; 102; 103; 104; 105; 106; 107; 108; 109]
          [200; 202; 204; 206; 208; 210; 212; 214; 216; 218])
     = true.
Proof. repeat split; vm_compute; reflexivity. Qed.

(** C4, as the code has it: for every numeric kernel whose fit of the
    scenario's windows has a slope within 0.001 of 2 and whose standard
    deviation of the resulting spread series lies in [0, 13), the hedge
    ratio is that slope, the spread series is within 0.25 of -300, -303,
    ..., -327, its last value is below mean - std, and the cycle takes the
    branch with the conservative spread on the bid and the normal spread
    on the ask; at the scenario's mid-price 218, the last price of the
    future window, both quotes are 200 and a fresh trader inserts a bid
    and an ask at 200.  The line 2 x + 0 fits the windows with no
    residual, and the closed-form least-squares slope is 2. *)
Theorem regression_scenario `{Numerics} (t_bid t_ask : Q) :
  let h := np_polyfit_slope (map inject_Z etf) (map inject_Z fut) in
  let spread := RollingRegression.spread_series h etf fut in
  (2 - (1 # 1000) <= h)%Q -> (h <= 2 + (1 # 1000))%Q ->
  (0 <= np_std spread)%Q -> (np_std spread < 13)%Q ->
  RollingRegression.calculate_hedge_ratio etf fut = Some h
  /\ Forall2 (fun x y => (inject_Z y - (1 # 4) <= x)%Q
                         /\ (x <= inject_Z y + (1 # 4))%Q)
       spread [-300; -303; -306; -309; -312; -315; -318; -321; -324; -327]
  /\ RollingRegression.above_band spread = false
  /\ RollingRegression.below_band spread = true
  /\ RollingRegression.quote_prices 218 spread = (200, 200)
  /\ snd (RollingRegression.on_order_book_update_message FUTURE [218] [218]
            t_bid t_ask
            {| RollingRegression.trader := Core.init;
               RollingRegression.etf_prices := etf;
               RollingRegression.fut_prices :=
                 [200; 202; 204; 206; 208; 210; 212; 214; 216] |})
     = [send_insert_order 1 BUY 200 10 GOOD_FOR_DAY;
        send_insert_order 2 SELL 200 10 GOOD_FOR_DAY]
  /\ (Reference.residual 2 0 (map inject_Z etf) (map inject_Z fut) == 0)%Q
  /\ (Reference.least_squares_slope (map inject_Z etf) (map inject_Z fut) == 2)%Q.
Proof.
  cbv zeta. set (h := np_polyfit_slope (map inject_Z etf) (map inject_Z fut)).
  intros Hlo Hhi Hstd0 Hstd.
  assert (Forall2 (fun x y => (inject_Z y - (1 # 4) <= x)%Q
                              /\ (x <= inject_Z y + (1 # 4))%Q)
            (RollingRegression.spread_series h etf fut)
            [-300; -303; -306; -309; -312; -315; -318; -321; -324; -327])
    as Hspread.
  { unfold RollingRegression.spread_series, etf, fut. simpl.
    repeat constructor; unfold inject_Z; lra. }
  assert (np_mean (RollingRegression.spread_series h etf fut)
          == (209 # 2) - 209 * h)%Q as Hmean.
  { unfold np_mean, RollingRegression.spread_series, etf, fut. simpl.
    unfold inject_Z. change (Z.of_nat 10 # 1) with 10%Q.
    unfold Qdiv. change (/ 10)%Q with (1 # 10)%Q. lra. }
  assert (List.last (RollingRegression.spread_series h etf fut) 0
          == 109 - 218 * h)%Q as Hlast.
  { unfold RollingRegression.spread_series, etf, fut. simpl.
    unfold inject_Z. lra. }
  assert (RollingRegression.above_band
            (RollingRegression.spread_series h etf fut) = false) as Habove.
  { unfold RollingRegression.above_band. apply andb_false_iff. right.
    apply Qlt_bool_false. lra. }
  assert (RollingRegression.below_band
            (RollingRegression.spread_series h etf fut) = true) as Hbelow.
  { unfold RollingRegression.below_band. apply andb_true_iff.
    split; [reflexivity|]. apply Qlt_bool_true. lra. }
  assert (RollingRegression.quote_prices 218
            (RollingRegression.spread_series h etf fut) = (200, 200)) as Hquote.
  { unfold RollingRegression.quote_prices. rewrite Habove, Hbelow.
    reflexivity. }
  split; [reflexivity|]. split; [exact Hspread|].
  split; [exact Habove|]. split; [exact Hbelow|]. split; [exact Hquote|].
  split.
  - unfold RollingRegression.on_order_book_update_message.
    change (RollingRegression.calculate_hedge_ratio _ _) with (Some h).
    cbn [nth Z.leb Z.compare Z.add Pos.add Pos.succ andb
         RollingRegression.etf_prices RollingRegression.fut_prices
         RollingRegression.trader].
    change (deque_append RollingRegression.AVG_WINDOW
              [200; 202; 204; 206; 208; 210; 212; 214; 216]
              ((218 + 218) / 2))
      with fut.
    change ((218 + 218) / 2) with 218.
    change ((0 <? length etf)%nat && (0 <? length fut)%nat) with true.
    cbv iota.
    rewrite Hquote. reflexivity.
  - split; vm_compute; reflexivity.
Qed.

(** The reference kernels meet the hypotheses. *)
Lemma regression_scenario_witness :
  @RollingRegression.quote_prices Reference.numerics 218
    (RollingRegression.spread_series
       (@np_polyfit_slope Reference.numerics (map inject_Z etf)
          (map inject_Z fut)) etf fut)
  = (200, 200).
Proof.
  refine (proj1 (proj2 (proj2 (proj2 (proj2
            (@regression_scenario Reference.numerics 0%Q 0%Q _ _ _ _)))))).
  - vm_compute. discriminate.
  - vm_compute. discriminate.
  - vm_compute. discriminate.
  - vm_compute. reflexivity.
Defined.

End RegressionScenario.

(** * Further properties of the handlers *)

(** ** Status and error callbacks *)

Lemma deque_remove_absent (id : Z) (q : list Z) :
  id ∉ q -> deque_remove id q = q.
Proof.
  induction q as [|y q IH]; simpl; intros Hq; [reflexivity|].
  destruct (Z.eqb_spec y id) as [->|Hne].
  - exfalso. apply Hq. by left.
  - f_equal. apply IH. intros Hin. apply Hq. by right.
Qed.

Lemma deque_remove_others (id x : Z) (q : list Z) :
  x <> id -> x ∈ deque_remove id q <-> x ∈ q.
Proof.
  intros Hx. induction q as [|y q IH]; simpl; [reflexivity|].
  destruct (Z.eqb_spec y id) as [->|Hne].
  - rewrite elem_of_cons. split; [auto|intros [?|?]; [contradiction|done]].
  - rewrite !elem_of_cons, IH. reflexivity.
Qed.

Lemma removed_gone (id : Z) (X : gset Z) : id ∉ X ∖ {[id]}.
Proof.
  intros Hx. apply elem_of_difference in Hx as [_ Hx]. apply Hx.
  by apply elem_of_singleton.
Qed.

Lemma removed_others (x id : Z) (X : gset Z) :
  x <> id -> x ∈ X ∖ {[id]} <-> x ∈ X.
Proof. intros Hx. rewrite elem_of_difference, elem_of_singleton. tauto. Qed.

(** X1. A status callback with remaining volume 0, in a state either
    trader reaches, takes the order out of the books: afterwards the id
    is in no set and no queue, and every other id is where it was.  With
    a remaining volume other than 0 the state is unchanged. *)
Theorem status_cleans_up `{Venue} `{Numerics} (s : Core.Trader)
    (id fill remaining fees : Z) :
  reachable_trader s ->
  let s' := Core.on_order_status_message id fill remaining fees s in
  (remaining = 0 ->
     (id ∉ Core.bids s') /\ (id ∉ Core.asks s')
     /\ (id ∉ Core.bidq s') /\ (id ∉ Core.askq s')
     /\ (forall x, x <> id ->
           (x ∈ Core.bids s' <-> x ∈ Core.bids s)
           /\ (x ∈ Core.asks s' <-> x ∈ Core.asks s)
           /\ (x ∈ Core.bidq s' <-> x ∈ Core.bidq s)
           /\ (x ∈ Core.askq s' <-> x ∈ Core.askq s))
     /\ Core.position s' = Core.position s
     /\ Core.hedge_balance s' = Core.hedge_balance s)
  /\ (remaining <> 0 -> s' = s).
Proof.
  intros Hr. apply reachable_trader_consistent in Hr as [_ Ht].
  destruct Ht as (_ & _ & Hqb & Hqa & _ & _ & Hd & Hsb & Hsa).
  cbv zeta. unfold Core.on_order_status_message, Core.on_bid_side,
    Core.on_ask_side.
  split.
  - intros ->. simpl.
    destruct (decide (id ∈ Core.bids s)) as [Hb|Hb].
    + rewrite (bool_decide_eq_true_2 _ Hb). simpl.
      assert (id ∉ Core.asks s) as Ha
        by (intros Ha; exact (proj1 (elem_of_disjoint _ _) Hd id Hb Ha)).
      assert (id ∉ Core.askq s) as Haq by (intros Hq; apply Ha, Hqa, Hq).
      split; [apply removed_gone|]. split; [exact Ha|].
      split; [by apply deque_remove_gone|]. split; [exact Haq|].
      split; [|split; reflexivity].
      intros x Hx. split; [by apply removed_others|]. split; [reflexivity|].
      split; [by apply deque_remove_others|reflexivity].
    + assert (id ∉ Core.bidq s) as Hbq by (intros Hq; apply Hb, Hqb, Hq).
      rewrite (bool_decide_eq_false_2 _ Hb), (bool_decide_eq_false_2 _ Hbq).
      simpl. destruct (decide (id ∈ Core.asks s)) as [Ha|Ha].
      * rewrite (bool_decide_eq_true_2 _ Ha). simpl.
        split; [exact Hb|]. split; [apply removed_gone|]. split; [exact Hbq|].
        split; [by apply deque_remove_gone|].
        split; [|split; reflexivity].
        intros x Hx. split; [reflexivity|]. split; [by apply removed_others|].
        split; [reflexivity|by apply deque_remove_others].
      * assert (id ∉ Core.askq s) as Haq by (intros Hq; apply Ha, Hqa, Hq).
        rewrite (bool_decide_eq_false_2 _ Ha), (bool_decide_eq_false_2 _ Haq).
        simpl. repeat split; auto.
  - intros Hne. destruct (Z.eqb_spec remaining 0); [contradiction|reflexivity].
Qed.

(** The bid of the first quoting cycle is reported done. *)
Lemma status_cleans_up_witness :
  let s := DynamicSpread.trader
             (fst (@DynamicSpread.run Reference.venue Reference.numerics
                     DynamicSpread.init
                     [DynamicSpread.OrderBookUpdate FUTURE [10000] [10000]
                        0%Q 0%Q])) in
  let s' := Core.on_order_status_message 1 10 0 0 s in
  Core.bidq s = [1] /\ (1 ∉ Core.bids s') /\ (1 ∉ Core.bidq s').
Proof.
  cbv zeta. split; [vm_compute; reflexivity|].
  refine (let H := proj1 (@status_cleans_up Reference.venue Reference.numerics
                            _ 1 10 0 0 _) eq_refl in
          conj (proj1 H) (proj1 (proj2 (proj2 H)))).
  left. eexists. split; [eexists; reflexivity|reflexivity].
Defined.

(** X2. An error callback, in a state either trader reaches, does what
    a status callback with remaining volume 0 does when the id is not 0,
    and nothing when the id is 0. *)
Theorem error_is_full_completion `{Venue} `{Numerics} (s : Core.Trader)
    (id : Z) :
  reachable_trader s ->
  (id <> 0 ->
     Core.on_error_message id s = Core.on_order_status_message id 0 0 0 s)
  /\ (id = 0 -> Core.on_error_message id s = s).
Proof.
  intros Hr. apply reachable_trader_consistent in Hr as [_ Ht].
  destruct Ht as (_ & _ & Hqb & Hqa & _).
  unfold Core.on_error_message. split.
  - intros Hne. destruct (Z.eqb_spec id 0); [contradiction|]. simpl.
    destruct (decide (id ∈ Core.bids s)) as [Hb|Hb];
      [rewrite (bool_decide_eq_true_2 _ Hb); reflexivity|].
    destruct (decide (id ∈ Core.asks s)) as [Ha|Ha];
      [rewrite (bool_decide_eq_true_2 _ Ha), orb_true_r; reflexivity|].
    rewrite (bool_decide_eq_false_2 _ Hb), (bool_decide_eq_false_2 _ Ha).
    simpl. unfold Core.on_order_status_message, Core.on_bid_side,
      Core.on_ask_side. simpl.
    assert (id ∉ Core.bidq s) as Hbq by (intros Hq; apply Hb, Hqb, Hq).
    assert (id ∉ Core.askq s) as Haq by (intros Hq; apply Ha, Hqa, Hq).
    rewrite (bool_decide_eq_false_2 _ Hb), (bool_decide_eq_false_2 _ Hbq),
      (bool_decide_eq_false_2 _ Ha), (bool_decide_eq_false_2 _ Haq).
    reflexivity.
  - intros ->. reflexivity.
Qed.

(** An error for the bid of the first quoting cycle. *)
Lemma error_is_full_completion_witness :
  let s := DynamicSpread.trader
             (fst (@DynamicSpread.run Reference.venue Reference.numerics
                     DynamicSpread.init
                     [DynamicSpread.OrderBookUpdate FUTURE [10000] [10000]
                        0%Q 0%Q])) in
  Core.on_error_message 1 s = Core.on_order_status_message 1 0 0 0 s.
Proof.
  cbv zeta.
  refine (proj1 (@error_is_full_completion Reference.venue Reference.numerics
                   _ 1 _) _); [|discriminate].
  left. eexists. split; [eexists; reflexivity|reflexivity].
Defined.

(** ** The regression trader's warm-up *)

(** X3. The regression trader calls nothing on a book update of the ETF,
    and nothing on a book update of the future while the ETF window
    holds fewer than 10 prices or the future window fewer than 9: it
    quotes only from the update that gives both windows 10 prices.  The
    shared fields are unchanged in these cases, and the window of the
    instrument grows by the mid-price unless both best prices are
    non-positive. *)
Theorem regression_warm_up `{Numerics} (i : Instrument) (a b : list Z)
    (t_bid t_ask : Q) (st : RollingRegression.State) :
  i = ETF \/ (length (RollingRegression.etf_prices st) < 10)%nat
  \/ (length (RollingRegression.fut_prices st) < 9)%nat ->
  let r := RollingRegression.on_order_book_update_message i a b t_bid t_ask st in
  snd r = [] /\ RollingRegression.trader (fst r) = RollingRegression.trader st
  /\ (nth 0 b 0 > 0 \/ nth 0 a 0 > 0 ->
      match i with
      | ETF =>
          RollingRegression.etf_prices (fst r)
          = deque_append 10%nat (RollingRegression.etf_prices st)
              ((nth 0 b 0 + nth 0 a 0) / 2)
          /\ RollingRegression.fut_prices (fst r) = RollingRegression.fut_prices st
      | FUTURE =>
          RollingRegression.fut_prices (fst r)
          = deque_append 10%nat (RollingRegression.fut_prices st)
              ((nth 0 b 0 + nth 0 a 0) / 2)
          /\ RollingRegression.etf_prices (fst r) = RollingRegression.etf_prices st
      end).
Proof.
  intros Hcold. cbv zeta.
  unfold RollingRegression.on_order_book_update_message.
  destruct (Z.leb_spec (nth 0 b 0) 0) as [Hb|Hb];
    [destruct (Z.leb_spec (nth 0 a 0) 0) as [Ha|Ha]|]; simpl andb; cbv iota.
  - split; [reflexivity|split; [reflexivity|]]. lia.
  - destruct i.
    + destruct Hcold as [Hi|Hcold]; [discriminate|].
      unfold RollingRegression.calculate_hedge_ratio,
        RollingRegression.HEDGE_RATIO_LOOKBACK, RollingRegression.AVG_WINDOW.
      assert ((length (RollingRegression.etf_prices st) <? 10)%nat
              || (length (deque_append 10%nat (RollingRegression.fut_prices st)
                            ((nth 0 b 0 + nth 0 a 0) / 2)%Z) <? 10)%nat = true)
        as ->.
      { apply orb_true_iff. destruct Hcold as [He|Hf].
        - left. by apply Nat.ltb_lt.
        - right. apply Nat.ltb_lt. unfold deque_append.
          destruct (Nat.ltb_spec (length (RollingRegression.fut_prices st)) 10);
            [|lia].
          rewrite length_app. simpl. lia. }
      simpl. auto.
    + simpl. auto.
  - destruct i.
    + destruct Hcold as [Hi|Hcold]; [discriminate|].
      unfold RollingRegression.calculate_hedge_ratio,
        RollingRegression.HEDGE_RATIO_LOOKBACK, RollingRegression.AVG_WINDOW.
      assert ((length (RollingRegression.etf_prices st) <? 10)%nat
              || (length (deque_append 10%nat (RollingRegression.fut_prices st)
                            ((nth 0 b 0 + nth 0 a 0) / 2)%Z) <? 10)%nat = true)
        as ->.
      { apply orb_true_iff. destruct Hcold as [He|Hf].
        - left. by apply Nat.ltb_lt.
        - right. apply Nat.ltb_lt. unfold deque_append.
          destruct (Nat.ltb_spec (length (RollingRegression.fut_prices st)) 10);
            [|lia].
          rewrite length_app. simpl. lia. }
      simpl. auto.
    + simpl. auto.
Qed.

(** The first book update of the future. *)
Lemma regression_warm_up_witness :
  snd (@RollingRegression.on_order_book_update_message Reference.numerics
         FUTURE [20000] [20000] 0%Q 0%Q RollingRegression.init) = [].
Proof.
  refine (proj1 (@regression_warm_up Reference.numerics FUTURE [20000] [20000]
                   0%Q 0%Q RollingRegression.init _)).
  right. left. simpl. lia.
Defined.

(** ** Rounding twice, and the order of the regression quotes *)

Lemma adjust_price_monotone (p q : Q) :
  (p <= q)%Q -> adjust_price p <= adjust_price q.
Proof.
  intros Hpq. unfold adjust_price, TICK_SIZE_IN_CENTS.
  apply Z.mul_le_mono_nonneg_r; [lia|]. apply Qfloor_resp_le.
  unfold Qdiv. apply Qmult_le_compat_r; [exact Hpq|]. discriminate.
Qed.


(** X5. For a non-negative mid-price the regression trader's bid is never
    above its ask, in every branch and for every numeric kernel. *)
Theorem regression_bid_below_ask `{Numerics} (mid_price : Z) (spread : list Q) :
  0 <= mid_price ->
  fst (RollingRegression.quote_prices mid_price spread)
  <= snd (RollingRegression.quote_prices mid_price spread).
Proof.
  intros Hmid.
  assert (0 <= inject_Z mid_price)%Q as Hm
    by (change 0%Q with (inject_Z 0); rewrite <- Zle_Qle; exact Hmid).
  unfold RollingRegression.quote_prices, RollingRegression.NORMAL_SPREAD,
    RollingRegression.CONSERVATIVE_SPREAD.
  destruct (RollingRegression.above_band spread);
    [|destruct (RollingRegression.below_band spread)]; simpl;
    apply adjust_price_monotone; rewrite <- Zle_Qle;
    apply adjust_price_monotone; nra.
Qed.

(** A mid-price of 21800. *)
Lemma regression_bid_below_ask_witness :
  fst (@RollingRegression.quote_prices Reference.numerics 21800 [])
  <= snd (@RollingRegression.quote_prices Reference.numerics 21800 []).
Proof.
  apply (@regression_bid_below_ask Reference.numerics 21800 []). lia.
Defined.

(** ** More on the limiter *)

Lemma record_call_length (call_times call_times' : list Q) (now : Q) :
  (length call_times <= Throttler.max_calls)%nat ->
  Throttler.record_call call_times now = Some call_times' ->
  (length call_times' <= Throttler.max_calls)%nat.
Proof.
  unfold Throttler.record_call, deque_append. intros Hlen.
  destruct (Throttler.saturated call_times now); [discriminate|].
  intros [= <-].
  destruct (Nat.ltb_spec (length call_times) Throttler.max_calls).
  - rewrite length_app. simpl. lia.
  - rewrite length_app. unfold Throttler.max_calls in *.
    destruct call_times; simpl in *; lia.
Qed.

Lemma calls_burst (nows acc : list Q) :
  (length acc + length nows <= Throttler.max_calls)%nat ->
  Throttler.calls acc acc nows = (acc ++ nows, acc ++ nows).
Proof.
  revert acc. induction nows as [|now rest IH]; intros acc Hlen.
  - simpl. rewrite app_nil_r. reflexivity.
  - simpl in *. unfold Throttler.record_call, Throttler.saturated, deque_append.
    destruct (Nat.eqb_spec (length acc) Throttler.max_calls) as [Heq|_];
      [unfold Throttler.max_calls in *; lia|].
    simpl andb. cbv iota.
    destruct (Nat.ltb_spec (length acc) Throttler.max_calls); [|lia].
    rewrite IH by (rewrite length_app; simpl; lia).
    rewrite <- app_assoc. reflexivity.
Qed.

(** X6. The first 47 calls through a fresh limiter are accepted whatever
    the clock says, and the limiter's deque never holds more than 47
    readings. *)
Theorem limiter_burst_and_bound :
  (forall nows : list Q,
      (length nows <= 47)%nat -> Throttler.accepted_calls nows = nows)
  /\ (forall call_times accepted nows : list Q,
         (length call_times <= 47)%nat ->
         (length (fst (Throttler.calls call_times accepted nows)) <= 47)%nat).
Proof.
  split.
  - intros nows Hlen. unfold Throttler.accepted_calls.
    rewrite (calls_burst nows []) by exact Hlen. reflexivity.
  - intros call_times accepted nows. revert call_times accepted.
    induction nows as [|now rest IH]; intros call_times accepted Hlen;
      [exact Hlen|].
    simpl. destruct (Throttler.record_call call_times now) as [c|] eqn:Hrec.
    + apply IH. eapply record_call_length; eauto.
    + apply IH. exact Hlen.
Qed.

(** Three calls, the clock running backwards. *)
Lemma limiter_burst_and_bound_witness :
  Throttler.accepted_calls [5; 3; 1]%Q = [5; 3; 1]%Q.
Proof. apply (proj1 limiter_burst_and_bound [5; 3; 1]%Q). simpl. lia. Defined.

(** ** More on the hedge check *)

(** X7. [check_hedge] re-arms its timer with one [call_later 1] as its
    last call and leaves the position alone.  A hedge order it sends has
    a positive volume and takes the next order id.  Right after a check
    that sent a hedge order, another check at any time sends nothing and
    changes nothing. *)
Theorem check_hedge_rearms `{Venue} (now : Q) (s : Core.Trader) :
  let s' := fst (Core.check_hedge now s) in
  let acts := snd (Core.check_hedge now s) in
  (acts = Core.hedge_orders acts ++ [call_later 1 cb_check_hedge])
  /\ Core.position s' = Core.position s
  /\ (forall id side price volume,
         In (send_hedge_order id side price volume) acts ->
         0 < volume /\ id = Core.order_ids s /\ Core.order_ids s' = id + 1)
  /\ (Core.hedge_orders acts <> [] ->
      forall now',
        Core.check_hedge now' s' = (s', [call_later 1 cb_check_hedge])).
Proof.
  cbv zeta. unfold Core.check_hedge.
  assert (forall s0 : Core.Trader,
             (s0, [call_later 1 cb_check_hedge]).2
             = Core.hedge_orders (s0, [call_later 1 cb_check_hedge]).2
               ++ [call_later 1 cb_check_hedge]
             /\ Core.position (s0, [call_later 1 cb_check_hedge]).1
                = Core.position s0
             /\ (forall id side price volume,
                    In (send_hedge_order id side price volume)
                      (s0, [call_later 1 cb_check_hedge]).2 ->
                    0 < volume /\ id = Core.order_ids s0
                    /\ Core.order_ids (s0, [call_later 1 cb_check_hedge]).1
                       = id + 1)
             /\ (Core.hedge_orders (s0, [call_later 1 cb_check_hedge]).2 <> [] ->
                 forall now',
                   Core.check_hedge now' (s0, [call_later 1 cb_check_hedge]).1
                   = ((s0, [call_later 1 cb_check_hedge]).1,
                      [call_later 1 cb_check_hedge]))) as Hquiet.
  { intros s0. simpl. split; [reflexivity|split; [reflexivity|split]].
    - intros id side price volume [Hd|[]]. discriminate.
    - intros Hne. contradiction. }
  destruct (Core.hedge_time s) as [t|] eqn:Ht; [|exact (Hquiet s)].
  destruct (Throttler.Qlt_bool HEDGE_TIME_LIMIT (now - t)); simpl andb;
    cbv iota; [|exact (Hquiet s)].
  destruct (Z.ltb_spec HEDGE_BOUNDARY (Core.hedge_balance s)) as [Hhi|Hhi];
    [|destruct (Z.ltb_spec (Core.hedge_balance s) (- HEDGE_BOUNDARY))
        as [Hlo|Hlo]];
    simpl orb; cbv iota; [| |exact (Hquiet s)]; unfold HEDGE_BOUNDARY in *.
  - destruct (Z.ltb_spec 0 (Core.hedge_balance s)); [|lia]. simpl.
    split; [reflexivity|split; [reflexivity|split]].
    + intros id side price volume [[= <- <- <- <-]|[Hd|[]]]; [|discriminate].
      split; [lia|split; reflexivity].
    + intros _ now'. reflexivity.
  - destruct (Z.ltb_spec 0 (Core.hedge_balance s)); [lia|]. simpl.
    split; [reflexivity|split; [reflexivity|split]].
    + intros id side price volume [[= <- <- <- <-]|[Hd|[]]]; [|discriminate].
      split; [lia|split; reflexivity].
    + intros _ now'. reflexivity.
Qed.

(** An imbalance of -15 armed at time 0: the check at time 59 sells 5, and
    the check at time 60 does nothing. *)
Lemma check_hedge_rearms_witness :
  let s := Core.set_hedge 15 (-15) (Some 0%Q) Core.init in
  let s' := fst (@Core.check_hedge Reference.venue 59%Q s) in
  Core.hedge_orders (snd (@Core.check_hedge Reference.venue 59%Q s))
  = [send_hedge_order 1 SELL 100 5]
  /\ @Core.check_hedge Reference.venue 60%Q s'
     = (s', [call_later 1 cb_check_hedge]).
Proof.
  cbv zeta. split; [reflexivity|].
  refine (proj2 (proj2 (proj2 (@check_hedge_rearms Reference.venue 59%Q
            (Core.set_hedge 15 (-15) (Some 0%Q) Core.init)))) _ 60%Q).
  discriminate.
Defined.

(** ** Order ids and volumes *)

Lemma throttled_send_plain :
  Core.plain_send DynamicSpread.send_throttled
  /\ Core.plain_send RollingRegression.send_throttled.
Proof.
  split; intros now id side price volume s;
    unfold DynamicSpread.send_throttled, RollingRegression.send_throttled,
      Throttler.throttler;
    (destruct (Throttler.record_call (Core.call_times s) now) as [c|];
     [|split; [left; reflexivity|split; [intros x []|reflexivity]]]);
    (destruct (Core.track_order id side (Core.set_call_times c s)) as [s1|]
       eqn:Htrack;
     [|split; [left; reflexivity|split; [intros x []|reflexivity]]]);
    simpl; (split; [right; reflexivity|]);
    (split;
      [intros x Hin;
       repeat (destruct Hin as [<-|Hin]; [auto|]); destruct Hin|]);
    unfold Core.track_order in Htrack; destruct side;
    match type of Htrack with
    | (if ?c then _ else _) = _ => destruct c; [discriminate|]
    end; injection Htrack as <-; reflexivity.
Qed.

Lemma evict_no_order (s : Core.Trader) :
  omap Core.order_id (snd (Core.evict_bid s)) = []
  /\ omap Core.order_id (snd (Core.evict_ask s)) = []
  /\ (forall x, In x (snd (Core.evict_bid s)) -> Core.is_insert x = false)
  /\ (forall x, In x (snd (Core.evict_ask s)) -> Core.is_insert x = false)
  /\ Core.order_ids (fst (Core.evict_bid s)) = Core.order_ids s
  /\ Core.order_ids (fst (Core.evict_ask s)) = Core.order_ids s.
Proof.
  unfold Core.evict_bid, Core.evict_ask.
  destruct (4 <=? length (Core.bidq s))%nat, (4 <=? length (Core.askq s))%nat,
    (Core.bidq s), (Core.askq s); simpl; repeat split;
    intros x Hin; repeat (destruct Hin as [<-|Hin]; [reflexivity|]);
    destruct Hin.
Qed.

Lemma guarded_send_orders send (c : bool) (t : Q) (i : Z) (sd : Side)
    (pr v : Z) (s0 sx : Core.Trader) :
  Core.plain_send send ->
  let r := if c then send t i sd pr v s0 else (sx, []) in
  (omap Core.order_id (snd r) = []
   \/ (c = true /\ omap Core.order_id (snd r) = [i]))
  /\ (forall x, In x (snd r) ->
        c = true /\ (x = send_insert_order i sd pr v GOOD_FOR_DAY
                     \/ Core.order_id x = None))
  /\ Core.order_ids (fst r)
     = (if c then Core.order_ids s0 else Core.order_ids sx).
Proof.
  intros Hsend. destruct c; cbv zeta;
    [|split; [left; reflexivity|split; [intros x []|reflexivity]]].
  destruct (Hsend t i sd pr v s0) as (Hids & Hin & Hid).
  split; [destruct Hids; auto|].
  split; [intros x Hx; split; [reflexivity|auto]|exact Hid].
Qed.

(** The orders of one quoting cycle: the bid, if any, takes the counter's
    value, the ask, if any, the value after that; each has a volume from 1
    to 10 that fits under the position limit with the queued lots. *)
Lemma quote_orders send (nb na : Z) (t_bid t_ask : Q) (s : Core.Trader) :
  Core.plain_send send ->
  let r := Core.quote send nb na t_bid t_ask s in
  exists bid_orders ask_orders n,
    omap Core.order_id (snd r) = bid_orders ++ ask_orders
    /\ Core.order_ids s <= n <= Core.order_ids (fst r)
    /\ (bid_orders = [] \/ (bid_orders = [Core.order_ids s]
                            /\ n = Core.order_ids s + 1))
    /\ (ask_orders = [] \/ (ask_orders = [n]
                            /\ Core.order_ids (fst r) = n + 1))
    /\ (forall id side p v l,
           In (send_insert_order id side p v l) (snd r) ->
           l = GOOD_FOR_DAY /\ 1 <= v <= LOT_SIZE
           /\ match side with
              | BUY => p = nb
                       /\ Core.position s + v
                          + Z.of_nat (length (Core.bidq s)) * LOT_SIZE
                          <= POSITION_LIMIT
              | SELL => p = na
                        /\ v - Core.position s
                           + Z.of_nat (length (Core.askq s)) * LOT_SIZE
                           <= POSITION_LIMIT
              end).
Proof.
  intros Hsend. cbv zeta. unfold Core.quote.
  destruct (evict_no_order s) as (Ho1 & _ & Hc1 & _ & Hi1 & _).
  destruct (Core.evict_bid s) as [s1 c1].
  destruct (evict_no_order s1) as (_ & Ho2 & _ & Hc2 & _ & Hi2).
  destruct (Core.evict_ask s1) as [s2 c2]. simpl in Ho1, Ho2, Hc1, Hc2, Hi1, Hi2.
  set (RL := Z.max 0 (POSITION_LIMIT - Core.position s
                       - Z.of_nat (length (Core.bidq s)) * LOT_SIZE)).
  set (RS := Z.max 0 (POSITION_LIMIT + Core.position s
                       - Z.of_nat (length (Core.askq s)) * LOT_SIZE)).
  match goal with
  | |- context [if ?c then send ?t ?i ?sd ?pr ?v ?s0 else (s2, [])] =>
      generalize (guarded_send_orders send c t i sd pr v s0 s2 Hsend);
      cbv zeta;
      destruct (if c then send t i sd pr v s0 else (s2, [])) as [s3 c3];
      intros (Hids3 & Hin3 & Hid3)
  end.
  match goal with
  | |- context [if ?c then send ?t ?i ?sd ?pr ?v ?s0 else (s3, [])] =>
      generalize (guarded_send_orders send c t i sd pr v s0 s3 Hsend);
      cbv zeta;
      destruct (if c then send t i sd pr v s0 else (s3, [])) as [s4 c4];
      intros (Hids4 & Hin4 & Hid4)
  end.
  simpl in *.
  exists (omap Core.order_id c3), (omap Core.order_id c4), (Core.order_ids s3).
  assert (forall b : bool, b = true \/ b = false) as Hbool
    by (intros []; auto).
  split; [rewrite !omap_app, Ho1, Ho2; reflexivity|].
  split.
  { destruct (negb (nb =? 0) && (0 <? RL)), (negb (na =? 0) && (0 <? RS));
      simpl in *; lia. }
  split.
  { destruct Hids3 as [->|[Hc ->]]; [left; reflexivity|right].
    rewrite Hc in Hid3. simpl in Hid3. split; [congruence|lia]. }
  split.
  { destruct Hids4 as [->|[Hc ->]]; [left; reflexivity|right].
    rewrite Hc in Hid4. simpl in Hid4. split; [reflexivity|lia]. }
  intros id side p v l Hin.
  apply in_app_or in Hin as [Hin|Hin]; [specialize (Hc1 _ Hin); discriminate|].
  apply in_app_or in Hin as [Hin|Hin]; [specialize (Hc2 _ Hin); discriminate|].
  apply in_app_or in Hin as [Hin|Hin].
  - destruct (Hin3 _ Hin) as [Hc [[= -> -> -> -> ->]|Hnone]]; [|discriminate].
    apply andb_true_iff in Hc as [_ Hpos]. apply Z.ltb_lt in Hpos.
    split; [reflexivity|]. unfold RL in *. unfold LOT_SIZE, POSITION_LIMIT in *.
    split; [lia|split; [reflexivity|lia]].
  - destruct (Hin4 _ Hin) as [Hc [[= -> -> -> -> ->]|Hnone]]; [|discriminate].
    apply andb_true_iff in Hc as [_ Hpos]. apply Z.ltb_lt in Hpos.
    split; [reflexivity|]. unfold RS in *. unfold LOT_SIZE, POSITION_LIMIT in *.
    split; [lia|split; [reflexivity|lia]].
Qed.

Lemma drawn_from_nil (n : Z) : Core.drawn_from n [] n.
Proof. split; [constructor|split; [intros id []|lia]]. Qed.

Lemma drawn_from_app (n m k : Z) (ids1 ids2 : list Z) :
  Core.drawn_from n ids1 m -> Core.drawn_from m ids2 k ->
  Core.drawn_from n (ids1 ++ ids2) k.
Proof.
  intros (Hs1 & Hb1 & Hn1) (Hs2 & Hb2 & Hn2). split; [|split; [|lia]].
  - induction ids1 as [|x ids1 IH]; [exact Hs2|]. simpl.
    apply StronglySorted_inv in Hs1 as [Hs1 Hx]. constructor.
    + apply IH; [exact Hs1|]. intros id Hid. apply Hb1. by right.
    + apply Forall_app. split; [exact Hx|].
      apply Forall_forall. intros y Hy. apply list_elem_of_In in Hy.
      specialize (Hb2 y Hy). specialize (Hb1 x (or_introl eq_refl)). lia.
  - intros id Hid. apply in_app_or in Hid as [Hid|Hid].
    + specialize (Hb1 id Hid). lia.
    + specialize (Hb2 id Hid). lia.
Qed.

Lemma quote_drawn send (nb na : Z) (t_bid t_ask : Q) (s : Core.Trader) :
  Core.plain_send send ->
  Core.drawn_from (Core.order_ids s)
    (omap Core.order_id (snd (Core.quote send nb na t_bid t_ask s)))
    (Core.order_ids (fst (Core.quote send nb na t_bid t_ask s))).
Proof.
  intros Hsend.
  destruct (quote_orders send nb na t_bid t_ask s Hsend)
    as (bo & ao & n & -> & Hn & Hbo & Hao & _).
  apply (drawn_from_app _ n).
  - destruct Hbo as [->|[-> ->]].
    + split; [constructor|split; [intros id []|lia]].
    + split; [repeat constructor|split; [|lia]].
      intros id [<-|[]]. lia.
  - destruct Hao as [->|[-> Hk]].
    + split; [constructor|split; [intros id []|lia]].
    + split; [repeat constructor|split; [|lia]].
      intros id [<-|[]]. lia.
Qed.

Lemma check_hedge_drawn `{Venue} (now : Q) (s : Core.Trader) :
  Core.drawn_from (Core.order_ids s)
    (omap Core.order_id (snd (Core.check_hedge now s)))
    (Core.order_ids (fst (Core.check_hedge now s))).
Proof.
  unfold Core.check_hedge.
  destruct (Core.hedge_time s); [|apply drawn_from_nil].
  destruct (_ && _); [|apply drawn_from_nil].
  destruct (0 <? Core.hedge_balance s); simpl;
    (split; [repeat constructor|split; [intros id [<-|[]]|]]); lia.
Qed.

Lemma quiet_handlers_keep_counter (now : Q) (id price volume fill remaining
    fees : Z) (s : Core.Trader) :
  Core.order_ids (Core.on_order_filled_message now id price volume s)
  = Core.order_ids s
  /\ Core.order_ids (Core.on_order_status_message id fill remaining fees s)
     = Core.order_ids s
  /\ Core.order_ids (Core.on_error_message id s) = Core.order_ids s.
Proof.
  assert (forall f r fe, Core.order_ids (Core.on_order_status_message id f r fe s)
                         = Core.order_ids s) as Hstatus.
  { intros f r fe. unfold Core.on_order_status_message.
    destruct (r =? 0); [|reflexivity].
    destruct (Core.on_bid_side s id); [reflexivity|].
    destruct (Core.on_ask_side s id); reflexivity. }
  split; [|split; [apply Hstatus|]].
  - unfold Core.on_order_filled_message.
    destruct (Core.on_bid_side s id); [reflexivity|].
    destruct (Core.on_ask_side s id); reflexivity.
  - unfold Core.on_error_message. destruct (_ && _); [apply Hstatus|reflexivity].
Qed.

Section OrderIds.

Context `{Venue} `{Numerics}.

Lemma dynamic_step_drawn (st : DynamicSpread.State) (e : DynamicSpread.Event) :
  Core.drawn_from (Core.order_ids (DynamicSpread.trader st))
    (omap Core.order_id (snd (DynamicSpread.step st e)))
    (Core.order_ids (DynamicSpread.trader (fst (DynamicSpread.step st e)))).
Proof.
  destruct e as [i a b tb ta|now id p v|id f r fees|id| | |now|clock id]; simpl.
  - destruct (dynamic_book_update_cases i a b tb ta st)
      as [[-> ->]|(nb & na & Hq)]; [apply drawn_from_nil|].
    pose proof (quote_drawn DynamicSpread.send_throttled nb na tb ta
                  (DynamicSpread.trader st) (proj1 throttled_send_plain)) as Hd.
    rewrite <- Hq in Hd. exact Hd.
  - rewrite (proj1 (quiet_handlers_keep_counter now id p v 0 0 0 _)).
    apply drawn_from_nil.
  - rewrite (proj1 (proj2 (quiet_handlers_keep_counter 0%Q id 0 0 f r fees _))).
    apply drawn_from_nil.
  - rewrite (proj2 (proj2 (quiet_handlers_keep_counter 0%Q id 0 0 0 0 0 _))).
    apply drawn_from_nil.
  - apply drawn_from_nil.
  - apply drawn_from_nil.
  - pose proof (check_hedge_drawn now (DynamicSpread.trader st)) as Hd.
    destruct (Core.check_hedge now (DynamicSpread.trader st)). exact Hd.
  - pose proof (cancel_order_silent clock id
                  (DynamicSpread.cancel_call_times st)) as Hs.
    destruct (DynamicSpread.cancel_order clock id _) as [c [acts o]].
    simpl in *. subst acts. apply drawn_from_nil.
Qed.

Lemma regression_step_drawn (st : RollingRegression.State)
    (e : RollingRegression.Event) :
  Core.drawn_from (Core.order_ids (RollingRegression.trader st))
    (omap Core.order_id (snd (RollingRegression.step st e)))
    (Core.order_ids
       (RollingRegression.trader (fst (RollingRegression.step st e)))).
Proof.
  destruct e as [i a b tb ta|now id p v|id f r fees|id| | |now]; simpl.
  - destruct (regression_book_update_cases i a b tb ta st)
      as [[-> ->]|(nb & na & Hq)]; [apply drawn_from_nil|].
    pose proof (quote_drawn RollingRegression.send_throttled nb na tb ta
                  (RollingRegression.trader st) (proj2 throttled_send_plain))
      as Hd.
    rewrite <- Hq in Hd. exact Hd.
  - rewrite (proj1 (quiet_handlers_keep_counter now id p v 0 0 0 _)).
    apply drawn_from_nil.
  - rewrite (proj1 (proj2 (quiet_handlers_keep_counter 0%Q id 0 0 f r fees _))).
    apply drawn_from_nil.
  - rewrite (proj2 (proj2 (quiet_handlers_keep_counter 0%Q id 0 0 0 0 0 _))).
    apply drawn_from_nil.
  - apply drawn_from_nil.
  - apply drawn_from_nil.
  - pose proof (check_hedge_drawn now (RollingRegression.trader st)) as Hd.
    destruct (Core.check_hedge now (RollingRegression.trader st)). exact Hd.
Qed.

Lemma dynamic_run_drawn (es : list DynamicSpread.Event)
    (st : DynamicSpread.State) :
  Core.drawn_from (Core.order_ids (DynamicSpread.trader st))
    (omap Core.order_id (snd (DynamicSpread.run st es)))
    (Core.order_ids (DynamicSpread.trader (fst (DynamicSpread.run st es)))).
Proof.
  revert st. induction es as [|e es IH]; intros st; [apply drawn_from_nil|].
  simpl. pose proof (dynamic_step_drawn st e) as H1.
  destruct (DynamicSpread.step st e) as [st1 a1]. specialize (IH st1).
  destruct (DynamicSpread.run st1 es) as [st2 a2]. simpl in *.
  rewrite omap_app. eapply drawn_from_app; eassumption.
Qed.

Lemma regression_run_drawn (es : list RollingRegression.Event)
    (st : RollingRegression.State) :
  Core.drawn_from (Core.order_ids (RollingRegression.trader st))
    (omap Core.order_id (snd (RollingRegression.run st es)))
    (Core.order_ids
       (RollingRegression.trader (fst (RollingRegression.run st es)))).
Proof.
  revert st. induction es as [|e es IH]; intros st; [apply drawn_from_nil|].
  simpl. pose proof (regression_step_drawn st e) as H1.
  destruct (RollingRegression.step st e) as [st1 a1]. specialize (IH st1).
  destruct (RollingRegression.run st1 es) as [st2 a2]. simpl in *.
  rewrite omap_app. eapply drawn_from_app; eassumption.
Qed.

End OrderIds.

(** X8. Over any sequence of callbacks from start-up, the client order
    ids either trader hands to the gateway, in [send_insert_order] and
    [send_hedge_order] alike, are strictly increasing in the order of the
    calls, hence never reused, and lie from 1 up to the id counter. *)
Theorem order_ids_never_reused `{Venue} `{Numerics} :
  (forall es : list DynamicSpread.Event,
      let r := DynamicSpread.run DynamicSpread.init es in
      StronglySorted Z.lt (omap Core.order_id (snd r))
      /\ (forall id, In id (omap Core.order_id (snd r)) ->
                     1 <= id < Core.order_ids (DynamicSpread.trader (fst r))))
  /\ (forall es : list RollingRegression.Event,
         let r := RollingRegression.run RollingRegression.init es in
         StronglySorted Z.lt (omap Core.order_id (snd r))
         /\ (forall id, In id (omap Core.order_id (snd r)) ->
                        1 <= id
                        < Core.order_ids (RollingRegression.trader (fst r)))).
Proof.
  split; intros es; cbv zeta.
  - destruct (dynamic_run_drawn es DynamicSpread.init) as (Hs & Hb & _).
    split; [exact Hs|exact Hb].
  - destruct (regression_run_drawn es RollingRegression.init) as (Hs & Hb & _).
    split; [exact Hs|exact Hb].
Qed.

Lemma check_hedge_no_insert `{Venue} (now : Q) (s : Core.Trader) (x : Action) :
  In x (snd (Core.check_hedge now s)) -> Core.is_insert x = false.
Proof.
  unfold Core.check_hedge.
  destruct (Core.hedge_time s); [|intros [<-|[]]; reflexivity].
  destruct (_ && _); [|intros [<-|[]]; reflexivity].
  destruct (0 <? Core.hedge_balance s); intros [<-|[<-|[]]]; reflexivity.
Qed.

(** X9. Every order either trader inserts is good for the day and has a
    volume from 1 to 10 lots; a buy fits under the position limit of 100
    together with the position and 10 lots for each id in the bid queue at
    the start of the cycle, and a sell does with the negated position and
    the ask queue. *)
Theorem inserted_volume_within_limit `{Venue} `{Numerics} :
  (forall (st : DynamicSpread.State) (e : DynamicSpread.Event)
          (id : Z) (side : Side) (p v : Z) (l : Lifespan),
      In (send_insert_order id side p v l) (snd (DynamicSpread.step st e)) ->
      let s := DynamicSpread.trader st in
      l = GOOD_FOR_DAY /\ 1 <= v <= 10
      /\ match side with
         | BUY => Core.position s + v
                  + 10 * Z.of_nat (length (Core.bidq s)) <= 100
         | SELL => v - Core.position s
                   + 10 * Z.of_nat (length (Core.askq s)) <= 100
         end)
  /\ (forall (st : RollingRegression.State) (e : RollingRegression.Event)
             (id : Z) (side : Side) (p v : Z) (l : Lifespan),
         In (send_insert_order id side p v l)
           (snd (RollingRegression.step st e)) ->
         let s := RollingRegression.trader st in
         l = GOOD_FOR_DAY /\ 1 <= v <= 10
         /\ match side with
            | BUY => Core.position s + v
                     + 10 * Z.of_nat (length (Core.bidq s)) <= 100
            | SELL => v - Core.position s
                      + 10 * Z.of_nat (length (Core.askq s)) <= 100
            end).
Proof.
  split; intros st e id side p v l; cbv zeta.
  - destruct e as [i a b tb ta|now id' p' v'|id' f r fees|id'| | |now|clock id'];
      simpl; try (intros []).
    + destruct (dynamic_book_update_cases i a b tb ta st)
        as [[_ ->]|(nb & na & Hq)]; [intros []|].
      apply (f_equal snd) in Hq. simpl in Hq. rewrite Hq. intros Hin.
      destruct (quote_orders DynamicSpread.send_throttled nb na tb ta
                  (DynamicSpread.trader st) (proj1 throttled_send_plain))
        as (_ & _ & _ & _ & _ & _ & _ & Hins).
      destruct (Hins id side p v l Hin) as (Hl & Hv & Hside).
      unfold LOT_SIZE, POSITION_LIMIT in *.
      split; [exact Hl|split; [exact Hv|]]. destruct side; lia.
    + pose proof (check_hedge_no_insert now (DynamicSpread.trader st)) as Hh.
      destruct (Core.check_hedge now (DynamicSpread.trader st)) as [s1 acts].
      simpl in *. intros Hin. specialize (Hh _ Hin). discriminate.
    + pose proof (cancel_order_silent clock id'
                    (DynamicSpread.cancel_call_times st)) as Hs.
      destruct (DynamicSpread.cancel_order clock id' _) as [c [acts o]].
      simpl in *. subst acts. intros [].
  - destruct e as [i a b tb ta|now id' p' v'|id' f r fees|id'| | |now];
      simpl; try (intros []).
    + destruct (regression_book_update_cases i a b tb ta st)
        as [[_ ->]|(nb & na & Hq)]; [intros []|].
      apply (f_equal snd) in Hq. simpl in Hq. rewrite Hq. intros Hin.
      destruct (quote_orders RollingRegression.send_throttled nb na tb ta
                  (RollingRegression.trader st) (proj2 throttled_send_plain))
        as (_ & _ & _ & _ & _ & _ & _ & Hins).
      destruct (Hins id side p v l Hin) as (Hl & Hv & Hside).
      unfold LOT_SIZE, POSITION_LIMIT in *.
      split; [exact Hl|split; [exact Hv|]]. destruct side; lia.
    + pose proof (check_hedge_no_insert now (RollingRegression.trader st))
        as Hh.
      destruct (Core.check_hedge now (RollingRegression.trader st))
        as [s1 acts].
      simpl in *. intros Hin. specialize (Hh _ Hin). discriminate.
Qed.

(** The bid of the first quoting cycle of the volatility trader. *)
Lemma inserted_volume_within_limit_witness :
  In (send_insert_order 1 BUY 9900 10 GOOD_FOR_DAY)
    (snd (@DynamicSpread.step Reference.venue Reference.numerics
            DynamicSpread.init
            (DynamicSpread.OrderBookUpdate FUTURE [10000] [10000] 0%Q 0%Q)))
  /\ 1 <= 10 <= 10.
Proof.
  assert (In (send_insert_order 1 BUY 9900 10 GOOD_FOR_DAY)
            (snd (@DynamicSpread.step Reference.venue Reference.numerics
                    DynamicSpread.init
                    (DynamicSpread.OrderBookUpdate FUTURE [10000] [10000]
                       0%Q 0%Q)))) as Hin
    by (vm_compute; left; reflexivity).
  split; [exact Hin|].
  exact (proj1 (proj2 (proj1 (@inserted_volume_within_limit Reference.venue
                                 Reference.numerics) _ _ _ _ _ _ _ Hin))).
Defined.

(** ** Imbalance and position *)

Section Mirror.

Context `{Venue} `{Numerics}.

Lemma filled_sum (now : Q) (id price volume : Z) (s : Core.Trader) :
  Core.position (Core.on_order_filled_message now id price volume s)
  + Core.hedge_balance (Core.on_order_filled_message now id price volume s)
  = Core.position s + Core.hedge_balance s.
Proof.
  unfold Core.on_order_filled_message.
  destruct (Core.on_bid_side s id); [simpl; lia|].
  destruct (Core.on_ask_side s id); simpl; lia.
Qed.

Lemma status_keeps_exposure (id fill remaining fees : Z) (s : Core.Trader) :
  Core.position (Core.on_order_status_message id fill remaining fees s)
  = Core.position s
  /\ Core.hedge_balance (Core.on_order_status_message id fill remaining fees s)
     = Core.hedge_balance s.
Proof.
  unfold Core.on_order_status_message. destruct (remaining =? 0); [|auto].
  destruct (Core.on_bid_side s id); [auto|].
  destruct (Core.on_ask_side s id); auto.
Qed.

Lemma error_keeps_exposure (id : Z) (s : Core.Trader) :
  Core.position (Core.on_error_message id s) = Core.position s
  /\ Core.hedge_balance (Core.on_error_message id s) = Core.hedge_balance s.
Proof.
  unfold Core.on_error_message. destruct (_ && _); [|auto].
  apply status_keeps_exposure.
Qed.

Lemma quote_keeps_exposure send (nb na : Z) (t_bid t_ask : Q) (s : Core.Trader) :
  send = DynamicSpread.send_throttled \/ send = RollingRegression.send_throttled ->
  Core.position (fst (Core.quote send nb na t_bid t_ask s)) = Core.position s
  /\ Core.hedge_balance (fst (Core.quote send nb na t_bid t_ask s))
     = Core.hedge_balance s.
Proof.
  intros Hsend.
  assert (forall now id side price volume s0,
             Core.position (fst (send now id side price volume s0))
             = Core.position s0
             /\ Core.hedge_balance (fst (send now id side price volume s0))
                = Core.hedge_balance s0) as Hkeep.
  { intros now id side price volume s0.
    destruct Hsend as [-> | ->];
      unfold DynamicSpread.send_throttled, RollingRegression.send_throttled,
        Throttler.throttler;
      (destruct (Throttler.record_call (Core.call_times s0) now) as [c|];
       [|auto]);
      unfold Core.track_order; destruct side;
      match goal with
      | |- context [if ?c then None else _] => destruct c
      end; auto. }
  unfold Core.quote.
  assert (Core.position (fst (Core.evict_bid s)) = Core.position s
          /\ Core.hedge_balance (fst (Core.evict_bid s)) = Core.hedge_balance s)
    as [Hp1 Hb1].
  { unfold Core.evict_bid. destruct (4 <=? _)%nat; [|auto].
    destruct (Core.bidq s); auto. }
  destruct (Core.evict_bid s) as [s1 c1]. simpl in Hp1, Hb1.
  assert (Core.position (fst (Core.evict_ask s1)) = Core.position s1
          /\ Core.hedge_balance (fst (Core.evict_ask s1))
             = Core.hedge_balance s1) as [Hp2 Hb2].
  { unfold Core.evict_ask. destruct (4 <=? _)%nat; [|auto].
    destruct (Core.askq s1); auto. }
  destruct (Core.evict_ask s1) as [s2 c2]. simpl in Hp2, Hb2.
  match goal with
  | |- context [if ?c then send ?t ?i ?sd ?pr ?v ?s0 else (s2, [])] =>
      assert (Core.position (fst (if c then send t i sd pr v s0 else (s2, [])))
              = Core.position s2
              /\ Core.hedge_balance
                   (fst (if c then send t i sd pr v s0 else (s2, [])))
                 = Core.hedge_balance s2) as [Hp3 Hb3]
        by (destruct c; [exact (Hkeep _ _ _ _ _ _)|auto]);
      destruct (if c then send t i sd pr v s0 else (s2, [])) as [s3 c3]
  end.
  match goal with
  | |- context [if ?c then send ?t ?i ?sd ?pr ?v ?s0 else (s3, [])] =>
      assert (Core.position (fst (if c then send t i sd pr v s0 else (s3, [])))
              = Core.position s3
              /\ Core.hedge_balance
                   (fst (if c then send t i sd pr v s0 else (s3, [])))
                 = Core.hedge_balance s3) as [Hp4 Hb4]
        by (destruct c; [exact (Hkeep _ _ _ _ _ _)|auto]);
      destruct (if c then send t i sd pr v s0 else (s3, [])) as [s4 c4]
  end.
  simpl in *. split; congruence.
Qed.

End Mirror.

Section MirrorRuns.

Context `{Venue} `{Numerics}.

Lemma dynamic_step_sum (st : DynamicSpread.State) (e : DynamicSpread.Event) :
  (forall now, e <> DynamicSpread.CheckHedge now) ->
  Core.position (DynamicSpread.trader (fst (DynamicSpread.step st e)))
  + Core.hedge_balance (DynamicSpread.trader (fst (DynamicSpread.step st e)))
  = Core.position (DynamicSpread.trader st)
    + Core.hedge_balance (DynamicSpread.trader st).
Proof.
  intros Hne.
  destruct e as [i a b tb ta|now id p v|id f r fees|id| | |now|clock id]; simpl.
  - destruct (dynamic_book_update_cases i a b tb ta st)
      as [[-> _]|(nb & na & Hq)]; [reflexivity|].
    apply (f_equal fst) in Hq. simpl in Hq. rewrite Hq.
    destruct (quote_keeps_exposure DynamicSpread.send_throttled nb na tb ta
                (DynamicSpread.trader st) (or_introl eq_refl)) as [-> ->].
    reflexivity.
  - apply filled_sum.
  - destruct (status_keeps_exposure id f r fees (DynamicSpread.trader st))
      as [-> ->]. reflexivity.
  - destruct (error_keeps_exposure id (DynamicSpread.trader st)) as [-> ->].
    reflexivity.
  - reflexivity.
  - reflexivity.
  - exfalso. exact (Hne now eq_refl).
  - destruct (DynamicSpread.cancel_order clock id _) as [c [acts o]].
    reflexivity.
Qed.

Lemma regression_step_sum (st : RollingRegression.State)
    (e : RollingRegression.Event) :
  (forall now, e <> RollingRegression.CheckHedge now) ->
  Core.position (RollingRegression.trader (fst (RollingRegression.step st e)))
  + Core.hedge_balance
      (RollingRegression.trader (fst (RollingRegression.step st e)))
  = Core.position (RollingRegression.trader st)
    + Core.hedge_balance (RollingRegression.trader st).
Proof.
  intros Hne.
  destruct e as [i a b tb ta|now id p v|id f r fees|id| | |now]; simpl.
  - destruct (regression_book_update_cases i a b tb ta st)
      as [[-> _]|(nb & na & Hq)]; [reflexivity|].
    apply (f_equal fst) in Hq. simpl in Hq. rewrite Hq.
    destruct (quote_keeps_exposure RollingRegression.send_throttled nb na tb ta
                (RollingRegression.trader st) (or_intror eq_refl)) as [-> ->].
    reflexivity.
  - apply filled_sum.
  - destruct (status_keeps_exposure id f r fees (RollingRegression.trader st))
      as [-> ->]. reflexivity.
  - destruct (error_keeps_exposure id (RollingRegression.trader st)) as [-> ->].
    reflexivity.
  - reflexivity.
  - reflexivity.
  - exfalso. exact (Hne now eq_refl).
Qed.

Lemma dynamic_run_sum (es : list DynamicSpread.Event)
    (st : DynamicSpread.State) :
  (forall now, ~ In (DynamicSpread.CheckHedge now) es) ->
  Core.position (DynamicSpread.trader (fst (DynamicSpread.run st es)))
  + Core.hedge_balance (DynamicSpread.trader (fst (DynamicSpread.run st es)))
  = Core.position (DynamicSpread.trader st)
    + Core.hedge_balance (DynamicSpread.trader st).
Proof.
  revert st. induction es as [|e es IH]; intros st Hno; [reflexivity|].
  simpl. pose proof (dynamic_step_sum st e) as H1.
  destruct (DynamicSpread.step st e) as [st1 a1]. specialize (IH st1).
  destruct (DynamicSpread.run st1 es) as [st2 a2]. simpl in *.
  rewrite IH, H1; [reflexivity| |].
  - intros now ->. apply (Hno now). by left.
  - intros now Hin. apply (Hno now). by right.
Qed.

Lemma regression_run_sum (es : list RollingRegression.Event)
    (st : RollingRegression.State) :
  (forall now, ~ In (RollingRegression.CheckHedge now) es) ->
  Core.position (RollingRegression.trader (fst (RollingRegression.run st es)))
  + Core.hedge_balance
      (RollingRegression.trader (fst (RollingRegression.run st es)))
  = Core.position (RollingRegression.trader st)
    + Core.hedge_balance (RollingRegression.trader st).
Proof.
  revert st. induction es as [|e es IH]; intros st Hno; [reflexivity|].
  simpl. pose proof (regression_step_sum st e) as H1.
  destruct (RollingRegression.step st e) as [st1 a1]. specialize (IH st1).
  destruct (RollingRegression.run st1 es) as [st2 a2]. simpl in *.
  rewrite IH, H1; [reflexivity| |].
  - intros now ->. apply (Hno now). by left.
  - intros now Hin. apply (Hno now). by right.
Qed.

End MirrorRuns.

(** X10. As long as no hedge check has run, the hedge imbalance of either
    trader is the negated position: every callback but the hedge check
    keeps their sum, fills included whatever the id.  The hedge check
    itself never changes the position. *)
Theorem imbalance_mirrors_position `{Venue} `{Numerics} :
  (forall es : list DynamicSpread.Event,
      (forall now, ~ In (DynamicSpread.CheckHedge now) es) ->
      let s := DynamicSpread.trader
                 (fst (DynamicSpread.run DynamicSpread.init es)) in
      Core.hedge_balance s = - Core.position s)
  /\ (forall es : list RollingRegression.Event,
         (forall now, ~ In (RollingRegression.CheckHedge now) es) ->
         let s := RollingRegression.trader
                    (fst (RollingRegression.run RollingRegression.init es)) in
         Core.hedge_balance s = - Core.position s)
  /\ (forall (now : Q) (s : Core.Trader),
         Core.position (fst (Core.check_hedge now s)) = Core.position s).
Proof.
  split; [|split].
  - intros es Hno. cbv zeta.
    pose proof (dynamic_run_sum es DynamicSpread.init Hno) as Hsum.
    simpl in Hsum. lia.
  - intros es Hno. cbv zeta.
    pose proof (regression_run_sum es RollingRegression.init Hno) as Hsum.
    simpl in Hsum. lia.
  - intros now s. unfold Core.check_hedge.
    destruct (Core.hedge_time s); [|reflexivity].
    destruct (_ && _); [|reflexivity].
    destruct (0 <? Core.hedge_balance s); reflexivity.
Qed.

(** One quoting cycle and a fill of its bid. *)
Lemma imbalance_mirrors_position_witness :
  let s := DynamicSpread.trader
             (fst (@DynamicSpread.run Reference.venue Reference.numerics
                     DynamicSpread.init
                     [DynamicSpread.OrderBookUpdate FUTURE [10000] [10000]
                        0%Q 0%Q;
                      DynamicSpread.OrderFilled 5%Q 1 9900 10])) in
  Core.position s = 10 /\ Core.hedge_balance s = - Core.position s.
Proof.
  cbv zeta. split; [vm_compute; reflexivity|].
  refine (proj1 (@imbalance_mirrors_position Reference.venue Reference.numerics)
            _ _).
  intros now [Hd|[Hd|[]]]; discriminate.
Defined.

(** ** The price windows *)

Lemma deque_append_length {A : Type} (maxlen : nat) (d : list A) (x : A) :
  (0 < maxlen)%nat -> (length d <= maxlen)%nat ->
  (length (deque_append maxlen d x) <= maxlen)%nat.
Proof.
  intros Hpos Hlen. unfold deque_append.
  destruct (Nat.ltb_spec (length d) maxlen); rewrite length_app; simpl.
  - lia.
  - destruct d; simpl in *; lia.
Qed.

Lemma deque_append_forall {A : Type} (P : A -> Prop) (maxlen : nat)
    (d : list A) (x : A) :
  Forall P d -> P x -> Forall P (deque_append maxlen d x).
Proof.
  intros Hd Hx. unfold deque_append.
  assert (Forall P [x]) as Hx1 by (constructor; [exact Hx|constructor]).
  destruct (length d <? maxlen)%nat; apply Forall_app; split;
    try exact Hx1; [exact Hd|].
  destruct d; [constructor|]. by apply Forall_inv_tail in Hd.
Qed.

Section Windows.

Context `{Venue} `{Numerics}.

Lemma dynamic_step_window (st : DynamicSpread.State) (e : DynamicSpread.Event) :
  (length (DynamicSpread.recent_prices st) <= 50)%nat
  /\ Forall (fun p => 0 < p) (DynamicSpread.recent_prices st) ->
  (length (DynamicSpread.recent_prices (fst (DynamicSpread.step st e))) <= 50)%nat
  /\ Forall (fun p => 0 < p)
       (DynamicSpread.recent_prices (fst (DynamicSpread.step st e))).
Proof.
  intros [Hlen Hpos].
  destruct e as [i a b tb ta|now id p v|id f r fees|id| | |now|clock id];
    simpl; try (split; assumption).
  - unfold DynamicSpread.on_order_book_update_message.
    destruct (bool_decide (i = FUTURE)); simpl; [|split; assumption].
    destruct (Z.ltb_spec 0 (nth 0 b 0)); simpl; [|split; assumption].
    destruct (Z.ltb_spec 0 (nth 0 a 0)); simpl; [|split; assumption].
    destruct (DynamicSpread.quote_prices _ _ _) as [nb na].
    destruct (Core.quote _ _ _ _ _ _) as [s' acts]. simpl. split.
    + apply deque_append_length; [unfold DynamicSpread.AVG_WINDOW; lia|].
      exact Hlen.
    + apply deque_append_forall; [exact Hpos|].
      apply Z.div_str_pos. lia.
  - destruct (Core.check_hedge now (DynamicSpread.trader st)). simpl.
    split; assumption.
  - destruct (DynamicSpread.cancel_order clock id _) as [c [acts o]]. simpl.
    split; assumption.
Qed.

Lemma regression_step_window (st : RollingRegression.State)
    (e : RollingRegression.Event) :
  (length (RollingRegression.etf_prices st) <= 10)%nat
  /\ (length (RollingRegression.fut_prices st) <= 10)%nat ->
  (length (RollingRegression.etf_prices (fst (RollingRegression.step st e)))
   <= 10)%nat
  /\ (length (RollingRegression.fut_prices (fst (RollingRegression.step st e)))
      <= 10)%nat.
Proof.
  intros [He Hf].
  destruct e as [i a b tb ta|now id p v|id f r fees|id| | |now];
    simpl; try (split; assumption).
  - unfold RollingRegression.on_order_book_update_message.
    destruct (_ && _); [split; assumption|].
    assert ((length (deque_append RollingRegression.AVG_WINDOW
                       (RollingRegression.etf_prices st)
                       ((nth 0 b 0 + nth 0 a 0) / 2)%Z) <= 10)%nat) as He'
      by (apply deque_append_length;
          [unfold RollingRegression.AVG_WINDOW; lia|exact He]).
    assert ((length (deque_append RollingRegression.AVG_WINDOW
                       (RollingRegression.fut_prices st)
                       ((nth 0 b 0 + nth 0 a 0) / 2)%Z) <= 10)%nat) as Hf'
      by (apply deque_append_length;
          [unfold RollingRegression.AVG_WINDOW; lia|exact Hf]).
    destruct i; [|simpl; split; assumption].
    destruct (RollingRegression.calculate_hedge_ratio _ _);
      [|simpl; split; assumption].
    destruct (_ && _); [|simpl; split; assumption].
    destruct (RollingRegression.quote_prices _ _) as [nb na].
    destruct (Core.quote _ _ _ _ _ _) as [s' acts]. simpl. split; assumption.
  - destruct (Core.check_hedge now (RollingRegression.trader st)). simpl.
    split; assumption.
Qed.

End Windows.

(** X11. In every state the volatility trader reaches its price window
    holds at most 50 mid-prices, all positive, so the division by the
    mid-price in the spread is never a division by 0; in every state the
    regression trader reaches each of its windows holds at most 10
    prices. *)
Theorem price_windows_bounded `{Venue} `{Numerics} :
  (forall st : DynamicSpread.State,
      DynamicSpread.reachable st ->
      (length (DynamicSpread.recent_prices st) <= 50)%nat
      /\ Forall (fun p => 0 < p) (DynamicSpread.recent_prices st))
  /\ (forall st : RollingRegression.State,
         RollingRegression.reachable st ->
         (length (RollingRegression.etf_prices st) <= 10)%nat
         /\ (length (RollingRegression.fut_prices st) <= 10)%nat).
Proof.
  split.
  - intros st [es <-].
    assert (forall st0,
               (length (DynamicSpread.recent_prices st0) <= 50)%nat
               /\ Forall (fun p => 0 < p) (DynamicSpread.recent_prices st0) ->
               (length (DynamicSpread.recent_prices
                          (fst (DynamicSpread.run st0 es))) <= 50)%nat
               /\ Forall (fun p => 0 < p)
                    (DynamicSpread.recent_prices
                       (fst (DynamicSpread.run st0 es)))) as Hrun.
    { induction es as [|e es IH]; intros st0 Hst0; [exact Hst0|].
      simpl. pose proof (dynamic_step_window st0 e Hst0) as H1.
      destruct (DynamicSpread.step st0 e) as [st1 a1]. specialize (IH st1 H1).
      destruct (DynamicSpread.run st1 es) as [st2 a2]. exact IH. }
    apply Hrun. simpl. split; [lia|constructor].
  - intros st [es <-].
    assert (forall st0,
               (length (RollingRegression.etf_prices st0) <= 10)%nat
               /\ (length (RollingRegression.fut_prices st0) <= 10)%nat ->
               (length (RollingRegression.etf_prices
                          (fst (RollingRegression.run st0 es))) <= 10)%nat
               /\ (length (RollingRegression.fut_prices
                             (fst (RollingRegression.run st0 es))) <= 10)%nat)
      as Hrun.
    { induction es as [|e es IH]; intros st0 Hst0; [exact Hst0|].
      simpl. pose proof (regression_step_window st0 e Hst0) as H1.
      destruct (RollingRegression.step st0 e) as [st1 a1].
      specialize (IH st1 H1).
      destruct (RollingRegression.run st1 es) as [st2 a2]. exact IH. }
    apply Hrun. simpl. split; lia.
Qed.

(** The regression trader after its twenty-four book updates. *)
Lemma price_windows_bounded_witness :
  let st := fst (@RollingRegression.run Reference.venue Reference.numerics
                   RollingRegression.init Reference.regression_five_cycles) in
  (length (RollingRegression.etf_prices st) <= 10)%nat
  /\ (length (RollingRegression.fut_prices st) <= 10)%nat.
Proof.
  cbv zeta.
  refine (proj2 (@price_windows_bounded Reference.venue Reference.numerics) _ _).
  eexists. reflexivity.
Defined.

(** ** The order of the volatility trader's quotes *)

Lemma adjust_price_fixed (n : Z) :
  n mod 100 = 0 -> adjust_price (inject_Z n) = n.
Proof. intros Hn. rewrite adjust_price_integer. lia. Qed.

(** X12. When the mid-price is positive and neither the standard
    deviation nor the power in the position factor is negative, the
    volatility trader's bid is never above its ask, whatever the position:
    the skew widens one side only, and the rebalancing override moves a
    price no further than the other one. *)
Theorem dynamic_bid_below_ask `{Numerics} (position mid_price : Z) (vol : Q) :
  0 < mid_price -> (0 <= vol)%Q ->
  (0 <= float_pow (inject_Z (Z.abs position) / inject_Z POSITION_LIMIT)
          DynamicSpread.SENSITIVITY_FACTOR)%Q ->
  fst (DynamicSpread.quote_prices position mid_price vol)
  <= snd (DynamicSpread.quote_prices position mid_price vol).
Proof.
  intros Hmid Hvol Hpow.
  assert (0 < inject_Z mid_price)%Q as Hm
    by (change 0%Q with (inject_Z 0); rewrite <- Zlt_Qlt; exact Hmid).
  unfold DynamicSpread.quote_prices, DynamicSpread.calculate_position_factor,
    DynamicSpread.MAX_POSITION_FACTOR, TAKER_FEE, MAKER_FEE.
  set (pw := float_pow _ _) in *.
  set (m := inject_Z mid_price) in *.
  assert (0 <= vol / m)%Q as Hr.
  { unfold Qdiv. apply Qmult_le_0_compat; [exact Hvol|].
    apply Qlt_le_weak, Qinv_lt_0_compat, Hm. }
  set (r := (vol / m)%Q) in *.
  assert (0 <= m * r)%Q as Hmr by (apply Qmult_le_0_compat; lra).
  assert (0 <= m * r * pw)%Q as Hmrp by (apply Qmult_le_0_compat; lra).
  assert (0 <= m * pw)%Q as Hmp by (apply Qmult_le_0_compat; lra).
  assert (forall b a : Z,
             b mod 100 = 0 -> a mod 100 = 0 -> b <= a ->
             b <= adjust_price (inject_Z a - inject_Z (a - b) * (1 # 2))
             /\ adjust_price (inject_Z b + inject_Z (a - b) * (1 # 2)) <= a)
    as Hpull.
  { intros b a Hb Ha Hba.
    assert (inject_Z b <= inject_Z a)%Q as Hq by (rewrite <- Zle_Qle; exact Hba).
    rewrite <- (adjust_price_fixed b Hb) at 1.
    rewrite <- (adjust_price_fixed a Ha) at 4.
    unfold Z.sub. rewrite inject_Z_plus, inject_Z_opp.
    split; apply adjust_price_monotone; lra. }
  assert (forall p q : Q, (p <= q)%Q ->
             adjust_price p mod 100 = 0 /\ adjust_price q mod 100 = 0
             /\ adjust_price p <= adjust_price q) as Hord.
  { intros p q Hpq. split; [apply adjust_price_on_tick|].
    split; [apply adjust_price_on_tick|by apply adjust_price_monotone]. }
  destruct (DynamicSpread.ORDER_THRESHOLD <? position);
    [|destruct (position <? - DynamicSpread.ORDER_THRESHOLD)];
    match goal with
    | |- context [(adjust_price ?p, adjust_price ?q)] =>
        destruct (Hord p q) as (Hb & Ha & Hba); [nra|]
    end;
    (destruct (DynamicSpread.REBALANCING_THRESHOLD <=? position);
     [|destruct (position <=? - DynamicSpread.REBALANCING_THRESHOLD)]);
    simpl; try exact Hba;
    first [ apply (Hpull _ _ Hb Ha Hba) ].
Qed.

(** A flat window at mid-price 10000 and a position of 90. *)
Lemma dynamic_bid_below_ask_witness :
  @DynamicSpread.quote_prices Reference.numerics 90 10000 0 = (9900, 9900)
  /\ fst (@DynamicSpread.quote_prices Reference.numerics 90 10000 0)
     <= snd (@DynamicSpread.quote_prices Reference.numerics 90 10000 0).
Proof.
  split; [vm_compute; reflexivity|].
  apply (@dynamic_bid_below_ask Reference.numerics 90 10000 0%Q).
  - lia.
  - discriminate.
  - vm_compute. discriminate.
Defined.

(** ** The self-calling cancel returns *)

Lemma deque_append_drop {A : Type} (maxlen : nat) (d : list A) (x : A) :
  (0 < maxlen)%nat -> (length d <= maxlen)%nat ->
  deque_append maxlen d x = drop (length d + 1 - maxlen) (d ++ [x]).
Proof.
  intros Hpos Hlen. unfold deque_append.
  destruct (Nat.ltb_spec (length d) maxlen).
  - replace (length d + 1 - maxlen)%nat with 0%nat by lia. reflexivity.
  - replace (length d + 1 - maxlen)%nat with 1%nat by lia.
    destruct d; [simpl in *; lia|reflexivity].
Qed.

(** After the readings [pre] the call has returned, or it goes on with
    the last 47 of the deque followed by [pre]. *)
Lemma cancel_order_prefix (pre rest : list Q) (id : Z) (call_times : list Q) :
  (length call_times <= 47)%nat ->
  snd (snd (DynamicSpread.cancel_order (pre ++ rest) id call_times))
  = Core.Returned
  \/ DynamicSpread.cancel_order (pre ++ rest) id call_times
     = DynamicSpread.cancel_order rest id
         (drop (length call_times + length pre - 47) (call_times ++ pre)).
Proof.
  revert call_times. induction pre as [|x pre IH]; intros call_times Hlen.
  - right. simpl. rewrite Nat.add_0_r, app_nil_r.
    replace (length call_times - 47)%nat with 0%nat by lia. reflexivity.
  - simpl. unfold Throttler.throttler.
    destruct (Throttler.record_call call_times x) as [c|] eqn:Hrec;
      [|left; reflexivity].
    assert ((length c <= 47)%nat) as Hc
      by (eapply (record_call_length call_times); eauto).
    unfold Throttler.record_call in Hrec.
    destruct (Throttler.saturated call_times x); [discriminate|].
    injection Hrec as <-.
    destruct (IH _ Hc) as [Hret|Heq].
    + left.
      destruct (DynamicSpread.cancel_order (pre ++ rest) id _) as [c' [a o]].
      exact Hret.
    + right. rewrite Heq.
      destruct (DynamicSpread.cancel_order rest id _) as [c' [a o]] eqn:Hrest.
      simpl. rewrite <- Hrest. f_equal.
      rewrite (deque_append_drop Throttler.max_calls call_times x)
        by (unfold Throttler.max_calls; lia).
      unfold Throttler.max_calls. rewrite length_drop, length_app. simpl length.
      rewrite <- drop_app_le by (rewrite length_app; simpl; lia).
      rewrite drop_drop, <- app_assoc. simpl. f_equal. lia.
Qed.

(** X13. The self-calling [cancel_order] returns when the clock is fast
    enough: if the 48th reading of the clock is less than a second after
    the first, the call returns through a rejection of the limiter after
    at most 48 nested calls, whatever the deque held, without having
    called the gateway. *)
Theorem cancel_order_returns (clock : list Q) (id : Z) (call_times : list Q) :
  (length call_times <= 47)%nat -> (48 <= length clock)%nat ->
  (nth 47 clock 0 - nth 0 clock 0 < 1)%Q ->
  snd (DynamicSpread.cancel_order clock id call_times) = ([], Core.Returned).
Proof.
  intros Hlen Hclock Hfast.
  assert (snd (snd (DynamicSpread.cancel_order clock id call_times))
          = Core.Returned) as Hret.
  { assert (length (take 47 clock) = 47%nat) as Hpre
      by (rewrite length_take; lia).
    destruct (drop 47 clock) as [|y rest] eqn:Hdrop.
    { apply (f_equal length) in Hdrop. rewrite length_drop in Hdrop.
      simpl in Hdrop. lia. }
    assert (clock = take 47 clock ++ y :: rest) as Hsplit
      by (rewrite <- Hdrop, take_drop; reflexivity).
    revert Hfast. rewrite Hsplit at 1 2 3. intros Hfast.
    destruct (cancel_order_prefix (take 47 clock) (y :: rest) id call_times Hlen)
      as [Hr|Heq]; [exact Hr|].
    rewrite Heq. rewrite Hpre.
    replace (length call_times + 47 - 47)%nat with (length call_times) by lia.
    rewrite drop_app_length. simpl. unfold Throttler.throttler.
    assert (Throttler.record_call (take 47 clock) y = None) as ->; [|reflexivity].
    unfold Throttler.record_call, Throttler.saturated.
    rewrite Hpre. simpl Nat.eqb. simpl andb.
    assert (Throttler.Qlt_bool (y - hd 0%Q (take 47 clock)) Throttler.interval
            = true) as ->; [|reflexivity].
    apply Qlt_bool_true. unfold Throttler.interval.
    assert (nth 47 (take 47 clock ++ y :: rest) 0%Q = y) as Hy.
    { rewrite app_nth2 by lia. rewrite Hpre, Nat.sub_diag. reflexivity. }
    assert (nth 0 (take 47 clock ++ y :: rest) 0%Q = hd 0%Q (take 47 clock))
      as H0.
    { destruct (take 47 clock); [simpl in Hpre; lia|reflexivity]. }
    rewrite Hy, H0 in Hfast. exact Hfast. }
  pose proof (cancel_order_silent clock id call_times) as Hsilent.
  destruct (DynamicSpread.cancel_order clock id call_times) as [c [a o]].
  simpl in *. congruence.
Qed.

(** Forty-eight readings a millisecond apart, on an empty deque. *)
Lemma cancel_order_returns_witness :
  snd (DynamicSpread.cancel_order
         (map (fun k => (10 + inject_Z k / 1000)%Q) (seqZ 0 48)) 1 [])
  = ([], Core.Returned).
Proof.
  apply cancel_order_returns.
  - simpl. lia.
  - vm_compute. lia.
  - vm_compute. reflexivity.
Defined.
